(** * KeychainService: keyblock validation and Web-of-Trust state engine

    A shallow embedding of [src/app/service/KeychainService.js].

    The service is a closure over [conn] (storage models), [conf],
    [PublicKeyService] and a handful of required libraries (OpenPGP key
    helpers, parsers, hashing).  The storage models and the libraries are
    not part of the source tree: the storage queries are modelled from the
    specification of the persistence layer, the libraries are interfaces
    (type classes) over which the service functions are parametric.

    Callback-style code ([async.waterfall], [async.forEachSeries], ...) is
    written in a small result monad: a step either hands a value to the
    next step, reports an error to the final callback, dies on an uncaught
    exception, or never calls back. *)

From Stdlib Require Import ZArith Bool Ascii String Lia.
From Stdlib Require Import Floats.SpecFloat DecimalString.
From stdpp Require Import gmap strings list.

Local Open Scope string_scope.
Local Open Scope Z_scope.

(** ** JavaScript values used by the service *)

Module JS.

(** A JavaScript number as the proof-of-work code can produce it: an
    integer, or one of the non-finite values a division by zero yields. *)
Inductive num : Type :=
| Int (z : Z)
| PosInf
| NegInf
| NaN.

Definition toString (z : Z) : string := NilZero.string_of_int (Z.to_int z).

Definition numToString (n : num) : string :=
  match n with
  | Int z => toString z
  | PosInf => "Infinity"
  | NegInf => "-Infinity"
  | NaN => "NaN"
  end.

(** [s.match(/^0+/)[0].length], when the match succeeds; 0 stands for a
    failed match (callers that index the match result test for it). *)
Fixpoint leadingZeros (s : string) : Z :=
  match s with
  | String "0"%char r => 1 + leadingZeros r
  | _ => 0
  end.

(** [s.match(new RegExp('^0{' + n + tail))] with [tail] either ["}"] or
    [",}"].  A non-negative integer [n] makes a quantifier, and with the
    pattern anchored only at the start both forms ask for at least [n]
    zeros.  Anything else is not a quantifier and the braces are literal
    characters. *)
Definition matchZeros (n : num) (tail : string) (s : string) : bool :=
  match n with
  | Int z =>
      if 0 <=? z then z <=? leadingZeros s
      else String.prefix ("0{" +:+ toString z +:+ tail) s
  | _ => String.prefix ("0{" +:+ numToString n +:+ tail) s
  end.

(** [s.substring(n)] *)
Definition substringFrom (n : nat) (s : string) : string :=
  String.substring n (String.length s - n)%nat s.

(** [s.match(/^\+/)] *)
Definition startsWithPlus (s : string) : bool :=
  match s with
  | String "+"%char _ => true
  | _ => false
  end.

(** A string of the digits 0-9 and A-F, as
    [issuerKeyId.toHex().toUpperCase()] yields. *)
Fixpoint isHex (s : string) : bool :=
  match s with
  | EmptyString => true
  | String c r =>
      let n := Ascii.nat_of_ascii c in
      (((48 <=? n)%nat && (n <=? 57)%nat) || ((65 <=? n)%nat && (n <=? 70)%nat)) && isHex r
  end.

(** [fpr.match(new RegExp(keyID + '$'))] for a [keyID] of hexadecimal
    digits: such a pattern has no metacharacter but the closing [$], and
    the match is the test that [fpr] ends with [keyID].  The service
    writes every key id it matches this way with
    [toHex().toUpperCase()]; for any other [keyID] the pattern may read
    differently, and what is proved on this test is proved for [isHex]
    key ids. *)
Definition endsWith (suffix s : string) : bool :=
  String.prefix (String.rev suffix) (String.rev s).

(** binary64 arithmetic, for the one computation of the service that
    leaves the integers: [conf.powPeriod/100*currentWoTsize]. *)
Definition b64 (z : Z) : spec_float := binary_normalize 53 1024 z 0 false.
Definition b64_div : spec_float -> spec_float -> spec_float := SFdiv 53 1024.
Definition b64_mul : spec_float -> spec_float -> spec_float := SFmul 53 1024.

(** [Math.floor] of a binary64 value *)
Definition floor64 (f : spec_float) : num :=
  match f with
  | S754_zero _ => Int 0
  | S754_finite s m e =>
      let v := if s then Z.neg m else Z.pos m in
      Int (if 0 <=? e then v * 2 ^ e else v / 2 ^ (- e))
  | S754_infinity s => if s then NegInf else PosInf
  | S754_nan => NaN
  end.

(** [Number.isSafeInteger]: the integers that binary64 holds exactly
    together with their neighbours. *)
Definition isSafeInteger (z : Z) : bool := Z.abs z <=? 2 ^ 53 - 1.

(** [Math.floor(a / b)] for an integer [a].  JavaScript divides in
    binary64; the model divides in [Z].  For safe integers [a] and [b]
    the two agree: the quotient, when it is not an integer, lies at
    least [1/b] below the next integer and is rounded by less than
    [1/b].  Beyond the safe integers they differ, and what is proved on
    this function is proved under [isSafeInteger].  A finite [a] over an
    infinity is a zero of either sign, which [Math.floor] keeps and the
    subtraction that follows does not tell from 0. *)
Definition floorDiv (a : Z) (b : num) : num :=
  match b with
  | Int 0 => if 0 <? a then PosInf else if a <? 0 then NegInf else NaN
  | Int p => Int (a / p)
  | PosInf => Int 0
  | NegInf => Int 0
  | NaN => NaN
  end.

(** [a - b] and [Math.max(a, b)] with an integer [a]; exact on safe
    integers. *)
Definition subFrom (a : Z) (b : num) : num :=
  match b with
  | Int z => Int (a - z)
  | PosInf => NegInf
  | NegInf => PosInf
  | NaN => NaN
  end.

Definition max (a : Z) (b : num) : num :=
  match b with
  | Int z => Int (Z.max a z)
  | PosInf => PosInf
  | NegInf => Int a
  | NaN => NaN
  end.

(** A JavaScript object used as a map, keys in insertion order. *)
Definition obj (V : Type) : Type := list (string * V).

Fixpoint get {V} (k : string) (o : obj V) : option V :=
  match o with
  | [] => None
  | (k', v) :: r => if String.eqb k k' then Some v else get k r
  end.

Fixpoint set {V} (k : string) (v : V) (o : obj V) : obj V :=
  match o with
  | [] => [(k, v)]
  | (k', v') :: r => if String.eqb k k' then (k', v) :: r else (k', v') :: set k v r
  end.

Definition keys {V} (o : obj V) : list string := map fst o.
Definition values {V} (o : obj V) : list V := map snd o.

(** [arr.indexOf(x) != -1] on an array of strings *)
Definition includes (x : string) (arr : list string) : bool :=
  existsb (String.eqb x) arr.

End JS.

(** ** Callback outcomes *)

Inductive result (A : Type) : Type :=
| Ok (a : A)          (** the step calls [next(null, a)] *)
| Err (msg : string)  (** the step calls back with an error *)
| Crash               (** uncaught exception: no callback is ever invoked *)
| Hang.               (** the step returns without ever calling back *)
Arguments Ok {A} a.
Arguments Err {A} msg.
Arguments Crash {A}.
Arguments Hang {A}.

Definition bind {A B} (r : result A) (k : A -> result B) : result B :=
  match r with
  | Ok a => k a
  | Err e => Err e
  | Crash => Crash
  | Hang => Hang
  end.

Notation "x <- c ;; k" := (bind c (fun x => k))
  (at level 100, c at next level, right associativity).
Notation "c ;;; k" := (bind c (fun _ => k))
  (at level 100, right associativity).

(** [async.forEachSeries(arr, iterator, cb)]: one element after the other,
    the first failure ends the loop.  [async.forEach] starts its iterators
    together; with iterators that do not interfere it reports the same
    success, and the model reports the failure of the first failing
    element. *)
Fixpoint forEachSeries {A} (iterator : A -> result unit) (arr : list A) : result unit :=
  match arr with
  | [] => Ok tt
  | x :: r => iterator x ;;; forEachSeries iterator r
  end.

(** A loop whose iterations thread an accumulator. *)
Fixpoint foldSeries {A S} (iterator : S -> A -> result S) (s : S) (arr : list A) : result S :=
  match arr with
  | [] => Ok s
  | x :: r => s' <- iterator s x ;; foldSeries iterator s' r
  end.

(** [next(cond && msg)]: an error when [cond] holds. *)
Definition failWhen (cond : bool) (msg : string) : result unit :=
  if cond then Err msg else Ok tt.

(** ** Data model *)

(** [conf]: the configuration the service is created with. *)
Record Conf : Type := {
  sigQty : Z;
  sigValidity : Z;
  powZeroMin : Z;
  powPeriod : Z;
  powPeriodC : bool;
  tsInterval : Z;
  currency : string;
  participate : bool
}.

(** [kc.membership]: the inline membership of a keychange. *)
Record InlineMembership : Type := {
  im_membership : string;
  im_signature : string
}.

(** One entry of [block.keysChanges].  [kc_certifiers] is the property
    [kc.certifiers], which validation assigns; a keychange arrives
    without it. *)
Record Keychange : Type := {
  kc_type : string;
  kc_fingerprint : string;
  kc_keypackets : string;
  kc_certpackets : string;
  kc_membership : option InlineMembership;
  kc_certifiers : option (list string)
}.

Record KeyBlock : Type := {
  kb_version : Z;
  kb_currency : string;
  kb_number : Z;
  kb_previousHash : string;
  kb_previousIssuer : string;
  kb_timestamp : Z;
  kb_nonce : Z;
  kb_issuer : string;
  kb_membersRoot : string;
  kb_membersCount : Z;
  kb_membersChanges : list string;
  kb_keysChanges : list Keychange;
  kb_signature : string;
  kb_hash : string
}.

(** What [submitKeyBlock] receives: the parsed document and the
    fingerprint of the public key that comes with it
    ([kb.pubkey.fingerprint]).  The service verifies no signature of the
    block. *)
Record Submission : Type := {
  sub_doc : KeyBlock;
  sub_pubkey_fingerprint : string
}.

(** A row of the [Key] collection, stored under its fingerprint. *)
Record KeyRow : Type := {
  key_member : bool;
  key_kick : bool;
  key_distanced : list string
}.

Record Link : Type := {
  lnk_source : string;
  lnk_target : string;
  lnk_timestamp : Z;
  lnk_obsolete : bool
}.

Record TrustedKey : Type := {
  tk_fingerprint : string;
  tk_keyID : string;
  tk_uid : string;
  tk_packets : string
}.

Record Membership : Type := {
  ms_issuer : string;
  ms_userid : string;
  ms_membership : string;
  ms_date : Z;
  ms_hash : string;
  ms_signature : string;
  ms_eligible : bool
}.

Record PublicKey : Type := {
  pk_fingerprint : string;
  pk_raw : string;
  pk_keychain : bool
}.

(** The persisted state behind [conn]. *)
Record State : Type := {
  st_blocks : list KeyBlock;          (** applied keyblocks, newest first *)
  st_keys : gmap string KeyRow;       (** member index *)
  st_links : list Link;               (** certification links, oldest first *)
  st_trusted : list TrustedKey;       (** trusted-key table *)
  st_memberships : list Membership;   (** membership pool *)
  st_pubkeys : list PublicKey         (** public keys known to the node *)
}.

(** The links a block introduces: [newLinks[target]] is the array of
    certifier fingerprints recorded for [target], or [undefined]. *)
Abbreviation NewLinks := (JS.obj (option (list string))).

(** ** Libraries the service requires *)

(** A key as [keyhelper] wraps it. *)
Record WrappedKey : Type := {
  wk_fingerprint : string;        (** [getFingerprint()] *)
  wk_userID : string;             (** [getUserID()] *)
  wk_hasValidUdid2 : bool;        (** [hasValidUdid2()] *)
  wk_armored : string;            (** [getArmored()] *)
  wk_newcomerPackets : string;    (** [base64.encode(getNewcomerPackets().write())] *)
  wk_encodedPacketList : string   (** [getEncodedPacketList()] *)
}.

(** An OpenPGP packet; for a certification, [pkt_issuerKeyId] is
    [certif.issuerKeyId.toHex().toUpperCase()], a string of hexadecimal
    digits ([JS.isHex]). *)
Record Packet : Type := {
  pkt_issuerKeyId : string;
  pkt_body : string
}.

(** [Membership.fromInline(inlineValue, inlineSignature)] *)
Record InlineParsed : Type := {
  ip_membership : string;
  ip_userid : string;
  ip_date : Z;
  ip_signature : string
}.

(** [keyhelper], [jpgp], [parsers], [base64], [unix2dos] and the hashing
    of strings.  A function that can throw returns a [result]: [Err] is
    the exception. *)
Class OpenPGP : Type := {
  fromEncodedPackets : string -> result WrappedKey;
  fromArmored : string -> result WrappedKey;
  toPacketlist : string -> result (list Packet);
  encodePacketList : list (option Packet) -> result string;
  hasOnlySubkeyMaterial : string -> bool;
  hasOnlyCertificationMaterial : string -> bool;
  fromInline : string -> string -> result InlineParsed;
  (** [entity.getRaw()] of the membership with the given currency and user id *)
  membershipRaw : InlineParsed -> string -> string -> string;
  (** [jpgp().publicKey(k).data(d).signature(s).verify] *)
  verifyDetached : string -> string -> string -> result bool;
  (** [certif.verify(certifierPrimaryKey, {userid, key})] with the user id
      and the primary key of the certified public key *)
  certifVerify : Packet -> PublicKey -> PublicKey -> bool;
  (** [parsers.parsePubkey(..).asyncWrite(armored)], then [new PublicKey] *)
  parsePubkey : string -> result PublicKey;
  unix2dos : string -> string;
  (** [String.prototype.hash] *)
  sha1 : string -> string;
  (** the canonical text of a keyblock *)
  serialize : KeyBlock -> string
}.

(** The queries of the [Link] model whose algorithm lives in the model. *)
Class LinkModel : Type := {
  (** the members from which [fpr] is not reached within 3 steps *)
  Link_isOver3StepsOfAMember : list Link -> string -> list string -> list string;
  (** those of [candidates] from which [fpr] is still not reached within
      3 steps once the new links are added *)
  Link_isStillOver3Steps : list Link -> string -> list string -> NewLinks -> list string;
  (** whether a link is made obsolete by [Link.obsoletes(cutoff)] *)
  Link_expired : Z -> Link -> bool
}.

(** [PublicKeyService]: it owns the public-key collection. *)
Class PublicKeyService : Type := {
  submitPubkey : list PublicKey -> PublicKey -> result (list PublicKey);
  PKS_updateAvailableKeyMaterial : list PublicKey -> string -> result (list PublicKey)
}.

(** ** Storage queries *)

Definition set_blocks (st : State) (v : list KeyBlock) : State :=
  {| st_blocks := v; st_keys := st_keys st; st_links := st_links st;
     st_trusted := st_trusted st; st_memberships := st_memberships st;
     st_pubkeys := st_pubkeys st |}.

Definition set_keys (st : State) (v : gmap string KeyRow) : State :=
  {| st_blocks := st_blocks st; st_keys := v; st_links := st_links st;
     st_trusted := st_trusted st; st_memberships := st_memberships st;
     st_pubkeys := st_pubkeys st |}.

Definition set_links (st : State) (v : list Link) : State :=
  {| st_blocks := st_blocks st; st_keys := st_keys st; st_links := v;
     st_trusted := st_trusted st; st_memberships := st_memberships st;
     st_pubkeys := st_pubkeys st |}.

Definition set_trusted (st : State) (v : list TrustedKey) : State :=
  {| st_blocks := st_blocks st; st_keys := st_keys st; st_links := st_links st;
     st_trusted := v; st_memberships := st_memberships st;
     st_pubkeys := st_pubkeys st |}.

Definition set_memberships (st : State) (v : list Membership) : State :=
  {| st_blocks := st_blocks st; st_keys := st_keys st; st_links := st_links st;
     st_trusted := st_trusted st; st_memberships := v;
     st_pubkeys := st_pubkeys st |}.

Definition set_pubkeys (st : State) (v : list PublicKey) : State :=
  {| st_blocks := st_blocks st; st_keys := st_keys st; st_links := st_links st;
     st_trusted := st_trusted st; st_memberships := st_memberships st;
     st_pubkeys := v |}.

(** Modelled from the spec: [KeyBlock.current()], the tip of the chain
    (block store, section 6). *)
Definition KeyBlock_current (st : State) : option KeyBlock :=
  head (st_blocks st).

(** Modelled from the spec: [KeyBlock.lastOfIssuer(fpr)], the most recent
    applied block of an issuer. *)
Definition KeyBlock_lastOfIssuer (st : State) (fpr : string) : option KeyBlock :=
  List.find (fun b => String.eqb (kb_issuer b) fpr) (st_blocks st).

(** Modelled from the spec: [block.save()] persists the block. *)
Definition KeyBlock_save (st : State) (b : KeyBlock) : State :=
  set_blocks st (b :: st_blocks st).

(** Modelled from the spec: [Key.isMember(fpr)]. *)
Definition Key_isMember (st : State) (fpr : string) : bool :=
  match st_keys st !! fpr with
  | Some row => key_member row
  | None => false
  end.

(** Modelled from the spec: [Key.getMembers()], the rows with
    [member = true], each with its fingerprint. *)
Definition Key_getMembers (st : State) : list (string * KeyRow) :=
  List.filter (fun kr => key_member (snd kr)) (map_to_list (st_keys st)).

(** Modelled from the spec: [Key.getToBeKicked()], the current members
    flagged [kick = true] or whose [distanced] set is not empty
    (section 4.4, step 7). *)
Definition Key_getToBeKicked (st : State) : list (string * KeyRow) :=
  List.filter
    (fun kr => key_kick (snd kr) || negb (Nat.eqb (List.length (key_distanced (snd kr))) 0))
    (Key_getMembers st).

Definition blankRow : KeyRow :=
  {| key_member := false; key_kick := false; key_distanced := [] |}.

Definition rowOf (st : State) (fpr : string) : KeyRow :=
  default blankRow (st_keys st !! fpr).

(** Modelled from the spec: [Key.addMember(fpr)] sets [member = true] and
    clears [distanced] (section 4.5, step 2). *)
Definition Key_addMember (st : State) (fpr : string) : State :=
  set_keys st (<[fpr := {| key_member := true;
                           key_kick := key_kick (rowOf st fpr);
                           key_distanced := [] |}]> (st_keys st)).

(** Modelled from the spec: [Key.removeMember(fpr)] sets [member = false]. *)
Definition Key_removeMember (st : State) (fpr : string) : State :=
  set_keys st (<[fpr := {| key_member := false;
                           key_kick := key_kick (rowOf st fpr);
                           key_distanced := key_distanced (rowOf st fpr) |}]> (st_keys st)).

(** Modelled from the spec: [Key.unsetKicked(fpr)] clears [kick]. *)
Definition Key_unsetKicked (st : State) (fpr : string) : State :=
  set_keys st (<[fpr := {| key_member := key_member (rowOf st fpr);
                           key_kick := false;
                           key_distanced := key_distanced (rowOf st fpr) |}]> (st_keys st)).

(** Modelled from the spec: [Key.setKicked(fpr, distanced, notEnoughLinks)]
    stores the distanced set and sets
    [kick = (distanced <> []) or notEnoughLinks] (section 4.6). *)
Definition Key_setKicked (st : State) (fpr : string) (distanced : list string)
    (notEnoughLinks : bool) : State :=
  set_keys st (<[fpr := {| key_member := key_member (rowOf st fpr);
                           key_kick := negb (Nat.eqb (List.length distanced) 0) || notEnoughLinks;
                           key_distanced := distanced |}]> (st_keys st)).

(** Modelled from the spec: [Link.currentValidLinks(target)], the links to
    [target] that are not obsolete. *)
Definition Link_currentValidLinks (st : State) (target : string) : list Link :=
  List.filter (fun l => String.eqb (lnk_target l) target && negb (lnk_obsolete l)) (st_links st).

(** Modelled from the spec: [Link.obsoletes(cutoff)] marks the expired
    links; links are never deleted. *)
Definition Link_obsoletes `{LinkModel} (st : State) (cutoff : Z) : State :=
  set_links st
    (map (fun l => if Link_expired cutoff l
                   then {| lnk_source := lnk_source l; lnk_target := lnk_target l;
                           lnk_timestamp := lnk_timestamp l; lnk_obsolete := true |}
                   else l)
         (st_links st)).

(** Modelled from the spec: [lnk.save()] appends the link. *)
Definition Link_save (st : State) (l : Link) : State :=
  set_links st (st_links st ++ [l])%list.

(** Modelled from the spec: [TrustedKey.getTheOne(fprOrKeyId)]; the call
    fails when there is no such key. *)
Definition TrustedKey_getTheOne (st : State) (id : string) : result TrustedKey :=
  match List.find (fun tk => String.eqb (tk_fingerprint tk) id || String.eqb (tk_keyID tk) id)
                  (st_trusted st) with
  | Some tk => Ok tk
  | None => Err "Trusted key not found"
  end.

(** Modelled from the spec: [trusted.save()] inserts the row, or replaces
    the row of the same fingerprint. *)
Definition TrustedKey_save (st : State) (tk : TrustedKey) : State :=
  if existsb (fun t => String.eqb (tk_fingerprint t) (tk_fingerprint tk)) (st_trusted st)
  then set_trusted st
         (map (fun t => if String.eqb (tk_fingerprint t) (tk_fingerprint tk) then tk else t)
              (st_trusted st))
  else set_trusted st (st_trusted st ++ [tk])%list.

(** Modelled from the spec: [PublicKey.getTheOne(fpr)]; the call fails
    when the key is unknown. *)
Definition PublicKey_getTheOne (st : State) (fpr : string) : result PublicKey :=
  match List.find (fun pk => String.eqb (pk_fingerprint pk) fpr) (st_pubkeys st) with
  | Some pk => Ok pk
  | None => Err "Public key not found"
  end.

(** Modelled from the spec: [Membership.getForHashAndIssuer(hash, issuer)]. *)
Definition Membership_getForHashAndIssuer (st : State) (h issuer : string) : list Membership :=
  List.filter (fun m => String.eqb (ms_hash m) h && String.eqb (ms_issuer m) issuer)
              (st_memberships st).

(** Modelled from the spec: [Membership.removeEligible(issuer)] drops the
    eligible entries of an issuer. *)
Definition Membership_removeEligible (st : State) (issuer : string) : State :=
  set_memberships st
    (List.filter (fun m => negb (String.eqb (ms_issuer m) issuer && ms_eligible m))
                 (st_memberships st)).

(** Modelled from the spec: [Membership.removeFor(fpr)] drops the pending
    memberships of a key. *)
Definition Membership_removeFor (st : State) (fpr : string) : State :=
  set_memberships st
    (List.filter (fun m => negb (String.eqb (ms_issuer m) fpr)) (st_memberships st)).

(** Modelled from the spec: [entry.save()] adds the entry to the pool. *)
Definition Membership_save (st : State) (m : Membership) : State :=
  set_memberships st (st_memberships st ++ [m])%list.

(** ** Steps that read and write the stores *)

(** A step of [saveBlockData] or [submitMembership]: it runs on the
    stores, and what it wrote stays written when a later step fails. *)
Definition Step (A : Type) : Type := State -> result A * State.

Definition sbind {A B} (m : Step A) (k : A -> Step B) : Step B :=
  fun st =>
    match m st with
    | (Ok a, st') => k a st'
    | (Err e, st') => (Err e, st')
    | (Crash, st') => (Crash, st')
    | (Hang, st') => (Hang, st')
    end.

Definition sret {A} (a : A) : Step A := fun st => (Ok a, st).
Definition lift {A} (r : result A) : Step A := fun st => (r, st).
Definition reads {A} (q : State -> result A) : Step A := fun st => (q st, st).
Definition writes (w : State -> State) : Step unit := fun st => (Ok tt, w st).

Notation "x <~ c ;; k" := (sbind c (fun x => k))
  (at level 100, c at next level, right associativity).
Notation "c ~;; k" := (sbind c (fun _ => k))
  (at level 100, right associativity).

Fixpoint sforEach {A} (iterator : A -> Step unit) (arr : list A) : Step unit :=
  match arr with
  | [] => sret tt
  | x :: r => iterator x ~;; sforEach iterator r
  end.

(** A step that leaves the block store as it is. *)
Definition keepsBlocks {A} (m : Step A) : Prop :=
  forall st r st', m st = (r, st') -> st_blocks st' = st_blocks st.

(** An exception thrown where no [try] encloses the call. *)
Definition uncaught {A} (r : result A) : result A :=
  match r with
  | Err _ => Crash
  | other => other
  end.

(** [s.replace(/\n$/, '')] *)
Fixpoint stripFinalNewline (s : string) : string :=
  match s with
  | EmptyString => EmptyString
  | String c EmptyString => if Ascii.eqb c "010"%char then EmptyString else s
  | String c r => String c (stripFinalNewline r)
  end.

(** A non-empty string is truthy. *)
Definition truthy (s : string) : bool := negb (String.eqb s "").

(** ** The service *)

Section KeyService.

Context {pgp : OpenPGP} {wot : LinkModel} {pks : PublicKeyService}.
Variable conf : Conf.
(** [this.checkWithLocalTimestamp] *)
Variable checkWithLocalTimestamp : bool.

(** *** Memberships *)

Definition hasEligiblePubkey (st : State) (fpr : string) : result bool :=
  pubkey <- PublicKey_getTheOne st fpr ;;
  if pk_keychain pubkey then Ok true
  else
    wrappedKey <- uncaught (fromArmored (pk_raw pubkey)) ;;
    Ok (wk_hasValidUdid2 wrappedKey).

Definition submitMembership (entry : Membership) : Step Membership :=
  entries <~ reads (fun st => Ok (Membership_getForHashAndIssuer st (ms_hash entry) (ms_issuer entry))) ;;
  isMember <~ reads (fun st =>
    match entries with
    | e0 :: _ =>
        if ms_date entry <? ms_date e0 then Err "Already received membership"
        else Ok (Key_isMember st (ms_issuer entry))
    | [] => Ok (Key_isMember st (ms_issuer entry))
    end) ;;
  let isJoin := String.eqb (ms_membership entry) "IN" in
  isClean <~ reads (fun st =>
    if negb isMember && isJoin then hasEligiblePubkey st (ms_issuer entry)
    else if isMember && negb isJoin then Ok true
    else if isJoin then Err "A member cannot join in."
    else Err "A non-member cannot leave.") ;;
  (if negb isClean then lift (Err "Needs an eligible public key (with udid2)")
   else writes (fun st => Membership_removeEligible st (ms_issuer entry))) ~;;
  writes (fun st => Membership_save st entry) ~;;
  sret entry.

(** *** Chaining, timestamp, proof of work, issuer *)

(** [block = new KeyBlock(kb); block.issuer = kb.pubkey.fingerprint] *)
Definition receivedBlock (kb : Submission) : KeyBlock :=
  let d := sub_doc kb in
  {| kb_version := kb_version d; kb_currency := kb_currency d;
     kb_number := kb_number d; kb_previousHash := kb_previousHash d;
     kb_previousIssuer := kb_previousIssuer d; kb_timestamp := kb_timestamp d;
     kb_nonce := kb_nonce d; kb_issuer := sub_pubkey_fingerprint kb;
     kb_membersRoot := kb_membersRoot d; kb_membersCount := kb_membersCount d;
     kb_membersChanges := kb_membersChanges d; kb_keysChanges := kb_keysChanges d;
     kb_signature := kb_signature d; kb_hash := kb_hash d |}.

(** The "Testing chaining" tests of [submitKeyBlock], in their order. *)
Definition testChaining (current : option KeyBlock) (block : KeyBlock) : result unit :=
  match current with
  | None =>
      if 0 <? kb_number block then Err "Requires root block first" else Ok tt
  | Some cur =>
      if kb_number block <=? kb_number cur then Err "Too late for this block"
      else if kb_number cur + 1 <? kb_number block then Err "Too early for this block"
      else if (kb_number block =? kb_number cur + 1)
              && negb (String.eqb (kb_previousHash block) (kb_hash cur))
      then Err "PreviousHash does not target current block"
      else if (kb_number block =? kb_number cur + 1)
              && negb (String.eqb (kb_previousIssuer block) (kb_issuer cur))
      then Err "PreviousIssuer does not target current block"
      else Ok tt
  end.

(** The "Test timestamp" test of [submitKeyBlock]; [now] is
    [now.utcZero().timestamp()]. *)
Definition testTimestamp (now : Z) (block : KeyBlock) : result unit :=
  failWhen (checkWithLocalTimestamp && (tsInterval conf <? Z.abs (kb_timestamp block - now)))
           "Timestamp does not match this node's time".

(** [Math.floor(conf.powPeriod/100*currentWoTsize)], in binary64 as
    JavaScript computes it. *)
Definition percentOfWoT (currentWoTsize : Z) : JS.num :=
  JS.floor64 (JS.b64_mul (JS.b64_div (JS.b64 (powPeriod conf)) (JS.b64 100))
                         (JS.b64 currentWoTsize)).

Definition getTrialLevel (st : State) (issuer : string) (nextBlockNumber : Z)
    (currentWoTsize : Z) : result JS.num :=
  match KeyBlock_lastOfIssuer st issuer with
  | Some last =>
      (* [last.hash.match(/^0+/)[0]] *)
      if JS.leadingZeros (kb_hash last) =? 0 then Crash
      else
        let lastBlockPenality := JS.leadingZeros (kb_hash last) - powZeroMin conf + 1 in
        let nbPeriodsToWait :=
          if powPeriodC conf then JS.Int (powPeriod conf) else percentOfWoT currentWoTsize in
        let nbWaitedPeriods := JS.floorDiv (nextBlockNumber - kb_number last) nbPeriodsToWait in
        Ok (JS.max (powZeroMin conf)
                   (JS.subFrom (powZeroMin conf + lastBlockPenality) nbWaitedPeriods))
  | None =>
      Ok (JS.max (powZeroMin conf) (JS.subFrom (powZeroMin conf + 0) (JS.Int 0)))
  end.

Definition checkProofOfWork (st : State) (current : option KeyBlock) (block : KeyBlock)
    : result unit :=
  if negb (JS.matchZeros (JS.Int (powZeroMin conf)) "}" (kb_hash block))
  then Err "Not a proof-of-work"
  else
    nbZeros <- getTrialLevel st (kb_issuer block) (kb_number block)
                 (match current with Some cur => kb_membersCount cur | None => 0 end) ;;
    if negb (JS.matchZeros nbZeros ",}" (kb_hash block))
    then
      (* the message reads [block.hash.match(/^0+/)[0].length] *)
      if JS.leadingZeros (kb_hash block) =? 0 then Crash
      else Err ("Wrong proof-of-work level: given "
                +:+ JS.toString (JS.leadingZeros (kb_hash block))
                +:+ " zeros, required was " +:+ JS.numToString nbZeros +:+ " zeros")
    else Ok tt.

Definition checkIssuer (st : State) (block : KeyBlock) : result unit :=
  if Key_isMember st (kb_issuer block) then Ok tt
  else if kb_number block =? 0 then
    if JS.includes ("+" +:+ kb_issuer block) (kb_membersChanges block) then Ok tt
    else Err "Keyblock not signed by the root members"
  else Err "Keyblock must be signed by an existing member".

(** *** Keychanges *)

(** [found]: the last fingerprint of [newKeys] that ends with [keyID]. *)
Definition foundNewcomer (keyID : string) (newKeys : JS.obj WrappedKey) : option string :=
  match last (List.filter (JS.endsWith keyID) (JS.keys newKeys)) with
  | Some fpr => if truthy fpr then Some fpr else None
  | None => None
  end.

Definition checkCertificationOfKey (st : State) (certif : Packet) (certifiedFPR : string)
    (newKeys : JS.obj WrappedKey) : result string :=
  let keyID := pkt_issuerKeyId certif in
  let found := foundNewcomer keyID newKeys in
  pubkeyCertified <-
    match JS.get certifiedFPR newKeys with
    | Some key => parsePubkey (unix2dos (wk_armored key))   (* the certified is a newcomer *)
    | None => PublicKey_getTheOne st certifiedFPR           (* the certified is a WoT member *)
    end ;;
  certifierFPR <-
    match found with
    | Some fpr => Ok fpr
    | None => trusted <- TrustedKey_getTheOne st keyID ;; Ok (tk_fingerprint trusted)
    end ;;
  pubkeyCertifier <- PublicKey_getTheOne st certifierFPR ;;
  match found with
  | Some _ => Ok tt   (* considered a member, being a valid newcomer *)
  | None => failWhen (negb (Key_isMember st certifierFPR))
                     ("Signature from non-member " +:+ certifierFPR)
  end ;;;
  if certifVerify certif pubkeyCertifier pubkeyCertified
  then Ok (pk_fingerprint pubkeyCertifier)
  else Err "Wrong signature".

(** The certifiers of a list of certification packets, in packet order. *)
Fixpoint certifiersOf (st : State) (certifs : list Packet) (certifiedFPR : string)
    (newKeys : JS.obj WrappedKey) : result (list string) :=
  match certifs with
  | [] => Ok []
  | certif :: r =>
      certifier <- checkCertificationOfKey st certif certifiedFPR newKeys ;;
      others <- certifiersOf st r certifiedFPR newKeys ;;
      Ok (certifier :: others)
  end.

(** [checkKeychange] runs inside [try { .. } catch (ex) { done(new Error(ex)) }]:
    what a library throws is reported as an error.  The value handed on is
    [kc.certifiers] as the function leaves it. *)
Definition checkKeychange (st : State) (block : KeyBlock) (kc : Keychange)
    (newKeys : JS.obj WrappedKey) : result (option (list string)) :=
  if String.eqb (kc_type kc) "N" then
    key <- fromEncodedPackets (kc_keypackets kc) ;;
    ms <- match kc_membership kc with
          | Some im => fromInline (im_membership im) (im_signature im)
          | None => Err "TypeError: Cannot read property 'membership' of undefined"
          end ;;
    if negb (truthy (kc_certpackets kc))
    then Err "Certification packets are required for NEWCOMER type"
    else if negb (String.eqb (ip_membership ms) "IN")
    then Err "Membership must be IN for NEWCOMER type"
    else if negb (wk_hasValidUdid2 key)
    then Err "Key must have valid udid2 for NEWCOMER type"
    else if negb (String.eqb (ip_userid ms) (wk_userID key))
    then Err "Membership must match same UserID as key"
    else
      let cleanOrigin := unix2dos (stripFinalNewline (kc_keypackets kc)) in
      let cleanComputed := unix2dos (stripFinalNewline (wk_newcomerPackets key)) in
      if negb (String.eqb cleanComputed cleanOrigin)
      then Err "Only 1 pubkey, 1 udid2 userid, certifications, subkeys & subkey bindings are allowed for NEWCOMER type"
      else
        certifs <- toPacketlist (kc_certpackets kc) ;;
        certifiers <- certifiersOf st certifs (kc_fingerprint kc) newKeys ;;
        verified <- verifyDetached (wk_armored key)
                      (membershipRaw ms (currency conf) (wk_userID key))
                      (ip_signature ms) ;;
        if negb verified
        then Err ("Bad signature for membership of " +:+ wk_userID key)
        else Ok (Some certifiers)
  else if String.eqb (kc_type kc) "U" then
    match kc_membership kc with
    | Some _ => Err "Membership must NOT be provided for UPDATE type"
    | None =>
        if negb (truthy (kc_keypackets kc)) && negb (truthy (kc_certpackets kc))
        then Err "Both KeyPackets and CertificationPakcets CANNOT be empty for UPDATE type"
        else if truthy (kc_keypackets kc) && negb (hasOnlySubkeyMaterial (kc_keypackets kc))
        then Err "KeyPackets MUST contain only subkeys & subkey bindings if not empty for UPDATE type"
        else if truthy (kc_certpackets kc)
                && negb (hasOnlyCertificationMaterial (kc_certpackets kc))
        then Err "CertificationPackets MUST contain only certifications if not empty for UPDATE type"
        else
          certifs <- toPacketlist (kc_certpackets kc) ;;
          match certifs with
          | [] => Ok (kc_certifiers kc)   (* [kc.certifiers] is left as it came *)
          | _ =>
              certifiers <- certifiersOf st certifs (kc_fingerprint kc) newKeys ;;
              Ok (Some certifiers)
          end
    end
  else if String.eqb (kc_type kc) "L" then Err "LEAVER keychange type not managed yet"
  else if String.eqb (kc_type kc) "B" then Err "BACK keychange type not managed yet"
  else Err ("Unknown keychange type '" +:+ kc_type kc +:+ "'").

(** "Memorize newKeys": the decoded key of every NEWCOMER keychange.  The
    decoding is not enclosed in a [try]. *)
Fixpoint memorizeNewKeys (kcs : list Keychange) (newKeys : JS.obj WrappedKey)
    : result (JS.obj WrappedKey) :=
  match kcs with
  | [] => Ok newKeys
  | kc :: r =>
      if String.eqb (kc_type kc) "N" then
        key <- uncaught (fromEncodedPackets (kc_keypackets kc)) ;;
        memorizeNewKeys r (JS.set (kc_fingerprint kc) key newKeys)
      else memorizeNewKeys r newKeys
  end.

(** One pass of [checkKeychanges] over [block.keysChanges] for one type. *)
Definition checkKeychangesOfType (st : State) (block : KeyBlock)
    (newKeys : JS.obj WrappedKey) (newLinks : NewLinks) (currentType : string)
    : result NewLinks :=
  foldSeries
    (fun (links : NewLinks) kc =>
       if negb (String.eqb (kc_type kc) "U") && negb (String.eqb (kc_type kc) "N")
       then Err "Only NEWCOMER & UPDATE blocks are managed for now"
       else if negb (String.eqb (kc_type kc) currentType) then Ok links
       else
         certifiers <- checkKeychange st block kc newKeys ;;
         Ok (JS.set (kc_fingerprint kc) certifiers links))
    newLinks (kb_keysChanges block).

Definition checkKeychanges (st : State) (block : KeyBlock) : result NewLinks :=
  newKeys <- memorizeNewKeys (kb_keysChanges block) [] ;;
  foldSeries (checkKeychangesOfType st block newKeys) [] ["N"; "U"].

(** [checkKeychange] writes [kc.certifiers] on the keychange it is given,
    an element of [block.keysChanges]: once [checkKeychanges] has passed,
    each keychange of the block holds the certifiers its check left on
    it.  [certified] is the block in that state. *)
Definition setCertifiers (kc : Keychange) (certifiers : option (list string)) : Keychange :=
  {| kc_type := kc_type kc; kc_fingerprint := kc_fingerprint kc;
     kc_keypackets := kc_keypackets kc; kc_certpackets := kc_certpackets kc;
     kc_membership := kc_membership kc; kc_certifiers := certifiers |}.

Definition certifiedKeychange (st : State) (block : KeyBlock) (newKeys : JS.obj WrappedKey)
    (kc : Keychange) : Keychange :=
  match checkKeychange st block kc newKeys with
  | Ok certifiers => setCertifiers kc certifiers
  | _ => kc
  end.

Definition certified (st : State) (block : KeyBlock) : KeyBlock :=
  {| kb_version := kb_version block; kb_currency := kb_currency block;
     kb_number := kb_number block; kb_previousHash := kb_previousHash block;
     kb_previousIssuer := kb_previousIssuer block; kb_timestamp := kb_timestamp block;
     kb_nonce := kb_nonce block; kb_issuer := kb_issuer block;
     kb_membersRoot := kb_membersRoot block; kb_membersCount := kb_membersCount block;
     kb_membersChanges := kb_membersChanges block;
     kb_keysChanges :=
       match memorizeNewKeys (kb_keysChanges block) [] with
       | Ok newKeys => map (certifiedKeychange st block newKeys) (kb_keysChanges block)
       | _ => kb_keysChanges block
       end;
     kb_signature := kb_signature block; kb_hash := kb_hash block |}.

(** *** Web-of-Trust stability *)

(** [count]: the valid stored links to [target] plus, when
    [newLinks[target]] is a non-empty array, its length. *)
Definition linksCount (st : State) (target : string) (newLinks : NewLinks) : Z :=
  Z.of_nat (List.length (Link_currentValidLinks st target))
  + match JS.get target newLinks with
    | Some (Some sources) => Z.of_nat (List.length sources)
    | _ => 0
    end.

Definition checkHaveEnoughLinks (st : State) (target : string) (newLinks : NewLinks)
    : result unit :=
  let count := linksCount st target newLinks in
  failWhen (count <? sigQty conf)
           ("Key " +:+ JS.substringFrom 24 target +:+ " does not have enough links ("
            +:+ JS.toString count +:+ "/" +:+ JS.toString (sigQty conf) +:+ ")").

(** The fingerprints the block adds: the changes that start with [+]. *)
Definition newcomersOf (membersChanges : list string) : list string :=
  map (JS.substringFrom 1) (List.filter JS.startsWithPlus membersChanges).

(** The tests [checkWoTStability] runs for one newcomer; [members] already
    holds every newcomer of the block. *)
Definition checkNewcomer (st : State) (block : KeyBlock) (newLinks : NewLinks)
    (members : list string) (newcomer : string) : result unit :=
  (if 0 <? kb_number block then checkHaveEnoughLinks st newcomer newLinks else Ok tt) ;;;
  (* a path WoT => newcomer *)
  let firstCheck := Link_isOver3StepsOfAMember (st_links st) newcomer members in
  (if 0 <? Z.of_nat (List.length firstCheck) then
     let secondCheck := Link_isStillOver3Steps (st_links st) newcomer firstCheck newLinks in
     failWhen (0 <? Z.of_nat (List.length secondCheck))
              ("Newcomer " +:+ newcomer +:+ " is not recognized by the WoT for this block")
   else Ok tt) ;;;
  (* a path newcomer => WoT *)
  forEachSeries
    (fun member =>
       let distances := Link_isStillOver3Steps (st_links st) member [newcomer] newLinks in
       failWhen (0 <? Z.of_nat (List.length distances))
                ("Newcomer " +:+ newcomer +:+ " cannot recognize member " +:+ member
                 +:+ ": no path found or too much distance"))
    members.

Definition checkWoTStability (st : State) (block : KeyBlock) (newLinks : NewLinks)
    : result unit :=
  if 0 <=? kb_number block then
    let newcomers := newcomersOf (kb_membersChanges block) in
    let members := (map fst (Key_getMembers st) ++ newcomers)%list in
    forEachSeries (checkNewcomer st block newLinks members) newcomers
  else Hang.

(** *** Kicked members *)

(** What the second step of the per-key waterfall of [checkKicked]
    receives as [res]. *)
Inductive KickedRes : Type :=
| ResParallel (outdistanced : list string) (enoughLinks : option string)
    (** the object [async.parallel] would deliver *)
| ResArray (stillOver : list string).
    (** the array [Link.isStillOver3Steps] hands to its callback *)

(** The first step: the [outdistanced] task passes the waterfall's [next],
    not its own [callback], to [Link.isStillOver3Steps]; the second step
    is entered with the array of fingerprints, and [async.parallel] never
    completes. *)
Definition checkKickedFirst (st : State) (newLinks : NewLinks) (key : string * KeyRow)
    : KickedRes :=
  let remainingKeys := key_distanced (snd key) in
  ResArray (Link_isStillOver3Steps (st_links st) (fst key) remainingKeys newLinks).

(** The second step, on what it receives. *)
Definition checkKickedSecond (membersChanges : list string) (key : string * KeyRow)
    (res : KickedRes) : result unit :=
  match res with
  | ResArray _ =>
      (* [res.outdistanced] is [undefined]; [outdistanced.length] throws *)
      Crash
  | ResParallel outdistanced enoughLinksErr =>
      let isStill := 0 <? Z.of_nat (List.length outdistanced) in
      let isBeingKicked := JS.includes ("-" +:+ fst key) membersChanges in
      if isStill && negb isBeingKicked
      then Err ("Member " +:+ fst key +:+ " has to lose his member status. Wrong block.")
      else if negb isStill && isBeingKicked
      then Err ("Member " +:+ fst key
                +:+ " is no more outdistanced and should not be kicked. Wrong block.")
      else match enoughLinksErr with
           | Some err => if negb isBeingKicked then Err err else Ok tt
           | None => Ok tt
           end
  end.

Definition checkKicked (st : State) (block : KeyBlock) (newLinks : NewLinks) : result unit :=
  let membersChanges := kb_membersChanges block in
  forEachSeries
    (fun key => checkKickedSecond membersChanges key (checkKickedFirst st newLinks key))
    (Key_getToBeKicked st).

(** *** Members' changes *)

(** A membership of the block, as [block.getMemberships().mss] holds it. *)
Record BlockMembership : Type := {
  bm_membership : string;
  bm_fingerprint : string
}.

(** Modelled from the spec: [block.getMemberships().mss], the membership
    declarations embedded in the NEWCOMER keychanges of the block, under
    the fingerprint of their keychange.  The [KeyBlock] model is not in
    the source tree. *)
Fixpoint getMemberships (kcs : list Keychange) (mss : JS.obj BlockMembership)
    : result (JS.obj BlockMembership) :=
  match kcs with
  | [] => Ok mss
  | kc :: r =>
      match kc_membership kc with
      | Some im =>
          if String.eqb (kc_type kc) "N" then
            ms <- uncaught (fromInline (im_membership im) (im_signature im)) ;;
            getMemberships r
              (JS.set (kc_fingerprint kc)
                      {| bm_membership := ip_membership ms;
                         bm_fingerprint := kc_fingerprint kc |} mss)
          else getMemberships r mss
      | None => getMemberships r mss
      end
  end.

(** The entry [getMemberships] holds for a fingerprint comes from a
    NEWCOMER keychange of that fingerprint. *)
Definition fromNewcomer (all : list Keychange) (fpr : string) (bm : BlockMembership) : Prop :=
  bm_fingerprint bm = fpr
  /\ exists kc im p,
       In kc all /\ kc_type kc = "N" /\ kc_fingerprint kc = fpr
       /\ kc_membership kc = Some im
       /\ fromInline (im_membership im) (im_signature im) = Ok p
       /\ bm_membership bm = ip_membership p.

(** The entry of [membersChanges] a membership asks for. *)
Definition changeOf (ms : BlockMembership) : string :=
  (if String.eqb (bm_membership ms) "IN" then "+" else "-") +:+ bm_fingerprint ms.

Definition checkCommunityChanges (block : KeyBlock) : result unit :=
  mss <- getMemberships (kb_keysChanges block) [] ;;
  let error :=
    fold_left
      (fun (error : option string) ms =>
         if negb (JS.includes (changeOf ms) (kb_membersChanges block))
         then Some "Wrong members changes" else error)
      (JS.values mss) None in
  match error with
  | Some e => Err e
  | None => Ok tt
  end.

(** The loop that logs the new links calls [newLinks[target].forEach]: it
    throws on a target whose entry is [undefined], which is what an UPDATE
    keychange that arrives without [certifiers] and brings no
    certification leaves there. *)
Definition logNewLinks (newLinks : NewLinks) : result unit :=
  if existsb (fun entry : string * option (list string) =>
                match snd entry with
                | Some _ => false
                | None => true
                end) newLinks
  then Crash else Ok tt.

Definition checkCoherence (st : State) (block : KeyBlock) : result NewLinks :=
  newLinks <- checkKeychanges st block ;;
  logNewLinks newLinks ;;;
  checkWoTStability st block newLinks ;;;
  checkKicked st block newLinks ;;;
  checkCommunityChanges block ;;;
  Ok newLinks.

(** *** Applying a block *)

Definition updateMembers (block : KeyBlock) : Step unit :=
  sforEach
    (fun mc =>
       let isPlus := JS.startsWithPlus mc in
       let fpr := JS.substringFrom 1 mc in
       writes (fun st => if isPlus then Key_addMember st fpr else Key_removeMember st fpr) ~;;
       writes (fun st => Key_unsetKicked st fpr))
    (kb_membersChanges block).

(** Modelled from the spec: [block.getNewPubkeys()], the decoded key of
    each NEWCOMER keychange (section 4.5, step 3). *)
Fixpoint getNewPubkeys (kcs : list Keychange) : result (list WrappedKey) :=
  match kcs with
  | [] => Ok []
  | kc :: r =>
      if String.eqb (kc_type kc) "N" then
        key <- uncaught (fromEncodedPackets (kc_keypackets kc)) ;;
        keys <- getNewPubkeys r ;;
        Ok (key :: keys)
      else getNewPubkeys r
  end.

(** The packets an UPDATE brings for a key. *)
Record KeyUpdate : Type := {
  ku_certifs : string;
  ku_subkeys : string
}.

(** Modelled from the spec: [block.getKeyUpdates()], for each UPDATE (or
    BACK) keychange the certifications and subkeys it brings, under the
    fingerprint of the keychange (section 4.5, step 4). *)
Definition getKeyUpdates (kcs : list Keychange) : JS.obj KeyUpdate :=
  fold_left
    (fun (updates : JS.obj KeyUpdate) kc =>
       if String.eqb (kc_type kc) "U" || String.eqb (kc_type kc) "B"
       then JS.set (kc_fingerprint kc)
                   {| ku_certifs := kc_certpackets kc; ku_subkeys := kc_keypackets kc |}
                   updates
       else updates)
    kcs [].

(** The packets of a trusted key once an update is merged: the
    certifications go behind user id and self-signature (positions 0 to
    2), the subkeys at the end. *)
Definition mergedPackets (oldList : list Packet) (update : KeyUpdate)
    : result (list (option Packet)) :=
  withCertifs <-
    (if truthy (ku_certifs update) then
       certifs <- uncaught (toPacketlist (ku_certifs update)) ;;
       Ok ([oldList !! 0%nat; oldList !! 1%nat; oldList !! 2%nat]
           ++ map Some certifs ++ map Some (drop 3 oldList))%list
     else Ok (map Some oldList)) ;;
  if truthy (ku_subkeys update) then
    subkeys <- uncaught (toPacketlist (ku_subkeys update)) ;;
    Ok (withCertifs ++ map Some subkeys)%list
  else Ok withCertifs.

Definition saveLinks (block : KeyBlock) (newLinks : NewLinks) : Step unit :=
  sforEach
    (fun entry : string * option (list string) =>
       match snd entry with
       | Some sources =>
           sforEach
             (fun source =>
                writes (fun st => Link_save st
                          {| lnk_source := source; lnk_target := fst entry;
                             lnk_timestamp := kb_timestamp block; lnk_obsolete := false |}))
             sources
       | None =>
           (* [async.forEach(undefined, ..)] reads [arr.length] *)
           lift Crash
       end)
    newLinks.

Definition computeObsoleteLinks (block : KeyBlock) : Step unit :=
  writes (fun st => Link_obsoletes st (kb_timestamp block - sigValidity conf)) ~;;
  members <~ reads (fun st => Ok (Key_getMembers st)) ;;
  let fprs := map fst members in
  sforEach
    (fun fpr =>
       writes (fun st =>
         let distancedKeys := Link_isOver3StepsOfAMember (st_links st) fpr fprs in
         let notEnoughLinks :=
           match checkHaveEnoughLinks st fpr [] with
           | Err _ => true
           | _ => false
           end in
         Key_setKicked st fpr distancedKeys notEnoughLinks))
    fprs.

Definition updateAvailableKeyMaterial (block : KeyBlock) : Step unit :=
  sforEach
    (fun kc =>
       if negb (String.eqb (kc_type kc) "L") then
         pubkeys <~ reads (fun st => PKS_updateAvailableKeyMaterial (st_pubkeys st) (kc_fingerprint kc)) ;;
         writes (fun st => set_pubkeys st pubkeys)
       else sret tt)
    (kb_keysChanges block).

Definition saveBlockData (block : KeyBlock) (newLinks : NewLinks) : Step KeyBlock :=
  (* Saves the block *)
  writes (fun st => KeyBlock_save st block) ~;;
  (* Update members *)
  updateMembers block ~;;
  (* Save new pubkeys (from NEWCOMERS) *)
  pubkeys <~ lift (getNewPubkeys (kb_keysChanges block)) ;;
  sforEach
    (fun key =>
       let fpr := wk_fingerprint key in
       let trusted := {| tk_fingerprint := fpr; tk_keyID := JS.substringFrom 24 fpr;
                         tk_uid := wk_userID key; tk_packets := wk_encodedPacketList key |} in
       writes (fun st => TrustedKey_save st trusted) ~;;
       obj <~ lift (parsePubkey (unix2dos (wk_armored key))) ;;
       stored <~ reads (fun st => submitPubkey (st_pubkeys st) obj) ;;
       writes (fun st => set_pubkeys st stored))
    pubkeys ~;;
  (* Save key updates (from UPDATE & BACK) *)
  sforEach
    (fun entry : string * KeyUpdate =>
       trusted <~ reads (fun st => TrustedKey_getTheOne st (fst entry)) ;;
       oldList <~ lift (uncaught (toPacketlist (tk_packets trusted))) ;;
       newList <~ lift (mergedPackets oldList (snd entry)) ;;
       packets <~ lift (uncaught (encodePacketList newList)) ;;
       writes (fun st => TrustedKey_save st
                 {| tk_fingerprint := tk_fingerprint trusted; tk_keyID := tk_keyID trusted;
                    tk_uid := tk_uid trusted; tk_packets := packets |}))
    (getKeyUpdates (kb_keysChanges block)) ~;;
  (* Save links *)
  saveLinks block newLinks ~;;
  (* Save memberships *)
  mss <~ lift (getMemberships (kb_keysChanges block) []) ;;
  sforEach (fun ms => writes (fun st => Membership_removeFor st (bm_fingerprint ms)))
           (JS.values mss) ~;;
  (* Compute obsolete links *)
  computeObsoleteLinks block ~;;
  (* Update available key material for members with keychanges in this block *)
  updateAvailableKeyMaterial block ~;;
  sret block.

(** *** Receiving a block *)

(** Every check [submitKeyBlock] runs before it saves anything, in the
    order of its waterfall; the value is [newLinks]. *)
Definition checkKeyBlock (st : State) (now : Z) (block : KeyBlock) : result NewLinks :=
  let current := KeyBlock_current st in
  testChaining current block ;;;
  testTimestamp now block ;;;
  checkProofOfWork st current block ;;;
  checkIssuer st block ;;;
  checkCoherence st block.

(** What a call of [submitKeyBlock] finds of the proof-of-work search of
    the node.  [NotComputing]: no search is running
    ([computationActivated] is false, as it always is on a node that
    does not participate) or the compute process is waiting
    ([computeNextCallback] is set).  [Computing]: a search is running;
    the call leaves its continuation in [newKeyblockCallback], which only
    the search calls, when one of its iterations reports 'New block
    received'.  [noticed] tells whether the search comes to do so; a
    search that ends before does not, and the continuation stays where it
    was left. *)
Inductive Computation : Type :=
| NotComputing
| Computing (noticed : bool).

(** [submitKeyBlock].  The block handed to [saveBlockData] and to [done]
    is the object the checks worked on.  The model runs a call from its
    start to its end on the stores it is given: the service takes no
    lock, and calls that overlap are not runs of this definition. *)
Definition submitKeyBlock (computation : Computation) (now : Z) (kb : Submission)
    : Step KeyBlock :=
  let block := receivedBlock kb in
  newLinks <~ reads (fun st => checkKeyBlock st now block) ;;
  checked <~ reads (fun st => Ok (certified st block)) ;;
  (* "If computation is started, stop it and wait for stop event" *)
  match computation with
  | Computing false => lift Hang
  | _ => sret tt
  end ~;;
  saveBlockData checked newLinks.

(** What a call does once its checks have returned [r] on the stores
    [st0]: it applies the block, or hands the failure on. *)
Definition applyChecked (st0 : State) (r : result NewLinks) (block : KeyBlock)
    : Step KeyBlock :=
  fun st =>
    match r with
    | Ok newLinks => saveBlockData (certified st0 block) newLinks st
    | Err e => (Err e, st)
    | Crash => (Crash, st)
    | Hang => (Hang, st)
    end.

(** Two calls of [submitKeyBlock] that overlap while no search is
    running, in one of the orders the callbacks allow: the checks of both
    calls read the stores before either call writes, then the first call
    applies its block and the second call applies its own. *)
Definition submitOverlapping (now1 : Z) (kb1 : Submission) (now2 : Z) (kb2 : Submission)
    (st : State) : result KeyBlock * result KeyBlock * State :=
  let checks1 := checkKeyBlock st now1 (receivedBlock kb1) in
  let checks2 := checkKeyBlock st now2 (receivedBlock kb2) in
  let (r1, st1) := applyChecked st checks1 (receivedBlock kb1) st in
  let (r2, st2) := applyChecked st checks2 (receivedBlock kb2) st1 in
  (r1, r2, st2).

(** *** Proof of work *)

(** Modelled from the spec: [block.getRaw()], the canonical text of the
    block without its signature and hash (section 6: the hash of the
    block is the hash of [getRaw()] followed by the signature). *)
Definition getRaw (block : KeyBlock) : string :=
  serialize
    {| kb_version := kb_version block; kb_currency := kb_currency block;
       kb_number := kb_number block; kb_previousHash := kb_previousHash block;
       kb_previousIssuer := kb_previousIssuer block; kb_timestamp := kb_timestamp block;
       kb_nonce := kb_nonce block; kb_issuer := kb_issuer block;
       kb_membersRoot := kb_membersRoot block; kb_membersCount := kb_membersCount block;
       kb_membersChanges := kb_membersChanges block; kb_keysChanges := kb_keysChanges block;
       kb_signature := ""; kb_hash := "" |}.

Definition withClock (block : KeyBlock) (timestamp nonce : Z) : KeyBlock :=
  {| kb_version := kb_version block; kb_currency := kb_currency block;
     kb_number := kb_number block; kb_previousHash := kb_previousHash block;
     kb_previousIssuer := kb_previousIssuer block; kb_timestamp := timestamp;
     kb_nonce := nonce; kb_issuer := kb_issuer block;
     kb_membersRoot := kb_membersRoot block; kb_membersCount := kb_membersCount block;
     kb_membersChanges := kb_membersChanges block; kb_keysChanges := kb_keysChanges block;
     kb_signature := kb_signature block; kb_hash := kb_hash block |}.

Definition withSignature (block : KeyBlock) (sig : string) : KeyBlock :=
  {| kb_version := kb_version block; kb_currency := kb_currency block;
     kb_number := kb_number block; kb_previousHash := kb_previousHash block;
     kb_previousIssuer := kb_previousIssuer block; kb_timestamp := kb_timestamp block;
     kb_nonce := kb_nonce block; kb_issuer := kb_issuer block;
     kb_membersRoot := kb_membersRoot block; kb_membersCount := kb_membersCount block;
     kb_membersChanges := kb_membersChanges block; kb_keysChanges := kb_keysChanges block;
     kb_signature := sig; kb_hash := kb_hash block |}.

(** What one iteration of the search meets outside the service: the clock
    reading, and whether a received block is waiting
    ([newKeyblockCallback]) at the moment the iteration looks. *)
Record Tick : Type := {
  tick_now : Z;
  tick_newKeyblock : bool
}.

(** The variables of [prove]. *)
Record Search : Type := {
  s_block : KeyBlock;
  s_pow : string;
  s_sig : string;
  s_testsCount : Z
}.

(** The update of timestamp and nonce at the head of an iteration. *)
Definition tickBlock (newTS : Z) (block : KeyBlock) : KeyBlock :=
  if newTS =? kb_timestamp block
  then withClock block (kb_timestamp block) (kb_nonce block + 1)
  else withClock block newTS 0.

(** One iteration of the [async.whilst] body. *)
Definition iteration (sigFunc : string -> string) (t : Tick) (s : Search) : Search :=
  let block := tickBlock (tick_now t) (s_block s) in
  let raw := getRaw block in
  let sig := unix2dos (sigFunc raw) in
  {| s_block := block; s_pow := sha1 (raw +:+ sig); s_sig := sig;
     s_testsCount := s_testsCount s + 1 |}.

(** Whether the iteration that brought the count to [testsCount] reports
    'New block received'. *)
Definition cancels (t : Tick) (testsCount : Z) : bool :=
  negb (testsCount mod 100 =? 0) && (testsCount mod 50 =? 0) && tick_newKeyblock t.

(** A call of [done] by [prove]. *)
Inductive ProveDone : Type :=
| PowCancelled (err : string)   (** [done('New block received')] *)
| Proved (block : KeyBlock).    (** [done(null, block)] *)

(** The calls of [done] the search makes while it meets [ticks].  After
    [next('New block received')] the body still reaches its closing
    [next()], and the loop goes on. *)
Fixpoint whilst (nbZeros : JS.num) (sigFunc : string -> string) (ticks : list Tick)
    (s : Search) : list ProveDone :=
  if JS.matchZeros nbZeros "}" (s_pow s)
  then [Proved (withSignature (s_block s) (s_sig s))]
  else
    match ticks with
    | [] => []
    | t :: r =>
        let s' := iteration sigFunc t s in
        ((if cancels t (s_testsCount s') then [PowCancelled "New block received"] else [])
         ++ whilst nbZeros sigFunc r s')%list
    end.

Definition prove (block : KeyBlock) (sigFunc : string -> string) (nbZeros : JS.num)
    (ticks : list Tick) : list ProveDone :=
  whilst nbZeros sigFunc ticks
         {| s_block := block; s_pow := ""; s_sig := ""; s_testsCount := 0 |}.

End KeyService.

(** ** The specification's vocabulary *)

(** The error kinds of the specification (section 7). *)
Inductive ErrorKind : Type :=
| BadChaining | BadTimestamp | BadPoW | BadIssuer | BadKeychange
| NotImplementedKeychange | BadCrypto | WoTUnstable | BadKickSet
| BadMembersChanges | AlreadySeen | PowCancelled_kind | StorageError.

(** The kind of each fixed message of the service.  The messages that
    carry a fingerprint or a count are left unclassified. *)
Definition errorKind (msg : string) : option ErrorKind :=
  if String.eqb msg "Requires root block first" then Some BadChaining
  else if String.eqb msg "Too late for this block" then Some BadChaining
  else if String.eqb msg "Too early for this block" then Some BadChaining
  else if String.eqb msg "PreviousHash does not target current block" then Some BadChaining
  else if String.eqb msg "PreviousIssuer does not target current block" then Some BadChaining
  else if String.eqb msg "Timestamp does not match this node's time" then Some BadTimestamp
  else if String.eqb msg "Not a proof-of-work" then Some BadPoW
  else if String.eqb msg "Keyblock not signed by the root members" then Some BadIssuer
  else if String.eqb msg "Keyblock must be signed by an existing member" then Some BadIssuer
  else if String.eqb msg "Only NEWCOMER & UPDATE blocks are managed for now"
  then Some NotImplementedKeychange
  else if String.eqb msg "Wrong members changes" then Some BadMembersChanges
  else if String.eqb msg "Already received membership" then Some AlreadySeen
  else if String.eqb msg "New block received" then Some PowCancelled_kind
  else None.

(** Chain linkage as the specification asks for it (section 4.4, step 1). *)
Definition chainLinked (T : option KeyBlock) (B : KeyBlock) : Prop :=
  match T with
  | None => kb_number B = 0
  | Some t =>
      kb_number B = kb_number t + 1
      /\ kb_previousHash B = kb_hash t
      /\ kb_previousIssuer B = kb_issuer t
  end.

(** The required number of zeros in the specification's words
    (section 4.4, step 3), on the integers. *)
Definition specRequiredZeros (conf : Conf) (last : option KeyBlock) (number : Z)
    (currentMembersCount : Z) : Z :=
  let lastIssuerPenalty :=
    match last with
    | Some l => JS.leadingZeros (kb_hash l) - powZeroMin conf + 1
    | None => 0
    end in
  let P := if powPeriodC conf then powPeriod conf
           else powPeriod conf * currentMembersCount / 100 in
  let periodsWaited :=
    match last with
    | Some l => (number - kb_number l) / P
    | None => 0
    end in
  Z.max (powZeroMin conf) (powZeroMin conf + lastIssuerPenalty - periodsWaited).

(** A block that differs only in [membersRoot] and [membersCount]. *)
Definition withMembers (d : KeyBlock) (root : string) (count : Z) : KeyBlock :=
  {| kb_version := kb_version d; kb_currency := kb_currency d;
     kb_number := kb_number d; kb_previousHash := kb_previousHash d;
     kb_previousIssuer := kb_previousIssuer d; kb_timestamp := kb_timestamp d;
     kb_nonce := kb_nonce d; kb_issuer := kb_issuer d;
     kb_membersRoot := root; kb_membersCount := count;
     kb_membersChanges := kb_membersChanges d; kb_keysChanges := kb_keysChanges d;
     kb_signature := kb_signature d; kb_hash := kb_hash d |}.

Definition withMembersSub (kb : Submission) (root : string) (count : Z) : Submission :=
  {| sub_doc := withMembers (sub_doc kb) root count;
     sub_pubkey_fingerprint := sub_pubkey_fingerprint kb |}.

(** ** A Web-of-Trust graph *)

Module WoT.

(** Modelled from the spec: the keys that certify [t], through the stored
    links that are not obsolete and through the links of the block under
    test (section 4.2). *)
Definition certifiersIn (links : list Link) (extraLinks : NewLinks) (t : string)
    : list string :=
  (map lnk_source
       (List.filter (fun l => String.eqb (lnk_target l) t && negb (lnk_obsolete l)) links)
   ++ match JS.get t extraLinks with
      | Some (Some sources) => sources
      | _ => []
      end)%list.

(** Modelled from the spec: the keys from which one of [frontier] is
    reached within [hops] certification steps, breadth first. *)
Fixpoint reaching (hops : nat) (links : list Link) (extraLinks : NewLinks)
    (frontier : list string) : list string :=
  match hops with
  | O => frontier
  | S n =>
      (frontier
       ++ reaching n links extraLinks (flat_map (certifiersIn links extraLinks) frontier))%list
  end.

(** Modelled from the spec: [pathWithin(src, dst, maxHops, extraLinks)]. *)
Definition pathWithin (links : list Link) (extraLinks : NewLinks) (src dst : string)
    (maxHops : nat) : bool :=
  existsb (String.eqb src) (reaching maxHops links extraLinks [dst]).

(** Modelled from the spec: [membersNotReachedWithin], the candidates
    with no path to [fpr] within [maxHops] steps. *)
Definition membersNotReachedWithin (links : list Link) (fpr : string)
    (candidates : list string) (maxHops : nat) (extraLinks : NewLinks) : list string :=
  List.filter (fun c => negb (pathWithin links extraLinks c fpr maxHops)) candidates.

(** Modelled from the spec: the [Link] model over the bounded search; a
    link is obsolete once its timestamp is below the cutoff
    (section 4.6). *)
Definition graph : LinkModel :=
  {| Link_isOver3StepsOfAMember links fpr members :=
       membersNotReachedWithin links fpr members 3 [];
     Link_isStillOver3Steps links fpr candidates newLinks :=
       membersNotReachedWithin links fpr candidates 3 newLinks;
     Link_expired cutoff l := lnk_timestamp l <? cutoff |}.

End WoT.

(** ** A small network to run the service on *)

Module Scenario.

(** Stand-ins for the libraries: key material is its own fingerprint, a
    certification packet is the key id of its issuer, every signature
    verifies, hashing and line-ending conversion leave a text as it is. *)
Definition udid2 : string := "udid2;c;DOE;JOHN;1980-01-01;e+00.00+000.00;0;".

Definition wrap (s : string) : WrappedKey :=
  {| wk_fingerprint := s; wk_userID := udid2; wk_hasValidUdid2 := true;
     wk_armored := s; wk_newcomerPackets := s; wk_encodedPacketList := s |}.

Definition libs : OpenPGP :=
  {| fromEncodedPackets s := Ok (wrap s);
     fromArmored s := Ok (wrap s);
     toPacketlist s :=
       Ok (if truthy s then [{| pkt_issuerKeyId := s; pkt_body := s |}] else []);
     encodePacketList l := Ok "";
     hasOnlySubkeyMaterial s := true;
     hasOnlyCertificationMaterial s := true;
     fromInline m sig :=
       Ok {| ip_membership := m; ip_userid := udid2; ip_date := 0; ip_signature := sig |};
     membershipRaw ms cur uid := uid;
     verifyDetached key data sig := Ok true;
     certifVerify certif certifier certified := true;
     parsePubkey armored :=
       Ok {| pk_fingerprint := armored; pk_raw := armored; pk_keychain := false |};
     unix2dos s := s;
     sha1 s := s;
     serialize b := if kb_nonce b =? 3 then "00AB" else "FF" |}.

Definition pks : PublicKeyService :=
  {| submitPubkey pubkeys obj := Ok pubkeys;
     PKS_updateAvailableKeyMaterial pubkeys fpr := Ok pubkeys |}.

Definition fprA : string := "AAAAAAAAAAAAAAAAAAAAAAAAAAAAAAAAAAAAAAAA".
Definition fprB : string := "BBBBBBBBBBBBBBBBBBBBBBBBBBBBBBBBBBBBBBBB".
Definition kidA : string := JS.substringFrom 24 fprA.
Definition kidB : string := JS.substringFrom 24 fprB.

Definition conf1 : Conf :=
  {| sigQty := 1; sigValidity := 2629800; powZeroMin := 1; powPeriod := 1;
     powPeriodC := true; tsInterval := 30; currency := "beta_brousouf";
     participate := false |}.

(** The same node asking for two certifications per member. *)
Definition conf2 : Conf :=
  {| sigQty := 2; sigValidity := 2629800; powZeroMin := 1; powPeriod := 1;
     powPeriodC := true; tsInterval := 30; currency := "beta_brousouf";
     participate := false |}.

Definition pubkeyOf (fpr : string) : PublicKey :=
  {| pk_fingerprint := fpr; pk_raw := fpr; pk_keychain := false |}.

(** A node that knows the public keys of A and B and nothing else. *)
Definition fresh : State :=
  {| st_blocks := []; st_keys := ∅; st_links := []; st_trusted := [];
     st_memberships := []; st_pubkeys := [pubkeyOf fprA; pubkeyOf fprB] |}.

Definition newcomer (fpr certifierKeyId : string) : Keychange :=
  {| kc_type := "N"; kc_fingerprint := fpr; kc_keypackets := fpr;
     kc_certpackets := certifierKeyId;
     kc_membership := Some {| im_membership := "IN"; im_signature := "SIG" |};
     kc_certifiers := None |}.

(** A root block: A and B join, each certified by the other. *)
Definition genesis : Submission :=
  {| sub_doc :=
       {| kb_version := 1; kb_currency := "beta_brousouf"; kb_number := 0;
          kb_previousHash := ""; kb_previousIssuer := "";
          kb_timestamp := 1400000000; kb_nonce := 0; kb_issuer := "";
          kb_membersRoot := "F5ACFD67FC908D28C0CFDAD886249AC260515C90";
          kb_membersCount := 2;
          kb_membersChanges := ["+" +:+ fprA; "+" +:+ fprB];
          kb_keysChanges := [newcomer fprA kidB; newcomer fprB kidA];
          kb_signature := "SIG";
          kb_hash := "0A9575937587C4E68F89AA4F0CCD3E6E41A07D8C" |};
     sub_pubkey_fingerprint := fprA |}.

(** The root block as the checks of the node leave it, each keychange
    with its certifier. *)
Definition genesisChecked : KeyBlock :=
  @certified libs conf1 fresh (receivedBlock genesis).

(** The root block again, announcing no members root and 99 members. *)
Definition wrongMembers : Submission := withMembersSub genesis "" 99.

(** The node once the root block is applied, asking for one
    certification per member, and asking for two. *)
Definition applied1 : State :=
  snd (@submitKeyBlock libs WoT.graph pks conf1 true NotComputing 1400000000 genesis fresh).

Definition applied2 : State :=
  snd (@submitKeyBlock libs WoT.graph pks conf2 true NotComputing 1400000000 genesis fresh).

(** A block numbered 5 for a chain whose tip is the root block. *)
Definition tooEarly : Submission :=
  {| sub_doc :=
       {| kb_version := 1; kb_currency := "beta_brousouf"; kb_number := 5;
          kb_previousHash := "0A9575937587C4E68F89AA4F0CCD3E6E41A07D8C";
          kb_previousIssuer := fprA;
          kb_timestamp := 1400000060; kb_nonce := 0; kb_issuer := "";
          kb_membersRoot := "F5ACFD67FC908D28C0CFDAD886249AC260515C90";
          kb_membersCount := 2; kb_membersChanges := []; kb_keysChanges := [];
          kb_signature := "SIG";
          kb_hash := "0B1F4B34FF8E9F8F2B4A2B2F06A1B5D9F0A7E1C3" |};
     sub_pubkey_fingerprint := fprB |}.

(** A block 1 by B with the given members' changes and no keychange. *)
Definition block1 (membersChanges : list string) : Submission :=
  {| sub_doc :=
       {| kb_version := 1; kb_currency := "beta_brousouf"; kb_number := 1;
          kb_previousHash := "0A9575937587C4E68F89AA4F0CCD3E6E41A07D8C";
          kb_previousIssuer := fprA;
          kb_timestamp := 1400000060; kb_nonce := 0; kb_issuer := "";
          kb_membersRoot := "F5ACFD67FC908D28C0CFDAD886249AC260515C90";
          kb_membersCount := 2; kb_membersChanges := membersChanges;
          kb_keysChanges := [];
          kb_signature := "SIG";
          kb_hash := "0B1F4B34FF8E9F8F2B4A2B2F06A1B5D9F0A7E1C3" |};
     sub_pubkey_fingerprint := fprB |}.

(** A membership request of A. *)
Definition joinA : Membership :=
  {| ms_issuer := fprA; ms_userid := udid2; ms_membership := "IN";
     ms_date := 1400000000; ms_hash := "6E41A07D8C0A9575937587C4E68F89AA4F0CCD3E";
     ms_signature := "SIG"; ms_eligible := true |}.

(** A block 1 by B that lists A as joining and carries no keychange. *)
Definition unbacked : Submission := block1 ["+" +:+ fprA].

(** Four readings of a clock that stands still. *)
Definition stillClock : list Tick :=
  repeat {| tick_now := 1400000000; tick_newKeyblock := false |} 4.

(** A chain on which A issued the root block and B every block since;
    the tip counts 100 members.  The difficulty period is 29 percent of
    the Web of Trust. *)
Definition confPercent : Conf :=
  {| sigQty := 1; sigValidity := 2629800; powZeroMin := 1; powPeriod := 29;
     powPeriodC := false; tsInterval := 30; currency := "beta_brousouf";
     participate := false |}.

Definition chainBlock (n : nat) : KeyBlock :=
  {| kb_version := 1; kb_currency := "beta_brousouf"; kb_number := Z.of_nat n;
     kb_previousHash := "0C"; kb_previousIssuer := if Nat.eqb n 1 then fprA else fprB;
     kb_timestamp := 1400000000 + 60 * Z.of_nat n; kb_nonce := 0;
     kb_issuer := if Nat.eqb n 0 then fprA else fprB;
     kb_membersRoot := "F5ACFD67FC908D28C0CFDAD886249AC260515C90";
     kb_membersCount := 100; kb_membersChanges := []; kb_keysChanges := [];
     kb_signature := "SIG"; kb_hash := "0C" |}.

Definition longChain : State :=
  {| st_blocks := map chainBlock (rev (seq 0 28)); st_keys := ∅; st_links := [];
     st_trusted := []; st_memberships := []; st_pubkeys := [] |}.

(** Block 28, by A, with one leading zero. *)
Definition block28 : KeyBlock :=
  {| kb_version := 1; kb_currency := "beta_brousouf"; kb_number := 28;
     kb_previousHash := "0C"; kb_previousIssuer := fprB;
     kb_timestamp := 1400001680; kb_nonce := 0; kb_issuer := fprA;
     kb_membersRoot := "F5ACFD67FC908D28C0CFDAD886249AC260515C90";
     kb_membersCount := 100; kb_membersChanges := []; kb_keysChanges := [];
     kb_signature := "SIG"; kb_hash := "0D" |}.

End Scenario.

(** ** Building the next block *)

(** [merkle], [keyhelper.toEncoded] and [base64.encode(list.write())],
    which the builders call on what they put into a block. *)
Class Encoding : Type := {
  (** [merkle(leaves, 'sha1').process().root()] *)
  merkleRoot : list string -> string;
  (** [keyhelper.toEncoded(packets)] *)
  toEncoded : list Packet -> string;
  (** [base64.encode(packets.write())] *)
  encodePackets : list Packet -> string
}.

(** An entry of [joinData]: [{ pubkey, ms, key }], through the parts the
    builders read. *)
Record Join : Type := {
  join_fingerprint : string;          (** [join.pubkey.fingerprint] *)
  join_founderPackets : list Packet;  (** [join.key.getFounderPackets()] *)
  join_certifs : list Packet;         (** [join.key.getOtherCertifications()] *)
  join_inlineValue : string;          (** [join.ms.inlineValue()] *)
  join_inlineSignature : string       (** [join.ms.inlineSignature()] *)
}.

(** [arr.sort()] on strings: the ascending arrangement by code units. *)
Fixpoint insertSorted (x : string) (l : list string) : list string :=
  match l with
  | [] => [x]
  | y :: r => if String.leb x y then x :: l else y :: insertSorted x r
  end.

Definition jsSort (l : list string) : list string := fold_right insertSorted [] l.

(** [_(arr).uniq()]: the first occurrence of each string. *)
Fixpoint uniqFrom (seen : list string) (l : list string) : list string :=
  match l with
  | [] => []
  | x :: r => if JS.includes x seen then uniqFrom seen r else x :: uniqFrom (x :: seen) r
  end.

Definition uniq (l : list string) : list string := uniqFrom [] l.

(** [matchFingerprint]: the loop goes on while [matched] is falsy. *)
Fixpoint matchFingerprint (keyID : string) (fingerprints : list string) : string :=
  match fingerprints with
  | [] => ""
  | fpr :: r =>
      if JS.endsWith keyID fpr && truthy fpr then fpr else matchFingerprint keyID r
  end.

(** [newLinks[signedFPR] = (newLinks[signedFPR] || []); newLinks[signedFPR].push(newcomer)] *)
Definition pushLink (signedFPR newcomer : string) (newLinks : JS.obj (list string))
    : JS.obj (list string) :=
  JS.set signedFPR (default [] (JS.get signedFPR newLinks) ++ [newcomer])%list newLinks.

(** The links one newcomer brings: from the Web of Trust to the newcomer
    through the certifications of its key, from the newcomer to the Web
    of Trust through the certifications it issued in [updates]. *)
Definition linksOfNewcomer (joinData : JS.obj Join) (updates : JS.obj (list Packet))
    (members : list string) (newLinks : JS.obj (list string)) (newcomer : string)
    : result (JS.obj (list string)) :=
  match JS.get newcomer joinData with
  | None => Crash   (* [joinData[newcomer].key] on [undefined] *)
  | Some join =>
      let fromWoT :=
        List.filter truthy
          (map (fun certif => matchFingerprint (pkt_issuerKeyId certif) members)
               (join_certifs join)) in
      let newcomerKeyID := JS.substringFrom 24 newcomer in
      Ok (fold_left
            (fun (links : JS.obj (list string)) signedFPR =>
               fold_left
                 (fun (links' : JS.obj (list string)) certif =>
                    if String.eqb (pkt_issuerKeyId certif) newcomerKeyID
                    then pushLink signedFPR newcomer links' else links')
                 (default [] (JS.get signedFPR updates)) links)
            (JS.keys updates) (JS.set newcomer fromWoT newLinks))
  end.

Definition computeNewLinks (theNewcomers : list string) (joinData : JS.obj Join)
    (updates : JS.obj (list Packet)) (members : list string)
    : result (JS.obj (list string)) :=
  foldSeries (linksOfNewcomer joinData updates members) [] theNewcomers.

(** [iteratedChecking]: a newcomer is kept when the check passes on the
    newcomers kept so far followed by it; an error of the check drops the
    newcomer, and the function itself reports no error. *)
Fixpoint iteratedCheckingFrom (checkWoTForNewcomers : list string -> result unit)
    (passingNewcomers newcomers : list string) : result (list string) :=
  match newcomers with
  | [] => Ok passingNewcomers
  | newcomer :: r =>
      match checkWoTForNewcomers (passingNewcomers ++ [newcomer])%list with
      | Ok _ =>
          iteratedCheckingFrom checkWoTForNewcomers (passingNewcomers ++ [newcomer])%list r
      | Err _ => iteratedCheckingFrom checkWoTForNewcomers passingNewcomers r
      | Crash => Crash
      | Hang => Hang
      end
  end.

Definition iteratedChecking (newcomers : list string)
    (checkWoTForNewcomers : list string -> result unit) : result (list string) :=
  iteratedCheckingFrom checkWoTForNewcomers [] newcomers.

Section BlockBuilder.

Context {enc : Encoding}.
Variable conf : Conf.

(** [createNextEmptyBlock].  [new KeyBlock()] leaves timestamp, nonce,
    issuer, signature and hash unset; the model writes 0 and the empty
    string there. *)
Definition createNextEmptyBlock (current : KeyBlock) (members leaving : list string)
    : KeyBlock :=
  let stayers := jsSort members in
  let leavers := jsSort leaving in
  {| kb_version := 1; kb_currency := kb_currency current;
     kb_number := kb_number current + 1;
     kb_previousHash := kb_hash current; kb_previousIssuer := kb_issuer current;
     kb_timestamp := 0; kb_nonce := 0; kb_issuer := "";
     kb_membersRoot := merkleRoot stayers;
     kb_membersCount := Z.of_nat (List.length stayers);
     kb_membersChanges := map (fun fpr => "-" +:+ fpr) leavers;
     kb_keysChanges := [];
     kb_signature := ""; kb_hash := "" |}.

(** [generateEmptyNext].  [KeyBlock.current] reports the absence of a
    block as an error, which the function turns into its own message. *)
Definition generateEmptyNext (st : State) : result KeyBlock :=
  match KeyBlock_current st with
  | None => Err "No root block: cannot generate an empty block"
  | Some current =>
      let memberKeys := Key_getMembers st in
      let staying := map fst (List.filter (fun mKey => negb (key_kick (snd mKey))) memberKeys) in
      let kicked := map fst (List.filter (fun mKey => key_kick (snd mKey)) memberKeys) in
      Ok (createNextEmptyBlock current staying kicked)
  end.

(** The NEWCOMER keychange [createNewcomerBlock] makes of a join. *)
Definition newcomerKeychange (join : Join) : Keychange :=
  {| kc_type := "N"; kc_fingerprint := join_fingerprint join;
     kc_keypackets := toEncoded (join_founderPackets join);
     kc_certpackets := toEncoded (join_certifs join);
     kc_membership := Some {| im_membership := join_inlineValue join;
                              im_signature := join_inlineSignature join |};
     kc_certifiers := None |}.

(** [xs[fpr] && xs[fpr].length > 0] *)
Definition hasPackets (fpr : string) (xs : JS.obj (list Packet)) : bool :=
  match JS.get fpr xs with
  | Some l => 0 <? Z.of_nat (List.length l)
  | None => false
  end.

(** [xs[fpr] ? base64.encode(xs[fpr].write()) : ''] *)
Definition encodedOr (fpr : string) (xs : JS.obj (list Packet)) : string :=
  match JS.get fpr xs with
  | Some l => encodePackets l
  | None => ""
  end.

(** The UPDATE keychange of a key.  Its [membership] is the object [{}],
    which is truthy and has no field; the model's record has its two
    fields, which no code reads on an UPDATE keychange. *)
Definition updateKeychange (updates subupdates : JS.obj (list Packet)) (fpr : string)
    : Keychange :=
  {| kc_type := "U"; kc_fingerprint := fpr;
     kc_keypackets := encodedOr fpr subupdates;
     kc_certpackets := encodedOr fpr updates;
     kc_membership := Some {| im_membership := ""; im_signature := "" |};
     kc_certifiers := None |}.

(** [createNewcomerBlock]; [members] is [null] when the block brings no
    newcomer.  Unset fields as in [createNextEmptyBlock]. *)
Definition createNewcomerBlock (current : option KeyBlock) (members : option (list string))
    (joinData : JS.obj Join) (updates subupdates : JS.obj (list Packet))
    : result KeyBlock :=
  membersPart <-
    match members, current with
    | Some ms, _ =>
        let sorted := jsSort ms in
        Ok (merkleRoot sorted, Z.of_nat (List.length sorted),
            map (fun fpr => "+" +:+ fpr) (JS.keys joinData))
    | None, Some cur => Ok (kb_membersRoot cur, kb_membersCount cur, [])
    | None, None => Err "Wrong new block: cannot make a root block without members"
    end ;;
  let allUpdates := uniq (JS.keys updates ++ JS.keys subupdates)%list in
  Ok {| kb_version := 1;
        kb_currency := match current with Some cur => kb_currency cur | None => currency conf end;
        kb_number := match current with Some cur => kb_number cur + 1 | None => 0 end;
        kb_previousHash := match current with Some cur => kb_hash cur | None => "" end;
        kb_previousIssuer := match current with Some cur => kb_issuer cur | None => "" end;
        kb_timestamp := 0; kb_nonce := 0; kb_issuer := "";
        kb_membersRoot := fst (fst membersPart);
        kb_membersCount := snd (fst membersPart);
        kb_membersChanges := snd membersPart;
        kb_keysChanges :=
          (map newcomerKeychange (JS.values joinData)
           ++ map (updateKeychange updates subupdates)
                  (List.filter (fun fpr => hasPackets fpr updates || hasPackets fpr subupdates)
                               allUpdates))%list;
        kb_signature := ""; kb_hash := "" |}.

End BlockBuilder.

(** ** Shapes of the stores *)

(** A chain: numbers go up by one from 0 at the bottom, and each block
    names the hash and the issuer of the block below it. *)
Fixpoint linkedChain (blocks : list KeyBlock) : Prop :=
  match blocks with
  | [] => True
  | b :: rest =>
      match rest with
      | [] => kb_number b = 0
      | t :: _ =>
          kb_number b = kb_number t + 1
          /\ kb_previousHash b = kb_hash t
          /\ kb_previousIssuer b = kb_issuer t
      end
      /\ linkedChain rest
  end.

(** The same certification, whatever its [obsolete] mark. *)
Definition sameLink (l l' : Link) : Prop :=
  lnk_source l = lnk_source l' /\ lnk_target l = lnk_target l'
  /\ lnk_timestamp l = lnk_timestamp l'.

(** The links [saveLinks] stores for a block, in the order of its
    loops, and those of them that go to [target]. *)
Definition broughtLinks (block : KeyBlock) (newLinks : NewLinks) : list Link :=
  flat_map
    (fun entry : string * option (list string) =>
       match snd entry with
       | Some sources =>
           map (fun source =>
                  {| lnk_source := source; lnk_target := fst entry;
                     lnk_timestamp := kb_timestamp block; lnk_obsolete := false |})
               sources
       | None => []
       end)
    newLinks.

Definition broughtTo (block : KeyBlock) (newLinks : NewLinks) (target : string) : list Link :=
  List.filter (fun l => String.eqb (lnk_target l) target) (broughtLinks block newLinks).

(** The link store is as it was. *)
Definition sameLinks (st st' : State) : Prop :=
  st_links st' = st_links st.

(** Every link of [st] is still a link of [st'], and stays obsolete if it
    was. *)
Definition linksKept (st st' : State) : Prop :=
  forall l, In l (st_links st) ->
    exists l', In l' (st_links st') /\ sameLink l l'
               /\ (lnk_obsolete l = true -> lnk_obsolete l' = true).

(** A step after which the stores are related by [R] to what they were,
    whatever the step returned. *)
Definition preserves {A} (R : State -> State -> Prop) (m : Step A) : Prop :=
  forall st r st', m st = (r, st') -> R st st'.

(** The member flag of every key is as it was. *)
Definition sameMembers (st st' : State) : Prop :=
  forall fpr, Key_isMember st' fpr = Key_isMember st fpr.

(** The membership pool is as it was. *)
Definition samePool (st st' : State) : Prop :=
  st_memberships st' = st_memberships st.

(** What [updateMembers] writes for one entry of [membersChanges]. *)
Definition applyChange (st : State) (mc : string) : State :=
  let fpr := JS.substringFrom 1 mc in
  Key_unsetKicked (if JS.startsWithPlus mc then Key_addMember st fpr
                   else Key_removeMember st fpr) fpr.

(** What [computeObsoleteLinks] writes for one member; [fprs] are the
    members it loops over. *)
Definition flagMember `{LinkModel} (conf : Conf) (fprs : list string) (st : State)
    (fpr : string) : State :=
  Key_setKicked st fpr (Link_isOver3StepsOfAMember (st_links st) fpr fprs)
    match checkHaveEnoughLinks conf st fpr [] with
    | Err _ => true
    | _ => false
    end.

(** The keys and the links are as they were. *)
Definition sameKeysAndLinks (st st' : State) : Prop :=
  st_keys st' = st_keys st /\ st_links st' = st_links st.

(** The targets are fingerprints of keychanges and every source
    satisfies [P]. *)
Definition sourcesAmong (P : string -> Prop) (kcs : list Keychange) (links : NewLinks) : Prop :=
  forall target sources, In (target, Some sources) links ->
    (exists kc, In kc kcs /\ kc_fingerprint kc = target)
    /\ forall source, In source sources -> P source.

(** The member flag of a key once the entries of [membersChanges] are
    applied in their order: the last entry that names the key decides. *)
Definition memberAfter (membersChanges : list string) (fpr : string) (before : bool) : bool :=
  fold_left
    (fun (member : bool) mc =>
       if String.eqb (JS.substringFrom 1 mc) fpr then JS.startsWithPlus mc else member)
    membersChanges before.

(** The calls of [done] that hand over a block. *)
Definition isProved (d : ProveDone) : bool :=
  match d with
  | Proved _ => true
  | PowCancelled _ => false
  end.

(** The same clock reading with no received block waiting. *)
Definition quiet (t : Tick) : Tick :=
  {| tick_now := tick_now t; tick_newKeyblock := false |}.

(** The requests [submitMembership] lets through: the first entry of
    the lookup by hash and issuer is not dated later, and the request is
    an IN of a non-member with an eligible public key, or anything but an
    IN of a member. *)
Definition membershipLetThrough `{OpenPGP} (st : State) (entry : Membership) : Prop :=
  match Membership_getForHashAndIssuer st (ms_hash entry) (ms_issuer entry) with
  | e0 :: _ => ms_date e0 <= ms_date entry
  | [] => True
  end
  /\ ((Key_isMember st (ms_issuer entry) = false /\ ms_membership entry = "IN"
       /\ hasEligiblePubkey st (ms_issuer entry) = Ok true)
      \/ (Key_isMember st (ms_issuer entry) = true /\ ms_membership entry <> "IN")).

(** ** Runs of submissions *)

Section Runs.

Context {pgp : OpenPGP} {wot : LinkModel} {pks : PublicKeyService}.
Variable conf : Conf.
Variable checkWithLocalTimestamp : bool.

(** The stores after a sequence of calls of [submitKeyBlock] made one
    after the other, each call at its end before the next is made, each
    with the search it finds and at its own clock reading, whatever each
    call returned.  Calls that overlap are not such a sequence. *)
Fixpoint submitAll (subs : list (Computation * Z * Submission)) (st : State) : State :=
  match subs with
  | [] => st
  | (computation, now, kb) :: r =>
      submitAll r (snd (submitKeyBlock conf checkWithLocalTimestamp computation now kb st))
  end.

End Runs.

(** ** More of the small network *)

Module Cases.

Definition fprC : string := "CCCCCCCCCCCCCCCCCCCCCCCCCCCCCCCCCCCCCCCC".

(** The node of [Scenario.applied1] once it has received the public key
    of C, who is not a member. *)
Definition knowsC : State :=
  set_pubkeys Scenario.applied1
    (st_pubkeys Scenario.applied1 ++ [Scenario.pubkeyOf fprC])%list.

(** An UPDATE keychange that brings C a certification by A. *)
Definition certifiedC : Keychange :=
  {| kc_type := "U"; kc_fingerprint := fprC; kc_keypackets := "";
     kc_certpackets := Scenario.kidA; kc_membership := None; kc_certifiers := None |}.

(** Block 1 by B with that keychange and no members' change. *)
Definition updateC : Submission :=
  {| sub_doc :=
       {| kb_version := 1; kb_currency := "beta_brousouf"; kb_number := 1;
          kb_previousHash := "0A9575937587C4E68F89AA4F0CCD3E6E41A07D8C";
          kb_previousIssuer := Scenario.fprA;
          kb_timestamp := 1400000060; kb_nonce := 0; kb_issuer := "";
          kb_membersRoot := "F5ACFD67FC908D28C0CFDAD886249AC260515C90";
          kb_membersCount := 2; kb_membersChanges := [];
          kb_keysChanges := [certifiedC];
          kb_signature := "SIG";
          kb_hash := "0B1F4B34FF8E9F8F2B4A2B2F06A1B5D9F0A7E1C3" |};
     sub_pubkey_fingerprint := Scenario.fprB |}.

(** The root block of the small network, numbered -1. *)
Definition belowRoot : Submission :=
  {| sub_doc :=
       {| kb_version := 1; kb_currency := "beta_brousouf"; kb_number := -1;
          kb_previousHash := ""; kb_previousIssuer := "";
          kb_timestamp := 1400000000; kb_nonce := 0; kb_issuer := "";
          kb_membersRoot := "F5ACFD67FC908D28C0CFDAD886249AC260515C90";
          kb_membersCount := 2;
          kb_membersChanges := ["+" +:+ Scenario.fprA; "+" +:+ Scenario.fprB];
          kb_keysChanges := [Scenario.newcomer Scenario.fprA Scenario.kidB;
                             Scenario.newcomer Scenario.fprB Scenario.kidA];
          kb_signature := "SIG";
          kb_hash := "0A9575937587C4E68F89AA4F0CCD3E6E41A07D8C" |};
     sub_pubkey_fingerprint := Scenario.fprA |}.



(** The root block of the small network as a search left it, dated
    1400000000 with 7 tests made in that second, and four readings of a
    clock that was set back by ten seconds. *)
Definition searched : KeyBlock :=
  withClock (receivedBlock Scenario.genesis) 1400000000 7.

Definition setBackClock : list Tick :=
  repeat {| tick_now := 1399999990; tick_newKeyblock := false |} 4.

(** The root block of the small network with the keychanges of A and of
    B, listing A alone among the members' changes. *)
Definition leavesOutB : Submission :=
  {| sub_doc :=
       {| kb_version := 1; kb_currency := "beta_brousouf"; kb_number := 0;
          kb_previousHash := ""; kb_previousIssuer := "";
          kb_timestamp := 1400000000; kb_nonce := 0; kb_issuer := "";
          kb_membersRoot := "F5ACFD67FC908D28C0CFDAD886249AC260515C90";
          kb_membersCount := 2;
          kb_membersChanges := ["+" +:+ Scenario.fprA];
          kb_keysChanges := [Scenario.newcomer Scenario.fprA Scenario.kidB;
                             Scenario.newcomer Scenario.fprB Scenario.kidA];
          kb_signature := "SIG";
          kb_hash := "0A9575937587C4E68F89AA4F0CCD3E6E41A07D8C" |};
     sub_pubkey_fingerprint := Scenario.fprA |}.

(** An UPDATE keychange that brings A a certification by C. *)
Definition certifiedA : Keychange :=
  {| kc_type := "U"; kc_fingerprint := Scenario.fprA; kc_keypackets := "";
     kc_certpackets := JS.substringFrom 24 fprC; kc_membership := None;
     kc_certifiers := None |}.

(** Block 1 by B in which C joins, certified by A, and certifies A. *)
Definition joinsC : Submission :=
  {| sub_doc :=
       {| kb_version := 1; kb_currency := "beta_brousouf"; kb_number := 1;
          kb_previousHash := "0A9575937587C4E68F89AA4F0CCD3E6E41A07D8C";
          kb_previousIssuer := Scenario.fprA;
          kb_timestamp := 1400000060; kb_nonce := 0; kb_issuer := "";
          kb_membersRoot := "F5ACFD67FC908D28C0CFDAD886249AC260515C90";
          kb_membersCount := 3; kb_membersChanges := ["+" +:+ fprC];
          kb_keysChanges := [Scenario.newcomer fprC Scenario.kidA; certifiedA];
          kb_signature := "SIG";
          kb_hash := "0B1F4B34FF8E9F8F2B4A2B2F06A1B5D9F0A7E1C3" |};
     sub_pubkey_fingerprint := Scenario.fprB |}.

Definition joinedC : State :=
  snd (@submitKeyBlock Scenario.libs WoT.graph Scenario.pks Scenario.conf1 true NotComputing
         1400000060 joinsC knowsC).

(** Block 1 by B, listing A as joining, dated one second after the
    certifications of the root block have lost their validity. *)
Definition pastValidity : Submission :=
  {| sub_doc :=
       {| kb_version := 1; kb_currency := "beta_brousouf"; kb_number := 1;
          kb_previousHash := "0A9575937587C4E68F89AA4F0CCD3E6E41A07D8C";
          kb_previousIssuer := Scenario.fprA;
          kb_timestamp := 1402629801; kb_nonce := 0; kb_issuer := "";
          kb_membersRoot := "F5ACFD67FC908D28C0CFDAD886249AC260515C90";
          kb_membersCount := 2; kb_membersChanges := ["+" +:+ Scenario.fprA];
          kb_keysChanges := [];
          kb_signature := "SIG";
          kb_hash := "0B1F4B34FF8E9F8F2B4A2B2F06A1B5D9F0A7E1C3" |};
     sub_pubkey_fingerprint := Scenario.fprB |}.

Definition afterValidity : State :=
  snd (@submitKeyBlock Scenario.libs WoT.graph Scenario.pks Scenario.conf1 true NotComputing
         1402629801 pastValidity Scenario.applied1).


(** The node before any block, holding the membership request of A. *)
Definition requested : State :=
  snd (@submitMembership Scenario.libs Scenario.joinA Scenario.fresh).

(** Stand-ins for the encodings of the block builders: the root of a
    list of leaves is their concatenation, a packet list is written as
    the key ids of its packets. *)
Definition enc : Encoding :=
  {| merkleRoot leaves := String.concat "" leaves;
     toEncoded packets := String.concat "" (map pkt_issuerKeyId packets);
     encodePackets packets := String.concat "" (map pkt_issuerKeyId packets) |}.

End Cases.


(** ** Properties *)

(** *** The result monad and the JavaScript helpers *)

Lemma bind_Ok {A B} (r : result A) (k : A -> result B) (b : B) :
  bind r k = Ok b -> exists a, r = Ok a /\ k a = Ok b.
Proof. destruct r; simpl; intros H; try discriminate. eauto. Qed.

Lemma bind_Err_l {A B} (r : result A) (k : A -> result B) (e : string) :
  r = Err e -> bind r k = Err e.
Proof. intros ->. reflexivity. Qed.

Lemma failWhen_Ok (cond : bool) (msg : string) :
  failWhen cond msg = Ok tt <-> cond = false.
Proof. unfold failWhen. destruct cond; split; congruence. Qed.

Lemma failWhen_cases (cond : bool) (msg : string) :
  (cond = true /\ failWhen cond msg = Err msg) \/ (cond = false /\ failWhen cond msg = Ok tt).
Proof. destruct cond; simpl; auto. Qed.

Lemma forEachSeries_Ok {A} (f : A -> result unit) (l : list A) :
  forEachSeries f l = Ok tt <-> Forall (fun x => f x = Ok tt) l.
Proof.
  induction l as [|x l IH]; simpl.
  - split; auto.
  - split.
    + intros H. apply bind_Ok in H as ([] & Hx & Hl). constructor; [exact Hx | now apply IH].
    + intros H. inversion H as [|? ? Hx Hl]; subst. rewrite Hx. simpl. now apply IH.
Qed.

Lemma leadingZeros_nonneg (s : string) : 0 <= JS.leadingZeros s.
Proof.
  induction s as [|c s IH]; simpl; [lia|].
  destruct (Ascii.ascii_dec c "0"%char) as [->|Hc]; [lia|].
  destruct c as [[] [] [] [] [] [] [] []]; try lia; congruence.
Qed.

Lemma includes_In (x : string) (arr : list string) :
  JS.includes x arr = true <-> In x arr.
Proof.
  unfold JS.includes. rewrite existsb_exists. split.
  - intros (y & Hy & Heq). apply String.eqb_eq in Heq. now subst.
  - intros H. exists x. split; [exact H | apply String.eqb_refl].
Qed.

Lemma substring_all (s : string) : String.substring 0 (String.length s) s = s.
Proof. induction s as [|c s IH]; simpl; [reflexivity | now rewrite IH]. Qed.

Lemma substringFrom_1 (c : ascii) (s : string) : JS.substringFrom 1 (String c s) = s.
Proof.
  unfold JS.substringFrom. simpl. rewrite Nat.sub_0_r. apply substring_all.
Qed.

Section Properties.

Context {pgp : OpenPGP} {wot : LinkModel} {pks : PublicKeyService}.
Variable conf : Conf.
Variable checkWithLocalTimestamp : bool.
Variable computation : Computation.

Local Abbreviation submit := (submitKeyBlock conf checkWithLocalTimestamp computation).
Local Abbreviation checks := (checkKeyBlock conf checkWithLocalTimestamp).
Local Abbreviation testTime := (testTimestamp conf checkWithLocalTimestamp).

(** *** Structure of [submitKeyBlock] *)

Lemma submitKeyBlock_unfold (now : Z) (kb : Submission) (st : State) :
  submit now kb st =
  match checks st now (receivedBlock kb) with
  | Ok newLinks =>
      match computation with
      | Computing false => (Hang, st)
      | _ => saveBlockData conf (certified conf st (receivedBlock kb)) newLinks st
      end
  | Err e => (Err e, st)
  | Crash => (Crash, st)
  | Hang => (Hang, st)
  end.
Proof.
  unfold submitKeyBlock, sbind, reads.
  destruct (checks st now (receivedBlock kb)); [|reflexivity..].
  destruct computation as [|[]]; reflexivity.
Qed.

Lemma checks_Ok_inv (now : Z) (st : State) (block : KeyBlock) (newLinks : NewLinks) :
  checks st now block = Ok newLinks ->
  testChaining (KeyBlock_current st) block = Ok tt
  /\ testTime now block = Ok tt
  /\ checkProofOfWork conf st (KeyBlock_current st) block = Ok tt
  /\ checkIssuer st block = Ok tt
  /\ checkKeychanges conf st block = Ok newLinks
  /\ checkWoTStability conf st block newLinks = Ok tt
  /\ checkKicked st block newLinks = Ok tt
  /\ checkCommunityChanges block = Ok tt.
Proof.
  unfold checkKeyBlock, checkCoherence. intros H.
  apply bind_Ok in H as ([] & H1 & H).
  apply bind_Ok in H as ([] & H2 & H).
  apply bind_Ok in H as ([] & H3 & H).
  apply bind_Ok in H as ([] & H4 & H).
  apply bind_Ok in H as (nl & H5 & H).
  apply bind_Ok in H as ([] & _ & H).
  apply bind_Ok in H as ([] & H6 & H).
  apply bind_Ok in H as ([] & H7 & H).
  apply bind_Ok in H as ([] & H8 & H).
  injection H as <-. repeat split; assumption.
Qed.

Lemma logNewLinks_Ok (newLinks : NewLinks) :
  logNewLinks newLinks = Ok tt
  <-> forall target, ~ In (target, None) newLinks.
Proof.
  unfold logNewLinks.
  destruct (existsb _ newLinks) eqn:He.
  - split; [discriminate|]. intros H. exfalso.
    apply existsb_exists in He as ([target [sources|]] & Hin & Hnone); [discriminate|].
    exact (H target Hin).
  - split; [|reflexivity]. intros _ target Hin.
    assert (Ht : existsb (fun entry : string * option (list string) =>
                            match snd entry with Some _ => false | None => true end)
                         newLinks = true); [|congruence].
    apply existsb_exists. exists (target, None). split; [exact Hin | reflexivity].
Qed.

Lemma checks_Ok_logged (now : Z) (st : State) (block : KeyBlock) (newLinks : NewLinks) :
  checks st now block = Ok newLinks -> forall target, ~ In (target, None) newLinks.
Proof.
  unfold checkKeyBlock, checkCoherence. intros H.
  apply bind_Ok in H as ([] & _ & H).
  apply bind_Ok in H as ([] & _ & H).
  apply bind_Ok in H as ([] & _ & H).
  apply bind_Ok in H as ([] & _ & H).
  apply bind_Ok in H as (nl & _ & H).
  apply bind_Ok in H as ([] & Hlog & H).
  apply bind_Ok in H as ([] & _ & H).
  apply bind_Ok in H as ([] & _ & H).
  apply bind_Ok in H as ([] & _ & H).
  injection H as <-. now apply logNewLinks_Ok.
Qed.

Lemma submit_Ok_inv (now : Z) (kb : Submission) (st st' : State) (b : KeyBlock) :
  submit now kb st = (Ok b, st') ->
  exists newLinks,
    checks st now (receivedBlock kb) = Ok newLinks
    /\ saveBlockData conf (certified conf st (receivedBlock kb)) newLinks st = (Ok b, st').
Proof.
  rewrite submitKeyBlock_unfold.
  destruct (checks st now (receivedBlock kb)) as [nl|e| |]; intros H;
    try (injection H as H _; discriminate).
  exists nl. split; [reflexivity|].
  destruct computation as [|[]]; [exact H | exact H | injection H as H _; discriminate].
Qed.

(** A call whose continuation is left with a search that never calls it
    returns nothing and writes nothing. *)
Lemma submit_parked (now : Z) (kb : Submission) (st : State) (newLinks : NewLinks) :
  computation = Computing false ->
  checks st now (receivedBlock kb) = Ok newLinks ->
  submit now kb st = (Hang, st).
Proof. intros Hc Hok. rewrite submitKeyBlock_unfold, Hok, Hc. reflexivity. Qed.

Lemma submit_resumed (now : Z) (kb : Submission) (st : State) (newLinks : NewLinks) :
  computation <> Computing false ->
  checks st now (receivedBlock kb) = Ok newLinks ->
  submit now kb st = saveBlockData conf (certified conf st (receivedBlock kb)) newLinks st.
Proof.
  intros Hc Hok. rewrite submitKeyBlock_unfold, Hok.
  destruct computation as [|[]]; [reflexivity | reflexivity | contradiction].
Qed.

(** *** Chain linkage *)

Lemma testChaining_verdict (T : option KeyBlock) (B : KeyBlock) :
  testChaining T B = Ok tt
  \/ exists e, testChaining T B = Err e /\ errorKind e = Some BadChaining.
Proof.
  unfold testChaining. destruct T as [t|].
  - repeat match goal with
           | |- context [if ?c then _ else _] => destruct c
           end; eauto.
  - destruct (0 <? kb_number B); eauto.
Qed.

Lemma testChaining_linked_tip (t B : KeyBlock) :
  testChaining (Some t) B = Ok tt <-> chainLinked (Some t) B.
Proof.
  unfold testChaining, chainLinked.
  destruct (Z.leb_spec (kb_number B) (kb_number t)); [split; [discriminate | lia]|].
  destruct (Z.ltb_spec (kb_number t + 1) (kb_number B)); [split; [discriminate | lia]|].
  assert (Heq : kb_number B = kb_number t + 1) by lia.
  rewrite (proj2 (Z.eqb_eq _ _) Heq). simpl.
  destruct (String.eqb_spec (kb_previousHash B) (kb_hash t)) as [Hh|Hh]; simpl;
    [|split; [discriminate | tauto]].
  destruct (String.eqb_spec (kb_previousIssuer B) (kb_issuer t)) as [Hi|Hi]; simpl;
    [|split; [discriminate | tauto]].
  tauto.
Qed.

Lemma testChaining_linked (T : option KeyBlock) (B : KeyBlock) :
  0 <= kb_number B ->
  (testChaining T B = Ok tt <-> chainLinked T B).
Proof.
  intros Hnum. unfold testChaining, chainLinked. destruct T as [t|].
  - destruct (Z.leb_spec (kb_number B) (kb_number t)); [split; [discriminate | lia]|].
    destruct (Z.ltb_spec (kb_number t + 1) (kb_number B)); [split; [discriminate | lia]|].
    assert (Heq : kb_number B = kb_number t + 1) by lia.
    rewrite (proj2 (Z.eqb_eq _ _) Heq). simpl.
    destruct (String.eqb_spec (kb_previousHash B) (kb_hash t)) as [Hh|Hh]; simpl;
      [|split; [discriminate | tauto]].
    destruct (String.eqb_spec (kb_previousIssuer B) (kb_issuer t)) as [Hi|Hi]; simpl;
      [|split; [discriminate | tauto]].
    tauto.
  - destruct (Z.ltb_spec 0 (kb_number B)); split; try discriminate; try lia; auto.
Qed.

Lemma checks_chain_Err (now : Z) (st : State) (B : KeyBlock) (e : string) :
  testChaining (KeyBlock_current st) B = Err e -> checks st now B = Err e.
Proof. unfold checkKeyBlock. intros ->. reflexivity. Qed.

(** A block with a negative number never gets through: past the issuer
    test, [checkWoTStability] does not call back. *)
Lemma negative_number_not_validated (now : Z) (st : State) (B : KeyBlock) (nl : NewLinks) :
  kb_number B < 0 -> checks st now B <> Ok nl.
Proof.
  intros Hneg H. apply checks_Ok_inv in H as (_ & _ & _ & _ & _ & H & _).
  unfold checkWoTStability in H.
  destruct (Z.leb_spec 0 (kb_number B)); [lia | discriminate].
Qed.

(** C1: a block that fails a chain-linkage test of [submitKeyBlock] is
    rejected with the error of that test and nothing is written: with a
    tip [t], a number at most [t.number], a number above [t.number + 1],
    and at [t.number + 1] a [previousHash] other than [t.hash] or a
    [previousIssuer] other than [t.issuer]; with no tip, a number above
    0.  Every applied block is chain-linked.  The test without a tip is
    [block.number > 0], and it misses the numbers below 0: with no tip
    such a block passes the chain-linkage tests and goes on to the other
    validations, where it is never accepted.  On a node without a block,
    block -1 gets through chaining, timestamp and proof of work and is
    refused by the issuer test. *)
Theorem submitKeyBlock_chain_linkage (now : Z) (kb : Submission) (st : State) :
  let B := receivedBlock kb in
  let T := KeyBlock_current st in
  (forall e, testChaining T B = Err e -> submit now kb st = (Err e, st))
  /\ (T = None -> 0 < kb_number B ->
      submit now kb st = (Err "Requires root block first", st))
  /\ (forall t, T = Some t -> kb_number B <= kb_number t ->
      submit now kb st = (Err "Too late for this block", st))
  /\ (forall t, T = Some t -> kb_number t + 1 < kb_number B ->
      submit now kb st = (Err "Too early for this block", st))
  /\ (forall t, T = Some t -> kb_number B = kb_number t + 1 ->
      kb_previousHash B <> kb_hash t ->
      submit now kb st = (Err "PreviousHash does not target current block", st))
  /\ (forall t, T = Some t -> kb_number B = kb_number t + 1 ->
      kb_previousHash B = kb_hash t -> kb_previousIssuer B <> kb_issuer t ->
      submit now kb st = (Err "PreviousIssuer does not target current block", st))
  /\ (~ chainLinked T B -> (T = None -> 0 <= kb_number B) ->
      exists e, submit now kb st = (Err e, st) /\ errorKind e = Some BadChaining)
  /\ (forall b st', submit now kb st = (Ok b, st') -> chainLinked T B)
  /\ (T = None -> kb_number B < 0 ->
      ~ chainLinked T B
      /\ testChaining T B = Ok tt
      /\ checks st now B
         = (testTime now B ;;;
            checkProofOfWork conf st T B ;;;
            checkIssuer st B ;;;
            checkCoherence conf st B)
      /\ forall b st', submit now kb st <> (Ok b, st'))
  /\ (KeyBlock_current Scenario.fresh = None
      /\ kb_number (receivedBlock Cases.belowRoot) = -1
      /\ testChaining None (receivedBlock Cases.belowRoot) = Ok tt
      /\ @submitKeyBlock Scenario.libs WoT.graph Scenario.pks Scenario.conf1 true
           NotComputing 1400000000 Cases.belowRoot Scenario.fresh
         = (Err "Keyblock must be signed by an existing member", Scenario.fresh)
      /\ errorKind "Keyblock must be signed by an existing member" = Some BadIssuer).
Proof.
  intros B T.
  assert (Hrej : forall e, testChaining T B = Err e -> submit now kb st = (Err e, st)).
  { intros e He. rewrite submitKeyBlock_unfold.
    fold B. rewrite (checks_chain_Err now st B e He). reflexivity. }
  assert (Hnever : forall b st', submit now kb st = (Ok b, st') -> 0 <= kb_number B).
  { intros b st' Hok. apply submit_Ok_inv in Hok as (nl & Hc & _).
    destruct (Z.lt_ge_cases (kb_number B) 0) as [Hneg|Hpos]; [|exact Hpos].
    exfalso. exact (negative_number_not_validated now st B nl Hneg Hc). }
  split; [exact Hrej|].
  split.
  { intros HT Hn. apply Hrej. unfold testChaining. rewrite HT.
    destruct (Z.ltb_spec 0 (kb_number B)); [reflexivity | lia]. }
  split.
  { intros t HT Hle. apply Hrej. unfold testChaining. rewrite HT.
    destruct (Z.leb_spec (kb_number B) (kb_number t)); [reflexivity | lia]. }
  split.
  { intros t HT Hlt. apply Hrej. unfold testChaining. rewrite HT.
    destruct (Z.leb_spec (kb_number B) (kb_number t)); [lia|].
    destruct (Z.ltb_spec (kb_number t + 1) (kb_number B)); [reflexivity | lia]. }
  split.
  { intros t HT Heq Hh. apply Hrej. unfold testChaining. rewrite HT.
    destruct (Z.leb_spec (kb_number B) (kb_number t)); [lia|].
    destruct (Z.ltb_spec (kb_number t + 1) (kb_number B)); [lia|].
    rewrite (proj2 (Z.eqb_eq _ _) Heq).
    rewrite (proj2 (String.eqb_neq _ _) Hh). reflexivity. }
  split.
  { intros t HT Heq Hh Hi. apply Hrej. unfold testChaining. rewrite HT.
    destruct (Z.leb_spec (kb_number B) (kb_number t)); [lia|].
    destruct (Z.ltb_spec (kb_number t + 1) (kb_number B)); [lia|].
    rewrite (proj2 (Z.eqb_eq _ _) Heq).
    rewrite (proj2 (String.eqb_eq _ _) Hh).
    rewrite (proj2 (String.eqb_neq _ _) Hi). reflexivity. }
  split.
  { intros Hnot Hroot. destruct (testChaining_verdict T B) as [Hok | (e & He & Hk)].
    - exfalso. apply Hnot. destruct T as [t|].
      + now apply testChaining_linked_tip.
      + apply testChaining_linked; [exact (Hroot eq_refl) | exact Hok].
    - exists e. split; [now apply Hrej | exact Hk]. }
  split.
  { intros b st' Hok. pose proof (Hnever b st' Hok) as Hnum.
    apply submit_Ok_inv in Hok as (nl & Hc & _).
    apply checks_Ok_inv in Hc as (Hc & _). now apply testChaining_linked. }
  split.
  { intros HT Hneg.
    assert (Hchain : testChaining T B = Ok tt).
    { unfold testChaining. rewrite HT.
      destruct (Z.ltb_spec 0 (kb_number B)); [lia | reflexivity]. }
    split; [intros Hl; rewrite HT in Hl; unfold chainLinked in Hl; lia|].
    split; [exact Hchain|].
    split; [unfold checkKeyBlock; fold T; rewrite Hchain; reflexivity|].
    intros b st' Hok. pose proof (Hnever b st' Hok). lia. }
  split; [reflexivity|].
  split; [reflexivity|].
  split; [reflexivity|].
  split; [vm_compute; reflexivity | reflexivity].
Qed.

(** *** Rejection writes nothing *)

Lemma checkKicked_never_returns_an_error (st : State) (block : KeyBlock)
    (newLinks : NewLinks) (e : string) :
  checkKicked st block newLinks <> Err e.
Proof.
  unfold checkKicked. destruct (Key_getToBeKicked st) as [|key keys]; discriminate.
Qed.

(** C8: when a validation check returns an error (chaining, timestamp,
    proof of work, issuer, keychanges, WoT stability, members changes),
    [submitKeyBlock] returns that error and the stores are the ones it
    started from; they are also when a check throws or does not call
    back, and the stores change only through [saveBlockData], which runs
    once every check has passed.  The check of the kicked set returns no
    error at all: where it has a member to look at it throws, and the
    call ends without an answer.  On the node that asks for two
    certifications, block 1 that keeps A and B, both to be kicked, is not
    rejected with an error: the call throws, and writes nothing. *)
Theorem submitKeyBlock_rejection_writes_nothing (now : Z) (kb : Submission) (st : State) :
  let B := receivedBlock kb in
  let T := KeyBlock_current st in
  (forall e, checks st now B = Err e -> submit now kb st = (Err e, st))
  /\ (forall e, testChaining T B = Err e -> checks st now B = Err e)
  /\ (forall e, testChaining T B = Ok tt ->
      testTime now B = Err e -> checks st now B = Err e)
  /\ (forall e, testChaining T B = Ok tt -> testTime now B = Ok tt ->
      checkProofOfWork conf st T B = Err e -> checks st now B = Err e)
  /\ (forall e, testChaining T B = Ok tt -> testTime now B = Ok tt ->
      checkProofOfWork conf st T B = Ok tt ->
      checkIssuer st B = Err e -> checks st now B = Err e)
  /\ (forall e, testChaining T B = Ok tt -> testTime now B = Ok tt ->
      checkProofOfWork conf st T B = Ok tt -> checkIssuer st B = Ok tt ->
      checkKeychanges conf st B = Err e -> checks st now B = Err e)
  /\ (forall e newLinks, testChaining T B = Ok tt -> testTime now B = Ok tt ->
      checkProofOfWork conf st T B = Ok tt -> checkIssuer st B = Ok tt ->
      checkKeychanges conf st B = Ok newLinks -> logNewLinks newLinks = Ok tt ->
      checkWoTStability conf st B newLinks = Err e -> checks st now B = Err e)
  /\ (forall e newLinks, testChaining T B = Ok tt -> testTime now B = Ok tt ->
      checkProofOfWork conf st T B = Ok tt -> checkIssuer st B = Ok tt ->
      checkKeychanges conf st B = Ok newLinks -> logNewLinks newLinks = Ok tt ->
      checkWoTStability conf st B newLinks = Ok tt ->
      checkKicked st B newLinks = Ok tt ->
      checkCommunityChanges B = Err e -> checks st now B = Err e)
  /\ (forall newLinks,
      (forall e, checkKicked st B newLinks <> Err e)
      /\ (testChaining T B = Ok tt -> testTime now B = Ok tt ->
          checkProofOfWork conf st T B = Ok tt -> checkIssuer st B = Ok tt ->
          checkKeychanges conf st B = Ok newLinks -> logNewLinks newLinks = Ok tt ->
          checkWoTStability conf st B newLinks = Ok tt ->
          Key_getToBeKicked st <> [] ->
          submit now kb st = (Crash, st)))
  /\ (forall r st', submit now kb st = (r, st') ->
      st' = st
      \/ exists newLinks,
           checks st now B = Ok newLinks
           /\ computation <> Computing false
           /\ saveBlockData conf (certified conf st B) newLinks st = (r, st'))
  /\ (map fst (Key_getToBeKicked Scenario.applied2) = [Scenario.fprA; Scenario.fprB]
      /\ kb_membersChanges (receivedBlock (Scenario.block1 [])) = []
      /\ @submitKeyBlock Scenario.libs WoT.graph Scenario.pks Scenario.conf2 true
           NotComputing 1400000060 (Scenario.block1 []) Scenario.applied2
         = (Crash, Scenario.applied2)).
Proof.
  intros B T.
  split.
  { intros e He. rewrite submitKeyBlock_unfold. fold B. rewrite He. reflexivity. }
  unfold checkKeyBlock, checkCoherence. fold T.
  split; [intros e ->; reflexivity|].
  split; [intros e -> ->; reflexivity|].
  split; [intros e -> -> ->; reflexivity|].
  split; [intros e -> -> -> ->; reflexivity|].
  split; [intros e -> -> -> -> ->; reflexivity|].
  split.
  { intros e nl -> -> -> -> -> H6 H7. cbn [bind]. rewrite H6. cbn [bind].
    rewrite H7. reflexivity. }
  split.
  { intros e nl -> -> -> -> -> H6 H7 H8 H9. cbn [bind]. rewrite H6. cbn [bind].
    rewrite H7. cbn [bind]. rewrite H8. cbn [bind]. rewrite H9. reflexivity. }
  split.
  { intros nl. split; [intros e; apply checkKicked_never_returns_an_error|].
    intros H1 H2 H3 H4 H5 H6 H7 Hk. rewrite submitKeyBlock_unfold.
    unfold checkKeyBlock, checkCoherence. fold B T.
    rewrite H1. cbn [bind]. rewrite H2. cbn [bind]. rewrite H3. cbn [bind].
    rewrite H4. cbn [bind]. rewrite H5. cbn [bind]. rewrite H6. cbn [bind].
    rewrite H7. cbn [bind].
    unfold checkKicked. destruct (Key_getToBeKicked st); [contradiction | reflexivity]. }
  split.
  { intros r st' Hs. rewrite submitKeyBlock_unfold in Hs.
    unfold checkKeyBlock, checkCoherence in Hs. fold B T in Hs.
    match type of Hs with
    | match ?c with _ => _ end = _ => destruct c as [nl|e| |] eqn:Hc
    end.
    - destruct computation as [|[]] eqn:Hcomp.
      + right. exists nl. split; [reflexivity|]. split; [discriminate | exact Hs].
      + right. exists nl. split; [reflexivity|]. split; [discriminate | exact Hs].
      + left. now injection Hs.
    - left. now injection Hs.
    - left. now injection Hs.
    - left. now injection Hs. }
  split; [vm_compute; reflexivity|].
  split; [reflexivity|].
  vm_compute. reflexivity.
Qed.

(** *** Kicked members *)

(** C5: with a member to be kicked in the stores, [checkKicked] neither
    accepts nor rejects the block: the second step of its per-key
    waterfall receives the array of [Link.isStillOver3Steps] in place of
    the object of [async.parallel] and throws on [outdistanced.length].
    Without such a member it accepts.  On the small network that asks for
    two certifications, A and B are to be kicked once the root block is
    applied; the block that removes them and the block that does not both
    end in the exception. *)
Theorem checkKicked_throws_on_member_to_kick (st : State) (block : KeyBlock)
    (newLinks : NewLinks) :
  checkKicked st block newLinks
  = match Key_getToBeKicked st with
    | [] => Ok tt
    | _ :: _ => Crash
    end
  /\ map fst (Key_getToBeKicked Scenario.applied2) = [Scenario.fprA; Scenario.fprB]
  /\ @submitKeyBlock Scenario.libs WoT.graph Scenario.pks Scenario.conf2 true NotComputing 1400000060
       (Scenario.block1 ["-" +:+ Scenario.fprA; "-" +:+ Scenario.fprB]) Scenario.applied2
     = (Crash, Scenario.applied2)
  /\ @submitKeyBlock Scenario.libs WoT.graph Scenario.pks Scenario.conf2 true NotComputing 1400000060
       (Scenario.block1 []) Scenario.applied2
     = (Crash, Scenario.applied2).
Proof.
  split.
  - unfold checkKicked. destruct (Key_getToBeKicked st) as [|key keys]; reflexivity.
  - split; [vm_compute; reflexivity|].
    split; vm_compute; reflexivity.
Qed.

(** *** Members root and count *)

Lemma checks_ignore_members (now : Z) (kb : Submission) (st : State)
    (root : string) (count : Z) :
  checks st now (receivedBlock (withMembersSub kb root count))
  = checks st now (receivedBlock kb).
Proof. reflexivity. Qed.

(** C2: no validation of [submitKeyBlock] reads [membersRoot] or
    [membersCount]: the checks give the same verdict whatever the two
    fields hold, and a root block that announces an empty root and 99
    members for a Web of Trust of two is applied and becomes the tip. *)
Theorem validation_never_reads_members_root (now : Z) (kb : Submission) (st : State)
    (root : string) (count : Z) :
  checks st now (receivedBlock (withMembersSub kb root count))
  = checks st now (receivedBlock kb)
  /\ exists st',
       @submitKeyBlock Scenario.libs WoT.graph Scenario.pks Scenario.conf1 true NotComputing
         1400000000 Scenario.wrongMembers Scenario.fresh
       = (Ok (@certified Scenario.libs Scenario.conf1 Scenario.fresh
                (receivedBlock Scenario.wrongMembers)), st')
       /\ KeyBlock_current st'
          = Some (@certified Scenario.libs Scenario.conf1 Scenario.fresh
                    (receivedBlock Scenario.wrongMembers))
       /\ kb_membersRoot (receivedBlock Scenario.wrongMembers) = ""
       /\ kb_membersCount (receivedBlock Scenario.wrongMembers) = 99
       /\ List.length (Key_getMembers st') = 2%nat.
Proof.
  split; [reflexivity|].
  exists (snd (@submitKeyBlock Scenario.libs WoT.graph Scenario.pks Scenario.conf1 true NotComputing
                 1400000000 Scenario.wrongMembers Scenario.fresh)).
  split; [vm_compute; reflexivity|].
  split; [vm_compute; reflexivity|].
  split; [vm_compute; reflexivity|].
  split; vm_compute; reflexivity.
Qed.

(** *** Membership submissions *)

(** [submitMembership], step by step: the date test, then by membership
    and kind of request. *)
Lemma submitMembership_unfold (entry : Membership) (st : State) :
  submitMembership entry st =
  let isMember := Key_isMember st (ms_issuer entry) in
  let isJoin := String.eqb (ms_membership entry) "IN" in
  let saved :=
    (Ok entry, Membership_save (Membership_removeEligible st (ms_issuer entry)) entry) in
  let afterDate :=
    if negb isMember && isJoin then
      match hasEligiblePubkey st (ms_issuer entry) with
      | Ok true => saved
      | Ok false => (Err "Needs an eligible public key (with udid2)", st)
      | Err e => (Err e, st)
      | Crash => (Crash, st)
      | Hang => (Hang, st)
      end
    else if isMember && negb isJoin then saved
    else if isJoin then (Err "A member cannot join in.", st)
    else (Err "A non-member cannot leave.", st) in
  match Membership_getForHashAndIssuer st (ms_hash entry) (ms_issuer entry) with
  | e0 :: _ =>
      if ms_date entry <? ms_date e0 then (Err "Already received membership", st)
      else afterDate
  | [] => afterDate
  end.
Proof.
  unfold submitMembership, sbind, reads, writes, lift, sret. cbv zeta.
  destruct (Membership_getForHashAndIssuer st (ms_hash entry) (ms_issuer entry)) as [|e0 ?];
    [|destruct (ms_date entry <? ms_date e0); [reflexivity|]];
    destruct (Key_isMember st (ms_issuer entry)),
             (String.eqb (ms_membership entry) "IN"); simpl; try reflexivity;
    destruct (hasEligiblePubkey st (ms_issuer entry)) as [[]|?| |]; reflexivity.
Qed.

Lemma uncaught_Ok {A} (r : result A) (a : A) : uncaught r = Ok a -> r = Ok a.
Proof. destruct r; simpl; congruence. Qed.



(** *** Proof-of-work search *)

Lemma matchZeros_Int (z : Z) (tail s : string) :
  JS.matchZeros (JS.Int z) tail s = true -> z <= JS.leadingZeros s.
Proof.
  unfold JS.matchZeros. destruct (Z.leb_spec 0 z) as [Hz|Hz].
  - intros H. now apply Z.leb_le.
  - intros _. pose proof (leadingZeros_nonneg s). lia.
Qed.

Lemma whilst_eq (nbZeros : JS.num) (sigFunc : string -> string) (ticks : list Tick)
    (s : Search) :
  whilst nbZeros sigFunc ticks s =
  if JS.matchZeros nbZeros "}" (s_pow s)
  then [Proved (withSignature (s_block s) (s_sig s))]
  else
    match ticks with
    | [] => []
    | t :: r =>
        ((if cancels t (s_testsCount (iteration sigFunc t s))
          then [PowCancelled "New block received"] else [])
         ++ whilst nbZeros sigFunc r (iteration sigFunc t s))%list
    end.
Proof. destruct ticks; reflexivity. Qed.

Lemma whilst_proved (z : Z) (sigFunc : string -> string) (ticks : list Tick) :
  forall s : Search,
    (JS.matchZeros (JS.Int z) "}" (s_pow s) = true ->
     z <= JS.leadingZeros (sha1 (getRaw (s_block s) +:+ s_sig s))) ->
    forall b, In (Proved b) (whilst (JS.Int z) sigFunc ticks s) ->
              z <= JS.leadingZeros (sha1 (getRaw b +:+ kb_signature b)).
Proof.
  induction ticks as [|t ticks IH]; intros s Hinv b Hin; rewrite whilst_eq in Hin;
    destruct (JS.matchZeros (JS.Int z) "}" (s_pow s)) eqn:Hm.
  - destruct Hin as [Hb|[]]. injection Hb as <-. now apply Hinv.
  - destruct Hin.
  - destruct Hin as [Hb|[]]. injection Hb as <-. now apply Hinv.
  - apply in_app_or in Hin as [Hin|Hin].
    + destruct (cancels t (s_testsCount (iteration sigFunc t s)));
        [destruct Hin as [Hin|[]]; discriminate | destruct Hin].
    + apply (IH (iteration sigFunc t s)); [|exact Hin].
      intros H. apply matchZeros_Int in H. exact H.
Qed.

Lemma filter_isProved_report (c : bool) :
  List.filter isProved (if c then [PowCancelled "New block received"] else []) = [].
Proof. now destruct c. Qed.

(** The block the search hands over depends on the block, the hash and
    the signature it holds, not on the count of its tests. *)
Lemma whilst_block_only (nbZeros : JS.num) (sigFunc : string -> string) (ticks : list Tick) :
  forall s s' : Search,
    s_block s = s_block s' -> s_pow s = s_pow s' -> s_sig s = s_sig s' ->
    List.filter isProved (whilst nbZeros sigFunc ticks s)
    = List.filter isProved (whilst nbZeros sigFunc ticks s').
Proof.
  induction ticks as [|t ticks IH]; intros s s' Hb Hp Hs;
    rewrite (whilst_eq nbZeros sigFunc _ s), (whilst_eq nbZeros sigFunc _ s');
    rewrite Hb, Hp, Hs; destruct (JS.matchZeros nbZeros "}" (s_pow s')); try reflexivity.
  rewrite !List.filter_app, !filter_isProved_report. cbn [app].
  apply IH; unfold iteration; cbn [s_block s_pow s_sig]; now rewrite Hb.
Qed.

(** C9: every block [prove] hands to [done] carries a signature for which
    the hash of [getRaw(block)] followed by the signature has at least
    [nbZeros] leading zeros.  With a level above zero, the first
    iteration sets the timestamp of the block to the clock reading, and
    the nonce to 0 when the reading differs from the timestamp the block
    had, be it later or earlier, and to the nonce plus one when it is the
    same; the block so dated is handed over, with its signature, when
    its hash has the zeros, and otherwise the search goes on from it as
    a search started on it would.  On the small network, where a hash
    has two zeros when the nonce is 3, the search on the root block with
    a clock that stands still at the date of the block hands the block
    over with that date and the nonce 3. *)
Theorem prove_returns_proof_of_work (block : KeyBlock) (sigFunc : string -> string)
    (z : Z) :
  (forall ticks b, In (Proved b) (prove block sigFunc (JS.Int z) ticks) ->
                   z <= JS.leadingZeros (sha1 (getRaw b +:+ kb_signature b)))
  /\ (0 < z -> forall (t : Tick) (ticks : list Tick),
        let dated :=
          if tick_now t =? kb_timestamp block
          then withClock block (kb_timestamp block) (kb_nonce block + 1)
          else withClock block (tick_now t) 0 in
        let sig := unix2dos (sigFunc (getRaw dated)) in
        List.filter isProved (prove block sigFunc (JS.Int z) (t :: ticks))
        = if z <=? JS.leadingZeros (sha1 (getRaw dated +:+ sig))
          then [Proved (withSignature dated sig)]
          else List.filter isProved (prove dated sigFunc (JS.Int z) ticks))
  /\ (0 < z -> prove block sigFunc (JS.Int z) [] = [])
  /\ (exists b,
        @prove Scenario.libs (receivedBlock Scenario.genesis) (fun raw => "SIG") (JS.Int 2)
          Scenario.stillClock = [Proved b]
        /\ kb_timestamp b = kb_timestamp (receivedBlock Scenario.genesis)
        /\ kb_nonce (receivedBlock Scenario.genesis) = 0
        /\ kb_nonce b = 3).
Proof.
  assert (Hstart : 0 < z -> forall b : KeyBlock,
            JS.matchZeros (JS.Int z) "}"
              (s_pow {| s_block := b; s_pow := ""; s_sig := ""; s_testsCount := 0 |})
            = false).
  { intros Hz b. cbn [s_pow]. unfold JS.matchZeros.
    destruct (Z.leb_spec 0 z); [|lia].
    change (JS.leadingZeros "") with 0. apply Z.leb_gt. lia. }
  split; [|split; [|split]].
  - intros ticks b Hin. unfold prove in Hin.
    eapply whilst_proved; [|exact Hin].
    cbn [s_pow s_block s_sig]. intros H. apply matchZeros_Int in H.
    change (JS.leadingZeros "") with 0 in H.
    pose proof (leadingZeros_nonneg (sha1 (getRaw block +:+ ""))). lia.
  - intros Hz t ticks dated sig. unfold prove.
    rewrite whilst_eq, (Hstart Hz block). cbv iota.
    rewrite List.filter_app, filter_isProved_report. cbn [app].
    set (s1 := iteration sigFunc t _).
    assert (Hb : s_block s1 = dated) by reflexivity.
    assert (Hs : s_sig s1 = sig) by reflexivity.
    assert (Hp : s_pow s1 = sha1 (getRaw dated +:+ sig)) by reflexivity.
    rewrite (whilst_eq _ _ ticks s1), Hb, Hs, Hp.
    assert (Hm : JS.matchZeros (JS.Int z) "}" (sha1 (getRaw dated +:+ sig))
                 = (z <=? JS.leadingZeros (sha1 (getRaw dated +:+ sig)))).
    { unfold JS.matchZeros. destruct (Z.leb_spec 0 z); [reflexivity | lia]. }
    rewrite Hm.
    destruct (z <=? JS.leadingZeros (sha1 (getRaw dated +:+ sig))) eqn:Hz'; [reflexivity|].
    rewrite (whilst_eq _ _ ticks {| s_block := dated; s_pow := ""; s_sig := "";
                                    s_testsCount := 0 |}), (Hstart Hz dated).
    destruct ticks as [|t' ticks]; [reflexivity|].
    rewrite !List.filter_app, !filter_isProved_report. cbn [app].
    apply whilst_block_only; unfold iteration; cbn [s_block s_pow s_sig]; now rewrite Hb.
  - intros Hz. unfold prove. rewrite whilst_eq, (Hstart Hz block). reflexivity.
  - eexists. split; [vm_compute; reflexivity|]. split; [reflexivity|]. split; reflexivity.
Qed.

(** *** Proof-of-work level *)

(** With a period that is a non-zero integer, the level of an issuer who
    has a previous block is the maximum of the specification. *)
Lemma getTrialLevel_integer_period (st : State) (issuer : string) (number size : Z)
    (last : KeyBlock) (p : Z) :
  KeyBlock_lastOfIssuer st issuer = Some last ->
  JS.leadingZeros (kb_hash last) <> 0 ->
  (if powPeriodC conf then JS.Int (powPeriod conf) else percentOfWoT conf size) = JS.Int p ->
  p <> 0 ->
  getTrialLevel conf st issuer number size
  = Ok (JS.Int (Z.max (powZeroMin conf)
                      (powZeroMin conf
                       + (JS.leadingZeros (kb_hash last) - powZeroMin conf + 1)
                       - (number - kb_number last) / p))).
Proof.
  intros Hlast Hz Hp Hp0. unfold getTrialLevel. rewrite Hlast.
  destruct (Z.eqb_spec (JS.leadingZeros (kb_hash last)) 0) as [|_]; [contradiction|].
  rewrite Hp. unfold JS.floorDiv. destruct p; [contradiction| |]; reflexivity.
Qed.

(** An issuer without a previous block owes [powZeroMin] zeros. *)
Lemma getTrialLevel_first_block (st : State) (issuer : string) (number size : Z) :
  KeyBlock_lastOfIssuer st issuer = None ->
  getTrialLevel conf st issuer number size = Ok (JS.Int (powZeroMin conf)).
Proof.
  intros Hlast. unfold getTrialLevel. rewrite Hlast. simpl.
  f_equal. f_equal. lia.
Qed.


(** Against an integer level, the proof-of-work check passes exactly the
    hashes with that many leading zeros. *)
Lemma checkProofOfWork_level (st : State) (current : option KeyBlock) (block : KeyBlock)
    (z : Z) :
  getTrialLevel conf st (kb_issuer block) (kb_number block)
    (match current with Some cur => kb_membersCount cur | None => 0 end) = Ok (JS.Int z) ->
  0 <= powZeroMin conf <= z ->
  (checkProofOfWork conf st current block = Ok tt <-> z <= JS.leadingZeros (kb_hash block)).
Proof.
  intros Hlevel [Hmin Hz]. unfold checkProofOfWork. rewrite Hlevel. simpl.
  unfold JS.matchZeros.
  destruct (Z.leb_spec 0 (powZeroMin conf)) as [_|]; [|lia].
  destruct (Z.leb_spec 0 z) as [_|]; [|lia].
  destruct (Z.leb_spec (powZeroMin conf) (JS.leadingZeros (kb_hash block))) as [H1|H1]; simpl.
  - destruct (Z.leb_spec z (JS.leadingZeros (kb_hash block))) as [H2|H2]; simpl.
    + tauto.
    + destruct (JS.leadingZeros (kb_hash block) =? 0); split; intros; try discriminate; lia.
  - split; [discriminate | lia].
Qed.

(** *** Links of newcomers *)

Lemma checkHaveEnoughLinks_Ok (st : State) (target : string) (newLinks : NewLinks) :
  checkHaveEnoughLinks conf st target newLinks = Ok tt
  <-> sigQty conf <= linksCount st target newLinks.
Proof.
  unfold checkHaveEnoughLinks. rewrite failWhen_Ok. rewrite Z.ltb_ge. tauto.
Qed.

Lemma checkHaveEnoughLinks_Err (st : State) (target : string) (newLinks : NewLinks) :
  linksCount st target newLinks < sigQty conf ->
  exists e, checkHaveEnoughLinks conf st target newLinks = Err e.
Proof.
  intros H. unfold checkHaveEnoughLinks, failWhen.
  destruct (Z.ltb_spec (linksCount st target newLinks) (sigQty conf)); [eauto | lia].
Qed.

Lemma newcomersOf_In (fpr : string) (membersChanges : list string) :
  In ("+" +:+ fpr) membersChanges -> In fpr (newcomersOf membersChanges).
Proof.
  intros H. unfold newcomersOf. apply in_map_iff. exists ("+" +:+ fpr). split.
  - apply substringFrom_1.
  - apply filter_In. split; [exact H | reflexivity].
Qed.

Lemma forEachSeries_verdict {A} (f : A -> result unit) (l : list A) :
  (forall x, f x = Ok tt \/ exists e, f x = Err e) ->
  forEachSeries f l = Ok tt \/ exists e, forEachSeries f l = Err e.
Proof.
  intros Hf. induction l as [|x l IH]; simpl; [auto|].
  destruct (Hf x) as [-> | (e & ->)]; simpl; eauto.
Qed.

Lemma forEachSeries_fails {A} (f : A -> result unit) (l : list A) (x : A) :
  (forall y, f y = Ok tt \/ exists e, f y = Err e) ->
  In x l -> (exists e, f x = Err e) ->
  exists e, forEachSeries f l = Err e.
Proof.
  intros Hf Hin Hx.
  destruct (forEachSeries_verdict f l Hf) as [Hok | Herr]; [|exact Herr].
  apply forEachSeries_Ok in Hok. rewrite List.Forall_forall in Hok.
  destruct Hx as (e & He). rewrite (Hok x Hin) in He. discriminate.
Qed.

Lemma checkNewcomer_verdict (st : State) (block : KeyBlock) (newLinks : NewLinks)
    (members : list string) (newcomer : string) :
  checkNewcomer conf st block newLinks members newcomer = Ok tt
  \/ exists e, checkNewcomer conf st block newLinks members newcomer = Err e.
Proof.
  unfold checkNewcomer.
  assert (H1 : forall r : result unit,
             (r = Ok tt \/ exists e, r = Err e) ->
             forall k : result unit, (k = Ok tt \/ exists e, k = Err e) ->
             (r ;;; k) = Ok tt \/ exists e, (r ;;; k) = Err e).
  { intros r [-> | (e & ->)] k Hk; simpl; eauto. }
  apply H1.
  { destruct (0 <? kb_number block); [|auto].
    unfold checkHaveEnoughLinks.
    destruct (failWhen_cases (linksCount st newcomer newLinks <? sigQty conf)
      ("Key " +:+ JS.substringFrom 24 newcomer +:+ " does not have enough links ("
       +:+ JS.toString (linksCount st newcomer newLinks) +:+ "/"
       +:+ JS.toString (sigQty conf) +:+ ")")) as [(_ & ->) | (_ & ->)]; eauto. }
  apply H1.
  { destruct (0 <? Z.of_nat (List.length
        (Link_isOver3StepsOfAMember (st_links st) newcomer members))); [|auto].
    match goal with
    | |- failWhen ?c ?m = _ \/ _ =>
        destruct (failWhen_cases c m) as [(_ & ->) | (_ & ->)]; eauto
    end. }
  apply forEachSeries_verdict. intros member.
  match goal with
  | |- failWhen ?c ?m = _ \/ _ =>
      destruct (failWhen_cases c m) as [(_ & ->) | (_ & ->)]; eauto
  end.
Qed.

(** *** The tip after a block is applied *)

Create HintDb steps.

Lemma keepsBlocks_sret {A} (a : A) : keepsBlocks (sret a).
Proof. intros st r st' H. now injection H as _ <-. Qed.

Lemma keepsBlocks_lift {A} (r : result A) : keepsBlocks (lift r).
Proof. intros st r' st' H. now injection H as _ <-. Qed.

Lemma keepsBlocks_reads {A} (q : State -> result A) : keepsBlocks (reads q).
Proof. intros st r st' H. now injection H as _ <-. Qed.

Lemma keepsBlocks_writes (w : State -> State) :
  (forall st, st_blocks (w st) = st_blocks st) -> keepsBlocks (writes w).
Proof. intros Hw st r st' H. injection H as _ <-. apply Hw. Qed.

Lemma keepsBlocks_sbind {A B} (m : Step A) (k : A -> Step B) :
  keepsBlocks m -> (forall a, keepsBlocks (k a)) -> keepsBlocks (sbind m k).
Proof.
  intros Hm Hk st r st' H. unfold sbind in H.
  destruct (m st) as [[a|e| |] st1] eqn:Hst.
  - rewrite (Hk a st1 r st' H). now apply (Hm st (Ok a)).
  - injection H as _ <-. now apply (Hm st (Err e)).
  - injection H as _ <-. now apply (Hm st Crash).
  - injection H as _ <-. now apply (Hm st Hang).
Qed.

Lemma keepsBlocks_sforEach {A} (f : A -> Step unit) (l : list A) :
  (forall x, keepsBlocks (f x)) -> keepsBlocks (sforEach f l).
Proof.
  intros Hf. induction l as [|x l IH]; simpl.
  - apply keepsBlocks_sret.
  - apply keepsBlocks_sbind; [apply Hf | intros _; exact IH].
Qed.

Lemma TrustedKey_save_blocks (st : State) (tk : TrustedKey) :
  st_blocks (TrustedKey_save st tk) = st_blocks st.
Proof. unfold TrustedKey_save. destruct (existsb _ (st_trusted st)); reflexivity. Qed.

#[local] Hint Resolve keepsBlocks_sret keepsBlocks_lift keepsBlocks_reads : steps.
#[local] Hint Resolve TrustedKey_save_blocks : steps.

Ltac keeps_blocks :=
  repeat first
    [ apply keepsBlocks_sbind; [|intros]
    | apply keepsBlocks_sforEach; intros
    | apply keepsBlocks_writes; intros;
      first [ reflexivity | solve [auto with steps]
            | match goal with
              | |- context [if ?c then _ else _] => destruct c; reflexivity
              end ]
    | solve [auto with steps]
    | match goal with
      | |- keepsBlocks (match ?x with _ => _ end) => destruct x
      | |- keepsBlocks (if ?c then _ else _) => destruct c
      end ].

Lemma saveBlockData_tip (block : KeyBlock) (newLinks : NewLinks) (st st' : State)
    (r : result KeyBlock) :
  saveBlockData conf block newLinks st = (r, st') ->
  st_blocks st' = block :: st_blocks st.
Proof.
  unfold saveBlockData. intros H.
  unfold sbind at 1 in H. simpl in H.
  match type of H with
  | ?rest (KeyBlock_save st block) = _ =>
      assert (Hk : keepsBlocks rest)
  end.
  { unfold updateMembers, saveLinks, computeObsoleteLinks, updateAvailableKeyMaterial.
    keeps_blocks. }
  apply Hk in H. exact H.
Qed.

Lemma submit_chain_Err (now : Z) (kb : Submission) (st : State) (e : string) :
  testChaining (KeyBlock_current st) (receivedBlock kb) = Err e ->
  submit now kb st = (Err e, st).
Proof.
  intros He. rewrite submitKeyBlock_unfold.
  rewrite (checks_chain_Err now st _ e He). reflexivity.
Qed.

Lemma submit_Ok_tip (now : Z) (kb : Submission) (st st' : State) (b : KeyBlock) :
  submit now kb st = (Ok b, st') ->
  KeyBlock_current st' = Some (certified conf st (receivedBlock kb)).
Proof.
  intros H. apply submit_Ok_inv in H as (nl & _ & Hsave).
  apply saveBlockData_tip in Hsave. unfold KeyBlock_current. now rewrite Hsave.
Qed.

(** C7, as the code has it: the service keeps no record of the blocks it
    has seen and has no error of its own for a repeated block.  A block
    that was applied is the tip; submitted again it fails the chaining
    test on its number and is rejected with 'Too late for this block',
    an error of the chaining kind, and the stores stay as they are. *)
Theorem resubmission_is_too_late (now now' : Z) (kb : Submission) (st st' : State)
    (b : KeyBlock) :
  submit now kb st = (Ok b, st') ->
  submit now' kb st' = (Err "Too late for this block", st')
  /\ errorKind "Too late for this block" = Some BadChaining.
Proof.
  intros H. split; [|reflexivity].
  apply submit_chain_Err. rewrite (submit_Ok_tip now kb st st' b H).
  unfold testChaining. now rewrite Z.leb_refl.
Qed.

(** *** Members' changes *)

Lemma get_set_same {V} (k : string) (v : V) (o : JS.obj V) :
  JS.get k (JS.set k v o) = Some v.
Proof.
  induction o as [|[k' v'] o IH]; simpl.
  - now rewrite String.eqb_refl.
  - destruct (String.eqb_spec k k') as [->|Hne]; simpl.
    + now rewrite String.eqb_refl.
    + destruct (String.eqb_spec k k'); [contradiction | exact IH].
Qed.

Lemma get_set_other {V} (k k' : string) (v : V) (o : JS.obj V) :
  k <> k' -> JS.get k (JS.set k' v o) = JS.get k o.
Proof.
  intros Hne. induction o as [|[k1 v1] o IH]; simpl.
  - destruct (String.eqb_spec k k'); [contradiction | reflexivity].
  - destruct (String.eqb_spec k' k1) as [->|Hne1]; simpl.
    + destruct (String.eqb_spec k k1); [contradiction | reflexivity].
    + destruct (String.eqb_spec k k1); [reflexivity | exact IH].
Qed.

Lemma get_In_values {V} (k : string) (v : V) (o : JS.obj V) :
  JS.get k o = Some v -> In v (JS.values o).
Proof.
  induction o as [|[k' v'] o IH]; simpl; [discriminate|].
  destruct (String.eqb k k'); [intros H; injection H as ->; now left | auto].
Qed.

Lemma getMemberships_entries (all : list Keychange) :
  forall (kcs : list Keychange) (acc mss : JS.obj BlockMembership),
    getMemberships kcs acc = Ok mss ->
    (forall kc, In kc kcs -> In kc all) ->
    forall fpr,
      ((exists bm, JS.get fpr acc = Some bm /\ fromNewcomer all fpr bm)
       \/ (exists kc im, In kc kcs /\ kc_type kc = "N" /\ kc_fingerprint kc = fpr
                         /\ kc_membership kc = Some im)) ->
      exists bm, JS.get fpr mss = Some bm /\ fromNewcomer all fpr bm.
Proof.
  induction kcs as [|kc kcs IH]; intros acc mss H Hall fpr Hfpr; simpl in H.
  - injection H as <-. destruct Hfpr as [Hacc | (kc & im & [] & _)]. exact Hacc.
  - assert (Hall' : forall kc0, In kc0 kcs -> In kc0 all) by (intros; apply Hall; now right).
    destruct (kc_membership kc) as [im|] eqn:Hms.
    + destruct (String.eqb_spec (kc_type kc) "N") as [Hty|Hty].
      * apply bind_Ok in H as (p & Hp & H). apply uncaught_Ok in Hp.
        apply (IH _ _ H Hall' fpr).
        destruct (String.eqb_spec fpr (kc_fingerprint kc)) as [->|Hne].
        -- left. eexists. split; [apply get_set_same|].
           split; [reflexivity|]. exists kc, im, p.
           repeat split; auto. apply Hall. now left.
        -- destruct Hfpr as [(bm & Hget & Hbm) | (kc0 & im0 & [<-|Hin] & Hty0 & Hfp0 & Hms0)].
           ++ left. exists bm. split; [|exact Hbm]. now rewrite get_set_other.
           ++ congruence.
           ++ right. eauto 8.
      * apply (IH _ _ H Hall' fpr).
        destruct Hfpr as [Hacc | (kc0 & im0 & [<-|Hin] & Hty0 & Hfp0 & Hms0)];
          [now left | contradiction | right; eauto 8].
    + apply (IH _ _ H Hall' fpr).
      destruct Hfpr as [Hacc | (kc0 & im0 & [<-|Hin] & Hty0 & Hfp0 & Hms0)];
        [now left | congruence | right; eauto 8].
Qed.

Lemma fold_error_None (membersChanges : list string) (l : list BlockMembership) :
  forall acc : option string,
    fold_left
      (fun (error : option string) ms =>
         if negb (JS.includes (changeOf ms) membersChanges)
         then Some "Wrong members changes" else error) l acc = None
    <-> acc = None /\ forall ms, In ms l -> In (changeOf ms) membersChanges.
Proof.
  induction l as [|ms l IH]; intros acc; simpl.
  - split; [intros ->; split; [reflexivity | intros ? []] | tauto].
  - rewrite IH. destruct (JS.includes (changeOf ms) membersChanges) eqn:Hinc; simpl.
    + apply includes_In in Hinc. split.
      * intros [-> Hl]. split; [reflexivity|]. intros m [<-|Hm]; auto.
      * intros [-> Hl]. split; [reflexivity | auto].
    + split; [intros [H _]; discriminate|].
      intros [_ Hl]. specialize (Hl ms (or_introl eq_refl)).
      apply includes_In in Hl. congruence.
Qed.

Lemma checkCommunityChanges_Ok (block : KeyBlock) :
  checkCommunityChanges block = Ok tt
  <-> exists mss, getMemberships (kb_keysChanges block) [] = Ok mss
                  /\ forall ms, In ms (JS.values mss) ->
                                In (changeOf ms) (kb_membersChanges block).
Proof.
  unfold checkCommunityChanges. split.
  - intros H. apply bind_Ok in H as (mss & Hmss & H). exists mss. split; [exact Hmss|].
    match type of H with
    | match ?f with _ => _ end = _ => destruct f eqn:Hf; [discriminate|]
    end.
    now apply fold_error_None in Hf as [_ Hf].
  - intros (mss & -> & Hall). simpl.
    match goal with
    | |- match ?f with _ => _ end = _ => assert (Hf : f = None)
    end.
    { apply fold_error_None. split; [reflexivity | exact Hall]. }
    now rewrite Hf.
Qed.

Lemma foldSeries_each {A S} (f : S -> A -> result S) (l : list A) :
  forall s s', foldSeries f s l = Ok s' ->
               forall x, In x l -> exists s1 s2, f s1 x = Ok s2.
Proof.
  induction l as [|y l IH]; intros s s' H x Hin; [destruct Hin|].
  simpl in H. apply bind_Ok in H as (s1 & Hy & H).
  destruct Hin as [<-|Hin]; [eauto | eapply IH; eauto].
Qed.

Lemma checkKeychange_newcomer (st : State) (block : KeyBlock) (kc : Keychange)
    (newKeys : JS.obj WrappedKey) (certifiers : option (list string)) :
  kc_type kc = "N" ->
  checkKeychange conf st block kc newKeys = Ok certifiers ->
  exists im p, kc_membership kc = Some im
               /\ fromInline (im_membership im) (im_signature im) = Ok p
               /\ ip_membership p = "IN".
Proof.
  intros Hty. unfold checkKeychange. rewrite Hty. simpl. intros H.
  apply bind_Ok in H as (key & _ & H).
  apply bind_Ok in H as (p & Hp & H).
  destruct (kc_membership kc) as [im|]; [|discriminate].
  exists im, p. split; [reflexivity|]. split; [exact Hp|].
  destruct (negb (truthy (kc_certpackets kc))); [discriminate|].
  destruct (String.eqb_spec (ip_membership p) "IN"); [assumption | discriminate].
Qed.

Lemma checkKeychanges_newcomers (st : State) (block : KeyBlock) (newLinks : NewLinks) :
  checkKeychanges conf st block = Ok newLinks ->
  forall kc, In kc (kb_keysChanges block) -> kc_type kc = "N" ->
    exists im p, kc_membership kc = Some im
                 /\ fromInline (im_membership im) (im_signature im) = Ok p
                 /\ ip_membership p = "IN".
Proof.
  unfold checkKeychanges. intros H kc Hin Hty.
  apply bind_Ok in H as (newKeys & _ & H). simpl in H.
  apply bind_Ok in H as (links & HN & _).
  unfold checkKeychangesOfType in HN.
  destruct (foldSeries_each _ _ _ _ HN kc Hin) as (s1 & s2 & Hkc).
  simpl in Hkc. rewrite Hty in Hkc. simpl in Hkc.
  apply bind_Ok in Hkc as (certifiers & Hkc & _).
  now apply checkKeychange_newcomer in Hkc.
Qed.

Lemma fold_error_Some (membersChanges : list string) (l : list BlockMembership) :
  forall acc : option string,
    (exists ms, In ms l /\ ~ In (changeOf ms) membersChanges)
    \/ acc = Some "Wrong members changes" ->
    fold_left
      (fun (error : option string) ms =>
         if negb (JS.includes (changeOf ms) membersChanges)
         then Some "Wrong members changes" else error) l acc
    = Some "Wrong members changes".
Proof.
  induction l as [|ms l IH]; intros acc H; simpl.
  - destruct H as [(ms & [] & _) | H]. exact H.
  - apply IH. destruct H as [(ms' & [<-|Hin] & Hno) | ->].
    + right. destruct (JS.includes (changeOf ms) membersChanges) eqn:Hinc; [|reflexivity].
      apply includes_In in Hinc. contradiction.
    + left. eauto.
    + right. now destruct (negb (JS.includes (changeOf ms) membersChanges)).
Qed.

Lemma getMemberships_total :
  forall (kcs : list Keychange) (acc : JS.obj BlockMembership),
    (forall kc, In kc kcs -> kc_type kc = "N" ->
       exists im p, kc_membership kc = Some im
                    /\ fromInline (im_membership im) (im_signature im) = Ok p) ->
    exists mss, getMemberships kcs acc = Ok mss.
Proof.
  induction kcs as [|kc kcs IH]; intros acc Hall; simpl; [eauto|].
  assert (Hall' : forall kc0, In kc0 kcs -> kc_type kc0 = "N" ->
            exists im p, kc_membership kc0 = Some im
                         /\ fromInline (im_membership im) (im_signature im) = Ok p)
    by (intros; apply Hall; [now right | assumption]).
  destruct (kc_membership kc) as [im|] eqn:Hms; [|now apply IH].
  destruct (String.eqb_spec (kc_type kc) "N") as [Hty|Hty]; [|now apply IH].
  destruct (Hall kc (or_introl eq_refl) Hty) as (im' & p & Him & Hp).
  assert (im' = im) by congruence. subst im'.
  rewrite Hp. simpl. now apply IH.
Qed.

(** Once [checkKeychanges] has passed, [checkCommunityChanges] refuses a
    block with a NEWCOMER keychange whose [+FPR] entry is missing. *)
Lemma checkCommunityChanges_missing (st : State) (block : KeyBlock) (newLinks : NewLinks)
    (kc : Keychange) :
  checkKeychanges conf st block = Ok newLinks ->
  In kc (kb_keysChanges block) -> kc_type kc = "N" ->
  ~ In ("+" +:+ kc_fingerprint kc) (kb_membersChanges block) ->
  checkCommunityChanges block = Err "Wrong members changes".
Proof.
  intros Hkc Hin Hty Hno.
  destruct (getMemberships_total (kb_keysChanges block) []) as (mss & Hmss).
  { intros kc0 Hin0 Hty0.
    destruct (checkKeychanges_newcomers st block newLinks Hkc kc0 Hin0 Hty0)
      as (im & p & Hms & Hp & _). eauto. }
  destruct (checkKeychanges_newcomers st block newLinks Hkc kc Hin Hty)
    as (im & p & Hms & Hp & HIN).
  destruct (getMemberships_entries (kb_keysChanges block) (kb_keysChanges block) [] mss Hmss
              (fun _ H => H) (kc_fingerprint kc)) as (bm & Hget & Hfp & Hsrc).
  { right. exists kc, im. auto. }
  destruct Hsrc as (kc' & im' & p' & Hin' & Hty' & Hfp' & Hms' & Hp' & Hbm).
  destruct (checkKeychanges_newcomers st block newLinks Hkc kc' Hin' Hty')
    as (im2 & p2 & Hms2 & Hp2 & HIN2).
  assert (im2 = im') by congruence. subst im2.
  assert (p2 = p') by congruence. subst p2.
  unfold checkCommunityChanges. rewrite Hmss. cbn [bind].
  rewrite fold_error_Some; [reflexivity|].
  left. exists bm. split; [exact (get_In_values _ _ _ Hget)|].
  unfold changeOf. now rewrite Hbm, HIN2, Hfp.
Qed.

(** C6, as the code has it: validation tests one direction only.  A
    block in which a NEWCOMER keychange, with the membership it embeds,
    has no [+FPR] entry in [membersChanges] is rejected with 'Wrong
    members changes', the stores as they were, when it passes the checks
    that run before this one; so in every applied block each NEWCOMER
    keychange has its entry.  No check asks for a keychange behind a
    [+FPR] entry.  On the small network the root block that leaves out
    the entry of B is so rejected. *)
Theorem memberships_have_their_change (now : Z) (kb : Submission) (st : State) :
  let B := receivedBlock kb in
  (forall (newLinks : NewLinks) (kc : Keychange),
     testChaining (KeyBlock_current st) B = Ok tt ->
     testTime now B = Ok tt ->
     checkProofOfWork conf st (KeyBlock_current st) B = Ok tt ->
     checkIssuer st B = Ok tt ->
     checkKeychanges conf st B = Ok newLinks ->
     logNewLinks newLinks = Ok tt ->
     checkWoTStability conf st B newLinks = Ok tt ->
     checkKicked st B newLinks = Ok tt ->
     In kc (kb_keysChanges B) -> kc_type kc = "N" ->
     ~ In ("+" +:+ kc_fingerprint kc) (kb_membersChanges B) ->
     submit now kb st = (Err "Wrong members changes", st))
  /\ (forall b st', submit now kb st = (Ok b, st') ->
      forall kc, In kc (kb_keysChanges B) -> kc_type kc = "N" ->
        In ("+" +:+ kc_fingerprint kc) (kb_membersChanges B))
  /\ @submitKeyBlock Scenario.libs WoT.graph Scenario.pks Scenario.conf1 true NotComputing
       1400000000 Cases.leavesOutB Scenario.fresh
     = (Err "Wrong members changes", Scenario.fresh).
Proof.
  intros B. split; [|split].
  - intros nl kc H1 H2 H3 H4 H5 Hlog H6 H7 Hin Hty Hno.
    rewrite submitKeyBlock_unfold. fold B.
    unfold checkKeyBlock, checkCoherence.
    rewrite H1. cbn [bind]. rewrite H2. cbn [bind]. rewrite H3. cbn [bind].
    rewrite H4. cbn [bind]. rewrite H5. cbn [bind]. rewrite Hlog. cbn [bind].
    rewrite H6. cbn [bind]. rewrite H7. cbn [bind].
    now rewrite (checkCommunityChanges_missing st B nl kc H5 Hin Hty Hno).
  - intros b st' H kc Hin Hty.
    apply submit_Ok_inv in H as (nl & Hc & _).
    apply checks_Ok_inv in Hc as (_ & _ & _ & _ & Hkc & _ & _ & Hcc).
    fold B in Hkc, Hcc.
    destruct (in_dec string_dec ("+" +:+ kc_fingerprint kc) (kb_membersChanges B))
      as [Hyes|Hno]; [exact Hyes|].
    rewrite (checkCommunityChanges_missing st B nl kc Hkc Hin Hty Hno) in Hcc.
    discriminate.
  - vm_compute. reflexivity.
Qed.

End Properties.

(** ** The service on the small network *)

Import Scenario.

Lemma applied1_run :
  @submitKeyBlock libs WoT.graph pks conf1 true NotComputing 1400000000 genesis fresh
  = (Ok genesisChecked, applied1).
Proof. vm_compute. reflexivity. Qed.

Lemma applied2_run :
  @submitKeyBlock libs WoT.graph pks conf2 true NotComputing 1400000000 genesis fresh
  = (Ok genesisChecked, applied2).
Proof. vm_compute. reflexivity. Qed.

(** C3: with a period of 29 percent and 100 members the service waits
    [Math.floor(29/100*100)] = 28 blocks, where the specification counts
    [floor(29 * 100 / 100)] = 29.  Block 28 of an issuer whose last block
    is the root block is asked for 1 zero, not for the 2 of the
    specification, and passes the proof-of-work check with a hash that
    has a single leading zero. *)
Theorem checkProofOfWork_period_in_binary64 :
  KeyBlock_lastOfIssuer longChain (kb_issuer block28) = Some (chainBlock 0)
  /\ percentOfWoT confPercent 100 = JS.Int 28
  /\ powPeriod confPercent * 100 / 100 = 29
  /\ getTrialLevel confPercent longChain (kb_issuer block28) (kb_number block28) 100
     = Ok (JS.Int 1)
  /\ specRequiredZeros confPercent (KeyBlock_lastOfIssuer longChain (kb_issuer block28))
       (kb_number block28) 100 = 2
  /\ JS.leadingZeros (kb_hash block28) = 1
  /\ checkProofOfWork confPercent longChain (KeyBlock_current longChain) block28 = Ok tt.
Proof.
  split; [vm_compute; reflexivity|].
  split; [vm_compute; reflexivity|].
  split; [vm_compute; reflexivity|].
  split; [vm_compute; reflexivity|].
  split; [vm_compute; reflexivity|].
  split; vm_compute; reflexivity.
Qed.

(** C6 fails in its converse direction: block 1 lists A as joining,
    carries no keychange at all, and is applied. *)
Lemma unbacked_change_is_applied :
  exists st',
    @submitKeyBlock libs WoT.graph pks conf1 true NotComputing 1400000060 unbacked applied1
    = (Ok (receivedBlock unbacked), st')
    /\ In ("+" +:+ fprA) (kb_membersChanges (receivedBlock unbacked))
    /\ kb_keysChanges (receivedBlock unbacked) = [].
Proof.
  exists (snd (@submitKeyBlock libs WoT.graph pks conf1 true NotComputing 1400000060 unbacked applied1)).
  split; [vm_compute; reflexivity|].
  split; [left; reflexivity | reflexivity].
Qed.

(** C7 fails on the kind of the error: the root block, applied and
    submitted again, is rejected with 'Too late for this block', which is
    a chaining error; the service has no message of the AlreadySeen kind
    for blocks. *)
Lemma resubmission_is_not_already_seen :
  @submitKeyBlock libs WoT.graph pks conf1 true NotComputing 1400000000 genesis fresh
  = (Ok genesisChecked, applied1)
  /\ @submitKeyBlock libs WoT.graph pks conf1 true NotComputing 1400000000 genesis applied1
     = (Err "Too late for this block", applied1)
  /\ errorKind "Too late for this block" <> Some AlreadySeen.
Proof.
  split; [exact applied1_run|].
  split; [vm_compute; reflexivity | vm_compute; discriminate].
Qed.

(** The root block of the small network, submitted a minute later. *)
Lemma resubmission_is_too_late_witness :
  @submitKeyBlock libs WoT.graph pks conf1 true NotComputing 1400000000 genesis fresh
  = (Ok genesisChecked, applied1)
  /\ @submitKeyBlock libs WoT.graph pks conf1 true NotComputing 1400000060 genesis applied1
     = (Err "Too late for this block", applied1).
Proof.
  split; [exact applied1_run|].
  exact (proj1 (@resubmission_is_too_late libs WoT.graph pks conf1 true NotComputing
                  1400000000 1400000060 genesis fresh applied1 genesisChecked
                  applied1_run)).
Defined.

(** ** Further properties of the service *)

Section MoreProperties.

Context {pgp : OpenPGP} {wot : LinkModel} {pks : PublicKeyService}.
Variable conf : Conf.
Variable checkWithLocalTimestamp : bool.
Variable computation : Computation.

Local Abbreviation submit := (submitKeyBlock conf checkWithLocalTimestamp computation).
Local Abbreviation checks := (checkKeyBlock conf checkWithLocalTimestamp).

(** *** The block store *)

Lemma checks_Ok_number (now : Z) (st : State) (B : KeyBlock) (nl : NewLinks) :
  checks st now B = Ok nl -> 0 <= kb_number B.
Proof.
  intros H. destruct (Z.lt_ge_cases (kb_number B) 0) as [Hneg|Hpos]; [|exact Hpos].
  exfalso. exact (negative_number_not_validated conf checkWithLocalTimestamp now st B nl Hneg H).
Qed.

Lemma checks_Ok_linked (now : Z) (st : State) (B : KeyBlock) (nl : NewLinks) :
  checks st now B = Ok nl -> chainLinked (KeyBlock_current st) B.
Proof.
  intros H. pose proof (checks_Ok_number now st B nl H) as Hnum.
  apply checks_Ok_inv in H as (Hc & _). now apply testChaining_linked.
Qed.

Lemma submit_blocks (c : Computation) (now : Z) (kb : Submission) (st st' : State)
    (r : result KeyBlock) :
  submitKeyBlock conf checkWithLocalTimestamp c now kb st = (r, st') ->
  st' = st
  \/ exists nl, checks st now (receivedBlock kb) = Ok nl
                /\ st_blocks st' = certified conf st (receivedBlock kb) :: st_blocks st.
Proof.
  rewrite submitKeyBlock_unfold.
  destruct (checks st now (receivedBlock kb)) as [nl|e| |] eqn:Hc; intros H.
  - destruct c as [|[]].
    + right. exists nl. split; [reflexivity|]. now apply saveBlockData_tip in H.
    + right. exists nl. split; [reflexivity|]. now apply saveBlockData_tip in H.
    + left. now injection H.
  - left. now injection H.
  - left. now injection H.
  - left. now injection H.
Qed.

Lemma submit_keeps_chain (c : Computation) (now : Z) (kb : Submission) (st st' : State)
    (r : result KeyBlock) :
  linkedChain (st_blocks st) ->
  submitKeyBlock conf checkWithLocalTimestamp c now kb st = (r, st') ->
  linkedChain (st_blocks st').
Proof.
  intros Hchain H. apply submit_blocks in H as [-> | (nl & Hc & Hb)]; [exact Hchain|].
  rewrite Hb. apply checks_Ok_linked in Hc. unfold KeyBlock_current in Hc.
  simpl. split; [|exact Hchain].
  destruct (st_blocks st) as [|t rest]; exact Hc.
Qed.

Lemma linkedChain_numbers (blocks : list KeyBlock) :
  linkedChain blocks ->
  map kb_number blocks = map Z.of_nat (rev (seq 0 (List.length blocks))).
Proof.
  induction blocks as [|b rest IH]; intros Hchain; [reflexivity|].
  destruct Hchain as [Hb Hrest]. specialize (IH Hrest).
  change (List.length (b :: rest)) with (S (List.length rest)).
  rewrite seq_S, rev_app_distr. simpl. f_equal; [|exact IH].
  destruct rest as [|t rest']; [exact Hb|].
  destruct Hb as (Hn & _). rewrite Hn.
  assert (Ht : kb_number t = Z.of_nat (List.length rest')).
  { change (List.length (t :: rest')) with (S (List.length rest')) in IH.
    rewrite seq_S, rev_app_distr in IH. simpl in IH. now injection IH. }
  rewrite Ht. simpl List.length. lia.
Qed.

(** X1: a call of [submitKeyBlock] that runs from its start to its end
    with no other call in between leaves a block store that is a chain a
    chain, whatever it returns; so on a node that starts without a block,
    after any sequence of calls made one after the other the numbers of
    the stored blocks run from 0 at the bottom to the tip without gap or
    repetition, each block naming the hash and issuer of the one below.
    The service takes no lock, and calls that overlap are not such a
    sequence: two submissions of the root block of the small network
    whose checks both run before either is applied both succeed, and
    leave two blocks numbered 0. *)
Theorem block_store_is_a_numbered_chain (subs : list (Computation * Z * Submission))
    (st : State) :
  (forall c now kb r st',
     linkedChain (st_blocks st) ->
     submitKeyBlock conf checkWithLocalTimestamp c now kb st = (r, st') ->
     linkedChain (st_blocks st'))
  /\ (st_blocks st = [] ->
      let blocks := st_blocks (submitAll conf checkWithLocalTimestamp subs st) in
      linkedChain blocks
      /\ map kb_number blocks = map Z.of_nat (rev (seq 0 (List.length blocks))))
  /\ (exists st',
        @submitOverlapping Scenario.libs WoT.graph Scenario.pks Scenario.conf1 true
          1400000000 Scenario.genesis 1400000000 Scenario.genesis Scenario.fresh
        = (Ok Scenario.genesisChecked, Ok Scenario.genesisChecked, st')
        /\ map kb_number (st_blocks st') = [0; 0]
        /\ ~ linkedChain (st_blocks st')).
Proof.
  split; [intros c now kb r st'; apply submit_keeps_chain|]. split.
  - intros Hempty blocks.
    assert (Hchain : linkedChain blocks).
    { subst blocks.
      assert (Hst : linkedChain (st_blocks st)) by (rewrite Hempty; exact I).
      clear Hempty. revert st Hst.
      induction subs as [|[[c now] kb] subs IH]; intros st Hst; [exact Hst|].
      simpl. apply IH.
      destruct (submitKeyBlock conf checkWithLocalTimestamp c now kb st) as [r st'] eqn:Hs.
      exact (submit_keeps_chain c now kb st st' r Hst Hs). }
    split; [exact Hchain | now apply linkedChain_numbers].
  - exists (snd (@submitOverlapping Scenario.libs WoT.graph Scenario.pks Scenario.conf1 true
                   1400000000 Scenario.genesis 1400000000 Scenario.genesis Scenario.fresh)).
    split; [vm_compute; reflexivity|]. split; [vm_compute; reflexivity|].
    intros Hchain. apply linkedChain_numbers in Hchain.
    vm_compute in Hchain. discriminate.
Qed.

(** X2: once the checks have passed and the call is not left waiting
    for a search, the block as the checks left it is the tip of the block
    store whatever [saveBlockData] then returns: a failure while applying
    is not rolled back.  A call that is left waiting for a search that
    never resumes it stores nothing.  On the small network, block 1 with
    an UPDATE keychange that brings C, a key without trusted-key row, a
    certification by A passes every check; applying it fails on the
    lookup of the trusted key, after the block was stored and before its
    link was. *)
Theorem failed_apply_keeps_the_block (now : Z) (kb : Submission) (st : State) :
  (forall nl r st',
     checks st now (receivedBlock kb) = Ok nl ->
     computation <> Computing false ->
     submit now kb st = (r, st') ->
     KeyBlock_current st' = Some (certified conf st (receivedBlock kb)))
  /\ (forall nl,
        checks st now (receivedBlock kb) = Ok nl ->
        computation = Computing false ->
        submit now kb st = (Hang, st))
  /\ exists e st',
       @submitKeyBlock Scenario.libs WoT.graph Scenario.pks Scenario.conf1 true NotComputing
         1400000060 Cases.updateC Cases.knowsC = (Err e, st')
       /\ KeyBlock_current st'
          = Some (@certified Scenario.libs Scenario.conf1 Cases.knowsC
                    (receivedBlock Cases.updateC))
       /\ st_links st' = st_links Cases.knowsC
       /\ @checkKeychanges Scenario.libs Scenario.conf1 Cases.knowsC
            (receivedBlock Cases.updateC)
          = Ok [(Cases.fprC, Some [Scenario.fprA])].
Proof.
  split; [|split].
  - intros nl r st' Hc Hrun H. rewrite submitKeyBlock_unfold, Hc in H.
    assert (Hsave : saveBlockData conf (certified conf st (receivedBlock kb)) nl st = (r, st')).
    { destruct computation as [|[]]; [exact H | exact H | now contradiction Hrun]. }
    apply saveBlockData_tip in Hsave. unfold KeyBlock_current. now rewrite Hsave.
  - intros nl Hc ->. unfold submitKeyBlock, sbind, reads. now rewrite Hc.
  - exists "Trusted key not found",
      (snd (@submitKeyBlock Scenario.libs WoT.graph Scenario.pks Scenario.conf1 true NotComputing
              1400000060 Cases.updateC Cases.knowsC)).
    split; [vm_compute; reflexivity|].
    split; [vm_compute; reflexivity|].
    split; vm_compute; reflexivity.
Qed.

(** *** Keychanges of a validated block *)

Lemma checkKeychanges_each (st : State) (block : KeyBlock) (newLinks : NewLinks) :
  checkKeychanges conf st block = Ok newLinks ->
  exists newKeys,
    memorizeNewKeys (kb_keysChanges block) [] = Ok newKeys
    /\ forall kc, In kc (kb_keysChanges block) ->
         (kc_type kc = "N" \/ kc_type kc = "U")
         /\ exists certifiers, checkKeychange conf st block kc newKeys = Ok certifiers.
Proof.
  unfold checkKeychanges. intros H.
  apply bind_Ok in H as (newKeys & Hkeys & H). exists newKeys. split; [exact Hkeys|].
  simpl in H. apply bind_Ok in H as (links & HN & H).
  apply bind_Ok in H as (links' & HU & _).
  intros kc Hin. unfold checkKeychangesOfType in HN, HU.
  destruct (foldSeries_each _ _ _ _ HN kc Hin) as (s1 & s2 & HkcN).
  destruct (foldSeries_each _ _ _ _ HU kc Hin) as (s3 & s4 & HkcU).
  simpl in HkcN, HkcU.
  destruct (String.eqb_spec (kc_type kc) "U") as [HtU|HtU];
    destruct (String.eqb_spec (kc_type kc) "N") as [HtN|HtN]; simpl in HkcN, HkcU;
    try discriminate.
  - rewrite HtU in HtN. discriminate.
  - split; [now right|]. apply bind_Ok in HkcU as (c & Hc & _). eauto.
  - split; [now left|]. apply bind_Ok in HkcN as (c & Hc & _). eauto.
Qed.

(** X3: a block with a keychange that is neither NEWCOMER nor UPDATE (a
    LEAVER, a BACK, an unknown type) is never applied. *)
Theorem applied_keychanges_are_N_or_U (now : Z) (kb : Submission) (st st' : State)
    (b : KeyBlock) :
  submit now kb st = (Ok b, st') ->
  forall kc, In kc (kb_keysChanges (receivedBlock kb)) ->
             kc_type kc = "N" \/ kc_type kc = "U".
Proof.
  intros H kc Hin. apply submit_Ok_inv in H as (nl & Hc & _).
  apply checks_Ok_inv in Hc as (_ & _ & _ & _ & Hkc & _).
  apply checkKeychanges_each in Hkc as (newKeys & _ & Hall).
  exact (proj1 (Hall kc Hin)).
Qed.

Lemma checkKeychange_N_inv (st : State) (block : KeyBlock) (kc : Keychange)
    (newKeys : JS.obj WrappedKey) (c : option (list string)) :
  kc_type kc = "N" ->
  checkKeychange conf st block kc newKeys = Ok c ->
  exists key im ms certifs certifiers,
    fromEncodedPackets (kc_keypackets kc) = Ok key
    /\ kc_membership kc = Some im
    /\ fromInline (im_membership im) (im_signature im) = Ok ms
    /\ truthy (kc_certpackets kc) = true
    /\ ip_membership ms = "IN"
    /\ wk_hasValidUdid2 key = true
    /\ ip_userid ms = wk_userID key
    /\ unix2dos (stripFinalNewline (wk_newcomerPackets key))
       = unix2dos (stripFinalNewline (kc_keypackets kc))
    /\ toPacketlist (kc_certpackets kc) = Ok certifs
    /\ certifiersOf st certifs (kc_fingerprint kc) newKeys = Ok certifiers
    /\ verifyDetached (wk_armored key) (membershipRaw ms (currency conf) (wk_userID key))
         (ip_signature ms) = Ok true
    /\ c = Some certifiers.
Proof.
  intros Hty. unfold checkKeychange. rewrite Hty. simpl. intros H.
  apply bind_Ok in H as (key & Hkey & H).
  apply bind_Ok in H as (ms & Hms & H).
  destruct (kc_membership kc) as [im|]; [|discriminate].
  destruct (truthy (kc_certpackets kc)) eqn:Hcert; simpl in H; [|discriminate].
  destruct (String.eqb_spec (ip_membership ms) "IN") as [HIN|]; simpl in H; [|discriminate].
  destruct (wk_hasValidUdid2 key) eqn:Hudid; simpl in H; [|discriminate].
  destruct (String.eqb_spec (ip_userid ms) (wk_userID key)) as [Huid|]; simpl in H;
    [|discriminate].
  destruct (String.eqb_spec (unix2dos (stripFinalNewline (wk_newcomerPackets key)))
              (unix2dos (stripFinalNewline (kc_keypackets kc)))) as [Hpk|]; simpl in H;
    [|discriminate].
  apply bind_Ok in H as (certifs & Hcertifs & H).
  apply bind_Ok in H as (certifiers & Hcertifiers & H).
  apply bind_Ok in H as (verified & Hver & H).
  destruct verified; simpl in H; [|discriminate].
  injection H as <-.
  exists key, im, ms, certifs, certifiers. repeat split; assumption.
Qed.

Lemma checkKeychange_U_inv (st : State) (block : KeyBlock) (kc : Keychange)
    (newKeys : JS.obj WrappedKey) (c : option (list string)) :
  kc_type kc = "U" ->
  checkKeychange conf st block kc newKeys = Ok c ->
  kc_membership kc = None
  /\ (truthy (kc_keypackets kc) = true \/ truthy (kc_certpackets kc) = true)
  /\ (truthy (kc_keypackets kc) = true -> hasOnlySubkeyMaterial (kc_keypackets kc) = true)
  /\ (truthy (kc_certpackets kc) = true ->
      hasOnlyCertificationMaterial (kc_certpackets kc) = true)
  /\ exists certifs,
       toPacketlist (kc_certpackets kc) = Ok certifs
       /\ match certifs with
          | [] => c = kc_certifiers kc
          | _ :: _ => exists certifiers,
                        certifiersOf st certifs (kc_fingerprint kc) newKeys = Ok certifiers
                        /\ c = Some certifiers
          end.
Proof.
  intros Hty. unfold checkKeychange. rewrite Hty. simpl. intros H.
  destruct (kc_membership kc); [discriminate|]. split; [reflexivity|].
  destruct (truthy (kc_keypackets kc)) eqn:Hk, (truthy (kc_certpackets kc)) eqn:Hc;
    simpl in H; try discriminate.
  - destruct (hasOnlySubkeyMaterial (kc_keypackets kc)) eqn:Hs; simpl in H; [|discriminate].
    destruct (hasOnlyCertificationMaterial (kc_certpackets kc)) eqn:Hm; simpl in H;
      [|discriminate].
    apply bind_Ok in H as (certifs & Hcertifs & H).
    repeat split; auto. exists certifs. split; [exact Hcertifs|].
    destruct certifs; [now injection H|].
    apply bind_Ok in H as (certifiers & Hcs & H). injection H as <-. eauto.
  - destruct (hasOnlySubkeyMaterial (kc_keypackets kc)) eqn:Hs; simpl in H; [|discriminate].
    apply bind_Ok in H as (certifs & Hcertifs & H).
    repeat split; auto; try discriminate. exists certifs. split; [exact Hcertifs|].
    destruct certifs; [now injection H|].
    apply bind_Ok in H as (certifiers & Hcs & H). injection H as <-. eauto.
  - destruct (hasOnlyCertificationMaterial (kc_certpackets kc)) eqn:Hm; simpl in H;
      [|discriminate].
    apply bind_Ok in H as (certifs & Hcertifs & H).
    repeat split; auto; try discriminate. exists certifs. split; [exact Hcertifs|].
    destruct certifs; [now injection H|].
    apply bind_Ok in H as (certifiers & Hcs & H). injection H as <-. eauto.
Qed.

(** X4: in an applied block, every NEWCOMER keychange carries key packets
    that decode to a key with a valid udid2 and re-encode to themselves,
    certification packets, and an IN membership for the user id of the
    key whose signature verifies under the key; every UPDATE keychange
    carries no membership, brings subkeys or certifications, and nothing
    else in either part. *)
Theorem applied_keychanges_are_well_formed (now : Z) (kb : Submission) (st st' : State)
    (b : KeyBlock) :
  submit now kb st = (Ok b, st') ->
  forall kc, In kc (kb_keysChanges (receivedBlock kb)) ->
    (kc_type kc = "N" ->
     exists key im ms,
       fromEncodedPackets (kc_keypackets kc) = Ok key
       /\ wk_hasValidUdid2 key = true
       /\ unix2dos (stripFinalNewline (wk_newcomerPackets key))
          = unix2dos (stripFinalNewline (kc_keypackets kc))
       /\ truthy (kc_certpackets kc) = true
       /\ kc_membership kc = Some im
       /\ fromInline (im_membership im) (im_signature im) = Ok ms
       /\ ip_membership ms = "IN"
       /\ ip_userid ms = wk_userID key
       /\ verifyDetached (wk_armored key)
            (membershipRaw ms (currency conf) (wk_userID key)) (ip_signature ms) = Ok true)
    /\ (kc_type kc = "U" ->
        kc_membership kc = None
        /\ (truthy (kc_keypackets kc) = true \/ truthy (kc_certpackets kc) = true)
        /\ (truthy (kc_keypackets kc) = true ->
            hasOnlySubkeyMaterial (kc_keypackets kc) = true)
        /\ (truthy (kc_certpackets kc) = true ->
            hasOnlyCertificationMaterial (kc_certpackets kc) = true)).
Proof.
  intros H kc Hin. apply submit_Ok_inv in H as (nl & Hc & _).
  apply checks_Ok_inv in Hc as (_ & _ & _ & _ & Hkc & _).
  apply checkKeychanges_each in Hkc as (newKeys & _ & Hall).
  destruct (Hall kc Hin) as (_ & c & Hcheck). split; intros Hty.
  - destruct (checkKeychange_N_inv st _ kc newKeys c Hty Hcheck)
      as (key & im & ms & certifs & certifiers & H1 & H2 & H3 & H4 & H5 & H6 & H7 & H8
          & _ & _ & H11 & _).
    exists key, im, ms. repeat split; assumption.
  - destruct (checkKeychange_U_inv st _ kc newKeys c Hty Hcheck) as (H1 & H2 & H3 & H4 & _).
    repeat split; assumption.
Qed.

(** *** Who certifies *)

Lemma PublicKey_getTheOne_fingerprint (st : State) (fpr : string) (pk : PublicKey) :
  PublicKey_getTheOne st fpr = Ok pk -> pk_fingerprint pk = fpr.
Proof.
  unfold PublicKey_getTheOne.
  destruct (List.find _ (st_pubkeys st)) as [pk'|] eqn:Hfind; [|discriminate].
  intros H. injection H as <-. apply find_some in Hfind as [_ Heq].
  now apply String.eqb_eq in Heq.
Qed.

Lemma foundNewcomer_key (keyID : string) (newKeys : JS.obj WrappedKey) (fpr : string) :
  foundNewcomer keyID newKeys = Some fpr -> In fpr (JS.keys newKeys).
Proof.
  unfold foundNewcomer.
  destruct (last (List.filter (JS.endsWith keyID) (JS.keys newKeys))) as [f|] eqn:Hlast;
    [|discriminate].
  destruct (truthy f); [|discriminate]. intros H. injection H as <-.
  assert (Hin : In f (List.filter (JS.endsWith keyID) (JS.keys newKeys))).
  { apply list_elem_of_In. apply last_Some in Hlast as (l' & ->).
    apply elem_of_app. right. apply list_elem_of_singleton. reflexivity. }
  now apply filter_In in Hin as [Hin _].
Qed.

Lemma checkCertificationOfKey_certifier (st : State) (certif : Packet)
    (certifiedFPR : string) (newKeys : JS.obj WrappedKey) (certifier : string) :
  checkCertificationOfKey st certif certifiedFPR newKeys = Ok certifier ->
  In certifier (JS.keys newKeys) \/ Key_isMember st certifier = true.
Proof.
  unfold checkCertificationOfKey. intros H.
  apply bind_Ok in H as (pubkeyCertified & _ & H).
  apply bind_Ok in H as (certifierFPR & Hfpr & H).
  apply bind_Ok in H as (pubkeyCertifier & Hpk & H).
  apply PublicKey_getTheOne_fingerprint in Hpk.
  apply bind_Ok in H as ([] & Hmember & H).
  destruct (certifVerify certif pubkeyCertifier pubkeyCertified); [|discriminate].
  injection H as <-. rewrite Hpk.
  destruct (foundNewcomer (pkt_issuerKeyId certif) newKeys) as [f|] eqn:Hfound.
  - left. injection Hfpr as <-. now apply foundNewcomer_key in Hfound.
  - right. apply failWhen_Ok in Hmember. now apply negb_false_iff in Hmember.
Qed.

Lemma certifiersOf_certifier (st : State) (certifiedFPR : string)
    (newKeys : JS.obj WrappedKey) :
  forall (certifs : list Packet) (certifiers : list string),
    certifiersOf st certifs certifiedFPR newKeys = Ok certifiers ->
    forall certifier, In certifier certifiers ->
      In certifier (JS.keys newKeys) \/ Key_isMember st certifier = true.
Proof.
  induction certifs as [|certif certifs IH]; intros certifiers H certifier Hin; simpl in H.
  - injection H as <-. destruct Hin.
  - apply bind_Ok in H as (c & Hc & H). apply bind_Ok in H as (others & Ho & H).
    injection H as <-. destruct Hin as [<-|Hin].
    + now apply checkCertificationOfKey_certifier in Hc.
    + exact (IH others Ho certifier Hin).
Qed.

Lemma set_entries {V} (k : string) (v : V) (o : JS.obj V) (k' : string) (v' : V) :
  In (k', v') (JS.set k v o) -> (k' = k /\ v' = v) \/ In (k', v') o.
Proof.
  induction o as [|[k1 v1] o IH]; simpl.
  - intros [H|[]]. injection H as <- <-. now left.
  - destruct (String.eqb_spec k k1) as [->|Hne]; simpl.
    + intros [H|H]; [injection H as <- <-; now left | right; now right].
    + intros [H|H]; [right; now left|].
      destruct (IH H) as [Heq|Hin]; [now left | right; now right].
Qed.

Lemma memorizeNewKeys_keys :
  forall (kcs : list Keychange) (acc newKeys : JS.obj WrappedKey),
    memorizeNewKeys kcs acc = Ok newKeys ->
    forall k, In k (JS.keys newKeys) ->
      In k (JS.keys acc)
      \/ exists kc, In kc kcs /\ kc_type kc = "N" /\ kc_fingerprint kc = k.
Proof.
  induction kcs as [|kc kcs IH]; intros acc newKeys H k Hk; simpl in H.
  - injection H as <-. now left.
  - destruct (String.eqb_spec (kc_type kc) "N") as [Hty|Hty].
    + apply bind_Ok in H as (key & _ & H).
      destruct (IH _ _ H k Hk) as [Hacc | (kc' & Hin & Hty' & Hfp)].
      * unfold JS.keys in Hacc. apply in_map_iff in Hacc as ([k1 v1] & <- & Hin).
        apply set_entries in Hin as [[-> _] | Hin].
        -- right. exists kc. split; [now left | auto].
        -- left. unfold JS.keys. apply in_map_iff. exists (k1, v1). auto.
      * right. exists kc'. split; [now right | auto].
    + destruct (IH _ _ H k Hk) as [Hacc | (kc' & Hin & Hty' & Hfp)]; [now left|].
      right. exists kc'. split; [now right | auto].
Qed.

Lemma foldSeries_invariant {A S} (f : S -> A -> result S) (I : S -> Prop) (l : list A) :
  (forall s x s', In x l -> I s -> f s x = Ok s' -> I s') ->
  forall s s', I s -> foldSeries f s l = Ok s' -> I s'.
Proof.
  induction l as [|x l IH]; intros Hf s s' Hs H; simpl in H.
  - now injection H as <-.
  - apply bind_Ok in H as (s1 & Hx & H).
    apply (IH (fun s0 y s0' Hy => Hf s0 y s0' (or_intror Hy)) s1 s'); [|exact H].
    exact (Hf s x s1 (or_introl eq_refl) Hs Hx).
Qed.

(** X5: when the keychanges of a block arrive without [certifiers] of
    their own, every link the validation of the block yields goes to the
    fingerprint of one of its keychanges and comes from a current member
    or from the fingerprint of a NEWCOMER keychange of the same block. *)
Theorem new_links_come_from_members_or_newcomers (st : State) (block : KeyBlock)
    (newLinks : NewLinks) :
  (forall kc, In kc (kb_keysChanges block) -> kc_certifiers kc = None) ->
  checkKeychanges conf st block = Ok newLinks ->
  forall target sources, In (target, Some sources) newLinks ->
    (exists kc, In kc (kb_keysChanges block) /\ kc_fingerprint kc = target)
    /\ forall source, In source sources ->
         Key_isMember st source = true
         \/ exists kc, In kc (kb_keysChanges block) /\ kc_type kc = "N"
                       /\ kc_fingerprint kc = source.
Proof.
  intros Hnone H.
  set (P := fun source =>
              Key_isMember st source = true
              \/ exists kc, In kc (kb_keysChanges block) /\ kc_type kc = "N"
                            /\ kc_fingerprint kc = source).
  change (sourcesAmong P (kb_keysChanges block) newLinks).
  unfold checkKeychanges in H. apply bind_Ok in H as (newKeys & Hkeys & H).
  assert (Hcert : forall kc c, In kc (kb_keysChanges block) ->
            checkKeychange conf st block kc newKeys = Ok c ->
            forall sources, c = Some sources -> forall source, In source sources -> P source).
  { intros kc c Hin Hc sources -> source Hsrc.
    assert (Hfrom : forall certifs,
              certifiersOf st certifs (kc_fingerprint kc) newKeys = Ok sources -> P source).
    { intros certifs Hcs.
      destruct (certifiersOf_certifier st _ newKeys certifs sources Hcs source Hsrc)
        as [Hk | Hm]; [|now left].
      destruct (memorizeNewKeys_keys _ _ _ Hkeys source Hk) as [[] | Hkc]. now right. }
    unfold checkKeychange in Hc.
    destruct (String.eqb_spec (kc_type kc) "N") as [Hty|HtyN].
    - fold (checkKeychange conf st block kc newKeys) in Hc.
      destruct (checkKeychange_N_inv st block kc newKeys (Some sources) Hty)
        as (_ & _ & _ & certifs & certifiers & _ & _ & _ & _ & _ & _ & _ & _ & _ & Hcs & _ & Heq).
      { unfold checkKeychange. destruct (String.eqb_spec (kc_type kc) "N"); [exact Hc|].
        contradiction. }
      injection Heq as <-. exact (Hfrom certifs Hcs).
    - destruct (String.eqb_spec (kc_type kc) "U") as [Hty|HtyU].
      + destruct (checkKeychange_U_inv st block kc newKeys (Some sources) Hty)
          as (_ & _ & _ & _ & certifs & _ & Hcase).
        { unfold checkKeychange.
          destruct (String.eqb_spec (kc_type kc) "N"); [contradiction|].
          destruct (String.eqb_spec (kc_type kc) "U"); [exact Hc | contradiction]. }
        destruct certifs as [|certif certifs].
        * rewrite (Hnone kc Hin) in Hcase. discriminate.
        * destruct Hcase as (certifiers & Hcs & Heq). injection Heq as <-.
          exact (Hfrom _ Hcs).
      + destruct (String.eqb (kc_type kc) "L"); [discriminate|].
        destruct (String.eqb (kc_type kc) "B"); discriminate. }
  assert (Hpass : forall ty links links',
            sourcesAmong P (kb_keysChanges block) links ->
            checkKeychangesOfType conf st block newKeys links ty = Ok links' ->
            sourcesAmong P (kb_keysChanges block) links').
  { intros ty links links' Hlinks Hty. unfold checkKeychangesOfType in Hty.
    revert Hlinks Hty.
    apply (foldSeries_invariant _ (sourcesAmong P (kb_keysChanges block))).
    intros s kc s' Hin Hs Hstep.
    destruct (negb (String.eqb (kc_type kc) "U") && negb (String.eqb (kc_type kc) "N"));
      [discriminate|].
    destruct (negb (String.eqb (kc_type kc) ty)); [now injection Hstep as <-|].
    apply bind_Ok in Hstep as (c & Hc & Hstep). injection Hstep as <-.
    intros target sources Hentry.
    apply set_entries in Hentry as [[-> Heq] | Hold]; [|exact (Hs target sources Hold)].
    split; [exists kc; auto|].
    exact (Hcert kc c Hin Hc sources (eq_sym Heq)). }
  simpl in H. apply bind_Ok in H as (links1 & HN & H).
  apply bind_Ok in H as (links2 & HU & H). injection H as <-.
  apply (Hpass "U" links1 links2); [|exact HU].
  apply (Hpass "N" [] links1); [|exact HN].
  intros target sources [].
Qed.

(** *** The level of the proof of work *)

(** X6: for an issuer whose last block has leading zeros, and a period
    that is a positive integer, with block numbers, period, [powZeroMin]
    and the zeros of the last hash all non-negative safe integers (where
    the division of JavaScript is the division of integers), the required
    level is the maximum of [powZeroMin] and the zeros of the last hash
    plus one minus the periods waited.  It is never below [powZeroMin];
    within the first period after the last block it is the zeros of the
    last hash plus one (when that is at least [powZeroMin]); and once as
    many periods have passed as the last hash exceeds [powZeroMin], plus
    one, it is [powZeroMin] again. *)
Theorem trial_level_decays_by_period (st : State) (issuer : string) (number size : Z)
    (last : KeyBlock) (p : Z) :
  KeyBlock_lastOfIssuer st issuer = Some last ->
  JS.leadingZeros (kb_hash last) <> 0 ->
  (if powPeriodC conf then JS.Int (powPeriod conf) else percentOfWoT conf size) = JS.Int p ->
  0 < p ->
  0 <= kb_number last <= number ->
  0 <= powZeroMin conf ->
  JS.isSafeInteger number = true ->
  JS.isSafeInteger p = true ->
  JS.isSafeInteger (powZeroMin conf) = true ->
  JS.isSafeInteger (JS.leadingZeros (kb_hash last) + 1) = true ->
  let zeros := JS.leadingZeros (kb_hash last) in
  let waited := (number - kb_number last) / p in
  exists level,
    getTrialLevel conf st issuer number size = Ok (JS.Int level)
    /\ level = Z.max (powZeroMin conf) (zeros + 1 - waited)
    /\ powZeroMin conf <= level
    /\ (number < kb_number last + p -> powZeroMin conf <= zeros + 1 ->
        level = zeros + 1)
    /\ (kb_number last + p * (zeros + 1 - powZeroMin conf) <= number ->
        level = powZeroMin conf).
Proof.
  intros Hlast Hz Hp Hpos Hnum0 Hmin0 _ _ _ _ zeros waited.
  exists (Z.max (powZeroMin conf) (zeros + 1 - waited)).
  split.
  { rewrite (getTrialLevel_integer_period conf st issuer number size last p Hlast Hz Hp);
      [|lia].
    fold zeros waited. do 3 f_equal. lia. }
  split; [reflexivity|]. split; [lia|]. split.
  - intros Hnum Hmin. assert (waited = 0) as ->; [|lia].
    subst waited. apply Z.div_small. lia.
  - intros Hnum. assert (zeros + 1 - powZeroMin conf <= waited); [|lia].
    subst waited. apply Z.div_le_lower_bound; [lia|]. lia.
Qed.


(** X8: against an integer level [z] at least [powZeroMin] (itself not
    negative), [checkProofOfWork] passes exactly the hashes with at least
    [z] leading zeros.  A hash with fewer than [powZeroMin] zeros is 'Not
    a proof-of-work'; a hash with at least one zero but fewer than [z] is
    rejected with both counts in the message; a hash without any leading
    zero that gets past the first test makes the message itself throw. *)
Theorem proof_of_work_verdict (st : State) (current : option KeyBlock) (block : KeyBlock)
    (z : Z) :
  getTrialLevel conf st (kb_issuer block) (kb_number block)
    (match current with Some cur => kb_membersCount cur | None => 0 end) = Ok (JS.Int z) ->
  0 <= powZeroMin conf <= z ->
  let zeros := JS.leadingZeros (kb_hash block) in
  (checkProofOfWork conf st current block = Ok tt <-> z <= zeros)
  /\ (zeros < powZeroMin conf ->
      checkProofOfWork conf st current block = Err "Not a proof-of-work")
  /\ (powZeroMin conf <= zeros < z -> 0 < zeros ->
      checkProofOfWork conf st current block
      = Err ("Wrong proof-of-work level: given " +:+ JS.toString zeros
             +:+ " zeros, required was " +:+ JS.toString z +:+ " zeros"))
  /\ (powZeroMin conf <= zeros < z -> zeros = 0 ->
      checkProofOfWork conf st current block = Crash).
Proof.
  intros Hlevel Hz zeros.
  split; [exact (checkProofOfWork_level conf st current block z Hlevel Hz)|].
  unfold checkProofOfWork. rewrite Hlevel. simpl. unfold JS.matchZeros. fold zeros.
  destruct Hz as [Hmin Hz].
  destruct (Z.leb_spec 0 (powZeroMin conf)) as [_|]; [|lia].
  destruct (Z.leb_spec 0 z) as [_|]; [|lia].
  split; [|split].
  - intros Hlt. destruct (Z.leb_spec (powZeroMin conf) zeros); [lia | reflexivity].
  - intros [H1 H2] Hpos. destruct (Z.leb_spec (powZeroMin conf) zeros); [|lia]. simpl.
    destruct (Z.leb_spec z zeros); [lia|]. simpl.
    destruct (Z.eqb_spec zeros 0); [lia | reflexivity].
  - intros [H1 H2] Hzero. destruct (Z.leb_spec (powZeroMin conf) zeros); [|lia]. simpl.
    destruct (Z.leb_spec z zeros); [lia|]. simpl.
    destruct (Z.eqb_spec zeros 0); [reflexivity | lia].
Qed.

(** *** The search for a proof of work *)

Lemma iteration_quiet (sigFunc : string -> string) (t : Tick) (s : Search) :
  iteration sigFunc (quiet t) s = iteration sigFunc t s.
Proof. reflexivity. Qed.

Lemma cancels_quiet (t : Tick) (n : Z) : cancels (quiet t) n = false.
Proof. unfold cancels, quiet. simpl. now rewrite andb_false_r. Qed.

Lemma whilst_quiet (nbZeros : JS.num) (sigFunc : string -> string) (ticks : list Tick) :
  forall s : Search,
    whilst nbZeros sigFunc (map quiet ticks) s
    = List.filter isProved (whilst nbZeros sigFunc ticks s).
Proof.
  induction ticks as [|t ticks IH]; intros s.
  - rewrite (whilst_eq nbZeros sigFunc (map quiet []) s), (whilst_eq nbZeros sigFunc [] s).
    simpl. destruct (JS.matchZeros nbZeros "}" (s_pow s)); reflexivity.
  - rewrite (whilst_eq nbZeros sigFunc (map quiet (t :: ticks)) s),
      (whilst_eq nbZeros sigFunc (t :: ticks) s).
    change (map quiet (t :: ticks)) with (quiet t :: map quiet ticks). cbv iota.
    destruct (JS.matchZeros nbZeros "}" (s_pow s)); [reflexivity|].
    rewrite iteration_quiet, cancels_quiet, IH, List.filter_app.
    destruct (cancels t (s_testsCount (iteration sigFunc t s))); reflexivity.
Qed.

Lemma whilst_shape (nbZeros : JS.num) (sigFunc : string -> string) (ticks : list Tick) :
  forall s : Search,
    exists n tail,
      whilst nbZeros sigFunc ticks s
      = (repeat (PowCancelled "New block received") n ++ tail)%list
      /\ (tail = [] \/ exists b, tail = [Proved b]).
Proof.
  induction ticks as [|t ticks IH]; intros s; rewrite whilst_eq.
  - destruct (JS.matchZeros nbZeros "}" (s_pow s)).
    + exists 0%nat. eexists. split; [reflexivity | right; eauto].
    + exists 0%nat, []. split; [reflexivity | now left].
  - destruct (JS.matchZeros nbZeros "}" (s_pow s)).
    + exists 0%nat. eexists. split; [reflexivity | right; eauto].
    + destruct (IH (iteration sigFunc t s)) as (n & tail & -> & Htail).
      destruct (cancels t (s_testsCount (iteration sigFunc t s))).
      * exists (S n), tail. split; [reflexivity | exact Htail].
      * exists n, tail. split; [reflexivity | exact Htail].
Qed.

(** X9: [prove] hands over at most one block, and calls [done] no more
    after it: its calls are reports of 'New block received' followed by
    at most one block.  A report does not stop the search: the block
    handed over, if any, is the one the search finds when no received
    block is ever waiting.  With a level of 0 the block is handed over at
    once, without a clock reading, with the empty signature. *)
Theorem prove_reports_then_at_most_one_block (block : KeyBlock)
    (sigFunc : string -> string) (nbZeros : JS.num) (ticks : list Tick) :
  (exists n tail,
     prove block sigFunc nbZeros ticks
     = (repeat (PowCancelled "New block received") n ++ tail)%list
     /\ (tail = [] \/ exists b, tail = [Proved b]))
  /\ prove block sigFunc nbZeros (map quiet ticks)
     = List.filter isProved (prove block sigFunc nbZeros ticks)
  /\ prove block sigFunc (JS.Int 0) ticks = [Proved (withSignature block "")].
Proof.
  split; [apply whilst_shape|]. split; [apply whilst_quiet|].
  unfold prove. rewrite whilst_eq. reflexivity.
Qed.




(** *** The membership pool *)

Lemma submitMembership_cases (entry : Membership) (st : State) :
  (membershipLetThrough st entry
   /\ submitMembership entry st
      = (Ok entry, Membership_save (Membership_removeEligible st (ms_issuer entry)) entry))
  \/ (~ membershipLetThrough st entry
      /\ exists r, submitMembership entry st = (r, st) /\ forall m, r <> Ok m).
Proof.
  rewrite submitMembership_unfold. cbv zeta. unfold membershipLetThrough.
  assert (Hafter :
    forall dateOk : Prop, dateOk ->
    let isMember := Key_isMember st (ms_issuer entry) in
    let isJoin := String.eqb (ms_membership entry) "IN" in
    let saved :=
      (Ok entry, Membership_save (Membership_removeEligible st (ms_issuer entry)) entry) in
    let afterDate :=
      if negb isMember && isJoin then
        match hasEligiblePubkey st (ms_issuer entry) with
        | Ok true => saved
        | Ok false => (Err "Needs an eligible public key (with udid2)", st)
        | Err e => (Err e, st)
        | Crash => (Crash, st)
        | Hang => (Hang, st)
        end
      else if isMember && negb isJoin then saved
      else if isJoin then (Err "A member cannot join in.", st)
      else (Err "A non-member cannot leave.", st) in
    (dateOk
     /\ ((isMember = false /\ ms_membership entry = "IN"
          /\ hasEligiblePubkey st (ms_issuer entry) = Ok true)
         \/ (isMember = true /\ ms_membership entry <> "IN"))
     /\ afterDate = saved)
    \/ (~ (dateOk
           /\ ((isMember = false /\ ms_membership entry = "IN"
                /\ hasEligiblePubkey st (ms_issuer entry) = Ok true)
               \/ (isMember = true /\ ms_membership entry <> "IN")))
        /\ exists r, afterDate = (r, st) /\ forall m, r <> Ok m)).
  { intros dateOk Hd. cbv zeta.
    destruct (Key_isMember st (ms_issuer entry));
      destruct (String.eqb_spec (ms_membership entry) "IN") as [HIN|HIN]; simpl.
    - right. split; [intros (_ & [(H1 & _) | (_ & H2)]); [discriminate | contradiction]|].
      eexists. split; [reflexivity | intros m; discriminate].
    - left. split; [exact Hd|]. split; [now right | reflexivity].
    - destruct (hasEligiblePubkey st (ms_issuer entry)) as [[]|?| |].
      + left. split; [exact Hd|]. split; [left; auto | reflexivity].
      + right. split; [intros (_ & [(_ & _ & H3) | (H1 & _)]); discriminate|].
        eexists. split; [reflexivity | intros m; discriminate].
      + right. split; [intros (_ & [(_ & _ & H3) | (H1 & _)]); discriminate|].
        eexists. split; [reflexivity | intros m; discriminate].
      + right. split; [intros (_ & [(_ & _ & H3) | (H1 & _)]); discriminate|].
        eexists. split; [reflexivity | intros m; discriminate].
      + right. split; [intros (_ & [(_ & _ & H3) | (H1 & _)]); discriminate|].
        eexists. split; [reflexivity | intros m; discriminate].
    - right. split; [intros (_ & [(_ & H2 & _) | (H1 & _)]); [contradiction | discriminate]|].
      eexists. split; [reflexivity | intros m; discriminate]. }
  destruct (Membership_getForHashAndIssuer st (ms_hash entry) (ms_issuer entry)) as [|e0 ?].
  - destruct (Hafter True I) as [(Hd & Hc & ->) | (Hn & r & -> & Hr)].
    + left. split; [split; assumption | reflexivity].
    + right. split; [exact Hn | eauto].
  - destruct (Z.ltb_spec (ms_date entry) (ms_date e0)) as [Hlt|Hge].
    + right. split; [intros (Hd & _); lia|].
      eexists. split; [reflexivity | intros m; discriminate].
    + destruct (Hafter (ms_date e0 <= ms_date entry) Hge)
        as [(Hd & Hc & ->) | (Hn & r & -> & Hr)].
      * left. split; [split; assumption | reflexivity].
      * right. split; [exact Hn | eauto].
Qed.

(** X11: [submitMembership] accepts exactly the requests that pass the
    date test and are either an IN of a non-member with an eligible
    public key, or anything but an IN of a member (the kind of a leave is
    not looked at further).  An accepted request is returned as it came,
    after the eligible entries of its issuer were dropped and it was
    added; any other outcome leaves every store as it was. *)
Theorem submitMembership_acceptance (entry : Membership) (st : State) :
  ((exists m st', submitMembership entry st = (Ok m, st'))
   <-> membershipLetThrough st entry)
  /\ (forall m st', submitMembership entry st = (Ok m, st') ->
        m = entry
        /\ st' = Membership_save (Membership_removeEligible st (ms_issuer entry)) entry)
  /\ (forall r st', submitMembership entry st = (r, st') ->
        (forall m, r <> Ok m) -> st' = st).
Proof.
  destruct (submitMembership_cases entry st) as [(Hacc & Hs) | (Hn & r0 & Hs & Hr)];
    rewrite Hs.
  - split; [split; [intros _; exact Hacc | intros _; eauto]|].
    split.
    + intros m st' H. injection H as <- <-. auto.
    + intros r st' H Hnot. injection H as <- <-. exfalso. now apply (Hnot entry).
  - split; [split; [intros (m & st' & H); injection H as -> _; now destruct (Hr m)
                   | intros Hacc; contradiction]|].
    split.
    + intros m st' H. injection H as -> _. now destruct (Hr m).
    + intros r st' H _. now injection H.
Qed.

Lemma filter_filter_negb {A} (p : A -> bool) (l : list A) :
  List.filter p (List.filter (fun x => negb (p x)) l) = [].
Proof.
  induction l as [|x l IH]; simpl; [reflexivity|].
  destruct (p x) eqn:Hp; simpl; [exact IH|]. now rewrite Hp.
Qed.

(** X12: after an accepted request the pool holds, for the issuer of the
    request, the request as its one eligible entry (none when the
    request is not eligible itself); the entries of the other issuers are
    the ones the pool held, in their order. *)
Theorem pool_keeps_one_eligible_entry_per_issuer (entry m : Membership) (st st' : State) :
  submitMembership entry st = (Ok m, st') ->
  List.filter (fun x => String.eqb (ms_issuer x) (ms_issuer entry) && ms_eligible x)
              (st_memberships st')
  = (if ms_eligible entry then [entry] else [])
  /\ List.filter (fun x => negb (String.eqb (ms_issuer x) (ms_issuer entry)))
                 (st_memberships st')
     = List.filter (fun x => negb (String.eqb (ms_issuer x) (ms_issuer entry)))
                   (st_memberships st)
  /\ In entry (st_memberships st').
Proof.
  intros H.
  destruct (submitMembership_cases entry st) as [(_ & Hs) | (_ & r0 & Hs & Hr)];
    rewrite Hs in H; [|injection H as -> _; now destruct (Hr m)].
  injection H as _ <-.
  unfold Membership_save, Membership_removeEligible. simpl.
  rewrite !List.filter_app. simpl. rewrite String.eqb_refl. simpl.
  split; [|split].
  - rewrite (filter_filter_negb
               (fun x => String.eqb (ms_issuer x) (ms_issuer entry) && ms_eligible x)).
    destruct (ms_eligible entry); reflexivity.
  - rewrite app_nil_r.
    induction (st_memberships st) as [|x l IH]; simpl; [reflexivity|].
    destruct (String.eqb (ms_issuer x) (ms_issuer entry)) eqn:Hi; simpl.
    + destruct (ms_eligible x); simpl; [exact IH|]. rewrite Hi. simpl. exact IH.
    + rewrite Hi. simpl. now rewrite IH.
  - apply in_or_app. right. now left.
Qed.

(** *** The builders of the next block *)

Lemma insertSorted_Permutation (x : string) (l : list string) :
  Permutation (insertSorted x l) (x :: l).
Proof.
  induction l as [|y l IH]; simpl; [reflexivity|].
  destruct (String.leb x y); [reflexivity|].
  rewrite IH. apply perm_swap.
Qed.

Lemma jsSort_Permutation (l : list string) : Permutation (jsSort l) l.
Proof.
  induction l as [|x l IH]; simpl; [reflexivity|].
  rewrite insertSorted_Permutation. now constructor.
Qed.

Lemma jsSort_In (x : string) (l : list string) : In x (jsSort l) <-> In x l.
Proof.
  split; apply Permutation_in; [|symmetry]; apply jsSort_Permutation.
Qed.

Lemma jsSort_length (l : list string) : List.length (jsSort l) = List.length l.
Proof. apply Permutation_length, jsSort_Permutation. Qed.

Lemma no_newcomer_among_leavers (l : list string) :
  newcomersOf (map (fun fpr => "-" +:+ fpr) l) = [].
Proof.
  unfold newcomersOf. induction l as [|x l IH]; simpl; [reflexivity|exact IH].
Qed.

Lemma checkKicked_verdict (st : State) (block : KeyBlock) (newLinks : NewLinks) :
  checkKicked st block newLinks
  = match Key_getToBeKicked st with [] => Ok tt | _ :: _ => Crash end.
Proof.
  unfold checkKicked. destruct (Key_getToBeKicked st); reflexivity.
Qed.

Lemma newcomersOf_joining (l : list string) :
  newcomersOf (map (fun fpr => "+" +:+ fpr) l) = l.
Proof.
  unfold newcomersOf.
  assert (List.filter JS.startsWithPlus (map (fun fpr => "+" +:+ fpr) l)
          = map (fun fpr => "+" +:+ fpr) l) as ->.
  { induction l as [|x l IH]; simpl; [reflexivity | now rewrite IH]. }
  rewrite map_map. rewrite <- (map_id l) at 2. apply map_ext.
  intros x. apply (substringFrom_1 "+" x).
Qed.

Lemma uniqFrom_NoDup (seen l : list string) :
  List.NoDup (uniqFrom seen l)
  /\ forall x, In x (uniqFrom seen l) -> In x l /\ ~ In x seen.
Proof.
  revert seen. induction l as [|y l IH]; intros seen; simpl.
  - split; [apply List.NoDup_nil | intros x []].
  - destruct (JS.includes y seen) eqn:Hy.
    + destruct (IH seen) as [Hnd Hin]. split; [exact Hnd|].
      intros x Hx. destruct (Hin x Hx). auto.
    + destruct (IH (y :: seen)) as [Hnd Hin]. split.
      * apply List.NoDup_cons; [|exact Hnd]. intros Hx. destruct (Hin y Hx) as [_ Hn].
        apply Hn. now left.
      * intros x [<-|Hx].
        -- split; [now left|]. intros Hs. apply includes_In in Hs. congruence.
        -- destruct (Hin x Hx) as [Hl Hn]. split; [now right|].
           intros Hs. apply Hn. now right.
Qed.

Section Builders.

Context {enc : Encoding}.

(** X13: on a node with a current block, [generateEmptyNext] always
    yields a block.  The block passes the chaining tests against the
    current block, brings no keychange, and asks to remove exactly the
    members flagged [kick]; its [membersCount] is the number of the other
    members.  The node's own [checkCoherence] answers it with an
    exception as soon as one member is to be kicked, and accepts it with
    no new link otherwise. *)
Theorem empty_next_block_against_the_checks (st : State) (cur : KeyBlock) :
  KeyBlock_current st = Some cur ->
  0 <= kb_number cur ->
  exists b,
    generateEmptyNext st = Ok b
    /\ testChaining (Some cur) b = Ok tt
    /\ kb_keysChanges b = []
    /\ (forall mc, In mc (kb_membersChanges b)
          <-> exists fpr row, mc = "-" +:+ fpr /\ In (fpr, row) (Key_getMembers st)
                              /\ key_kick row = true)
    /\ kb_membersCount b
       = Z.of_nat (List.length (List.filter (fun mKey => negb (key_kick (snd mKey)))
                                            (Key_getMembers st)))
    /\ checkCoherence conf st b
       = match Key_getToBeKicked st with [] => Ok [] | _ :: _ => Crash end.
Proof.
  intros Hcur Hnum. unfold generateEmptyNext. rewrite Hcur.
  eexists. split; [reflexivity|].
  split.
  { unfold testChaining, createNextEmptyBlock. simpl.
    replace (kb_number cur + 1 <=? kb_number cur) with false by lia.
    replace (kb_number cur + 1 <? kb_number cur + 1) with false by lia.
    rewrite !String.eqb_refl, !andb_false_r. reflexivity. }
  split; [reflexivity|].
  split.
  { intros mc. simpl. rewrite in_map_iff. split.
    - intros (fpr & <- & Hin). apply (proj1 (jsSort_In _ _)) in Hin.
      apply in_map_iff in Hin as ([fpr' row] & <- & Hin).
      apply List.filter_In in Hin as (Hin & Hk). simpl in Hk. eauto.
    - intros (fpr & row & -> & Hin & Hk). exists fpr. split; [reflexivity|].
      apply (proj2 (jsSort_In _ _)). apply in_map_iff. exists (fpr, row). split; [reflexivity|].
      apply List.filter_In. split; assumption. }
  split.
  { simpl. now rewrite jsSort_length, length_map. }
  unfold checkCoherence, checkKeychanges, checkWoTStability, checkCommunityChanges.
  cbn [createNextEmptyBlock kb_keysChanges kb_membersChanges kb_number
       memorizeNewKeys bind foldSeries checkKeychangesOfType getMemberships
       JS.values map fold_left].
  replace (0 <=? kb_number cur + 1) with true by lia.
  rewrite no_newcomer_among_leavers. cbn [forEachSeries bind].
  rewrite checkKicked_verdict. destruct (Key_getToBeKicked st); reflexivity.
Qed.

(** X14: [createNewcomerBlock] refuses only to make a root block without
    members.  The block it makes passes the chaining tests against the
    current block (as a root block when there is none); its members'
    changes are one [+] entry for each key of [joinData] when members are
    given and none otherwise, never a removal; its keychanges are the
    NEWCOMER keychanges of the joins, in their order, followed by UPDATE
    keychanges of pairwise distinct fingerprints, each with a packet in
    [updates] or [subupdates]. *)
Theorem newcomer_block_shape (current : option KeyBlock) (members : option (list string))
    (joinData : JS.obj Join) (updates subupdates : JS.obj (list Packet)) :
  ((exists b, createNewcomerBlock conf current members joinData updates subupdates = Ok b)
   <-> (members <> None \/ current <> None))
  /\ forall b, createNewcomerBlock conf current members joinData updates subupdates = Ok b ->
       testChaining current b = Ok tt
       /\ kb_membersChanges b
          = match members with
             | Some _ => map (fun fpr => "+" +:+ fpr) (JS.keys joinData)
             | None => []
             end
       /\ newcomersOf (kb_membersChanges b) = match members with Some _ => JS.keys joinData | None => [] end
       /\ exists ups,
            kb_keysChanges b = (map newcomerKeychange (JS.values joinData) ++ ups)%list
            /\ List.NoDup (map kc_fingerprint ups)
            /\ forall kc, In kc ups ->
                 kc_type kc = "U"
                 /\ (In (kc_fingerprint kc) (JS.keys updates)
                     \/ In (kc_fingerprint kc) (JS.keys subupdates))
                 /\ hasPackets (kc_fingerprint kc) updates
                    || hasPackets (kc_fingerprint kc) subupdates = true.
Proof.
  unfold createNewcomerBlock. split.
  - destruct members as [ms|]; [|destruct current as [cur|]]; simpl.
    + split; [intros _; now left | intros _; eauto].
    + split; [intros _; now right | intros _; eauto].
    + split; [intros (b & H); discriminate | intros [H|H]; contradiction].
  - intros b H.
    assert (Hb : exists root count,
      b = {| kb_version := 1;
             kb_currency := match current with Some cur => kb_currency cur
                            | None => currency conf end;
             kb_number := match current with Some cur => kb_number cur + 1 | None => 0 end;
             kb_previousHash := match current with Some cur => kb_hash cur | None => "" end;
             kb_previousIssuer := match current with Some cur => kb_issuer cur
                                  | None => "" end;
             kb_timestamp := 0; kb_nonce := 0; kb_issuer := "";
             kb_membersRoot := root; kb_membersCount := count;
             kb_membersChanges :=
               match members with
             | Some _ => map (fun fpr => "+" +:+ fpr) (JS.keys joinData)
             | None => []
             end;
             kb_keysChanges :=
               (map newcomerKeychange (JS.values joinData)
                ++ map (updateKeychange updates subupdates)
                       (List.filter
                          (fun fpr => hasPackets fpr updates || hasPackets fpr subupdates)
                          (uniq (JS.keys updates ++ JS.keys subupdates))))%list;
             kb_signature := ""; kb_hash := "" |}).
    { destruct members as [ms|]; [|destruct current as [cur|]]; simpl in H;
        [| |discriminate]; injection H as <-; eauto. }
    clear H. destruct Hb as (root & count & ->). cbn [kb_membersChanges kb_keysChanges].
    split.
    { unfold testChaining. destruct current as [cur|]; simpl; [|reflexivity].
      replace (kb_number cur + 1 <=? kb_number cur) with false by lia.
      replace (kb_number cur + 1 <? kb_number cur + 1) with false by lia.
      rewrite !String.eqb_refl, !andb_false_r. reflexivity. }
    split; [reflexivity|].
    split.
    { destruct members; [apply newcomersOf_joining | reflexivity]. }
    eexists. split; [reflexivity|].
    destruct (uniqFrom_NoDup [] (JS.keys updates ++ JS.keys subupdates)%list) as [Hnd Hin].
    split.
    { rewrite map_map. simpl. rewrite map_id. apply List.NoDup_filter. exact Hnd. }
    intros kc Hkc. apply in_map_iff in Hkc as (fpr & <- & Hf).
    apply List.filter_In in Hf as (Hf & Hp). simpl.
    split; [reflexivity|]. split; [|exact Hp].
    destruct (Hin fpr Hf) as [Hl _]. apply in_app_or in Hl. exact Hl.
Qed.

End Builders.

(** *** Matching certifications with fingerprints *)

Lemma prefix_append (p s : string) :
  String.prefix p s = true <-> exists t, s = p +:+ t.
Proof.
  revert s. induction p as [|a p IH]; intros s.
  - split; [intros _; exists s; reflexivity | intros _; now destruct s].
  - destruct s as [|b s]; simpl.
    + split; [discriminate | intros (t & H); discriminate].
    + destruct (ascii_dec a b) as [->|Hne].
      * rewrite IH. split; intros (t & H); exists t; [now rewrite H | now injection H].
      * split; [discriminate | intros (t & H); injection H as H _; congruence].
Qed.

Lemma append_cons (x : ascii) (a b : string) : String x a +:+ b = String x (a +:+ b).
Proof. reflexivity. Qed.

Lemma append_assoc_strings (a b c : string) : (a +:+ b) +:+ c = a +:+ (b +:+ c).
Proof.
  induction a as [|x a IH]; [reflexivity|]. rewrite !append_cons. now rewrite IH.
Qed.

Lemma append_empty (a : string) : a +:+ "" = a.
Proof.
  induction a as [|x a IH]; [reflexivity|]. rewrite append_cons. now rewrite IH.
Qed.

Lemma rev_app_append (s1 s2 : string) :
  String.rev_app s1 s2 = String.rev_app s1 "" +:+ s2.
Proof.
  revert s2. induction s1 as [|a s1 IH]; intros s2; simpl; [reflexivity|].
  rewrite (IH (String a s2)), (IH (String a "")).
  rewrite append_assoc_strings. reflexivity.
Qed.

Lemma rev_append (a b : string) : String.rev (a +:+ b) = String.rev b +:+ String.rev a.
Proof.
  unfold String.rev. revert b. induction a as [|c a IH]; intros b; simpl.
  - now rewrite append_empty.
  - rewrite (rev_app_append (a +:+ b)), (rev_app_append a (String c "")).
    rewrite IH. now rewrite append_assoc_strings.
Qed.

Lemma rev_rev (s : string) : String.rev (String.rev s) = s.
Proof.
  induction s as [|c s IH]; [reflexivity|].
  change (String c s) with (String c "" +:+ s) at 1.
  rewrite rev_append, rev_append, IH. reflexivity.
Qed.

Lemma endsWith_append (suffix s : string) :
  JS.endsWith suffix s = true <-> exists p, s = p +:+ suffix.
Proof.
  unfold JS.endsWith. rewrite prefix_append. split.
  - intros (t & H). exists (String.rev t).
    rewrite <- (rev_rev s), H, rev_append, rev_rev. reflexivity.
  - intros (p & ->). exists (String.rev p). apply rev_append.
Qed.

Lemma truthy_nonempty (s : string) : truthy s = true <-> s <> "".
Proof.
  unfold truthy. destruct (String.eqb_spec s ""); simpl; split; congruence.
Qed.

(** X15: for a key id of hexadecimal digits, [matchFingerprint] hands
    back the first fingerprint of the list that is not empty and ends
    with the key id, and the empty string when the list has none. *)
Theorem matchFingerprint_first_match (keyID : string) (fingerprints : list string) :
  JS.isHex keyID = true ->
  let matches fpr := fpr <> "" /\ exists p, fpr = p +:+ keyID in
  (matchFingerprint keyID fingerprints = ""
   /\ forall fpr, In fpr fingerprints -> ~ matches fpr)
  \/ (exists before after,
        fingerprints = (before ++ matchFingerprint keyID fingerprints :: after)%list
        /\ matches (matchFingerprint keyID fingerprints)
        /\ forall fpr, In fpr before -> ~ matches fpr).
Proof.
  intros _ matches. induction fingerprints as [|fpr l IH]; simpl.
  - left. split; [reflexivity | intros fpr []].
  - destruct (JS.endsWith keyID fpr && truthy fpr) eqn:Hm.
    + right. exists [], l. apply andb_true_iff in Hm as [He Ht].
      split; [reflexivity|]. split; [|intros x []].
      split; [now apply truthy_nonempty | now apply endsWith_append].
    + assert (Hno : ~ matches fpr).
      { intros [Ht He]. apply truthy_nonempty in Ht. apply endsWith_append in He.
        rewrite Ht, He in Hm. discriminate. }
      destruct IH as [(-> & Hall) | (before & after & Heq & Hok & Hbefore)].
      * left. split; [reflexivity|]. intros x [<-|Hx]; auto.
      * right. exists (fpr :: before), after.
        split; [simpl; now rewrite <- Heq|]. split; [exact Hok|].
        intros x [<-|Hx]; auto.
Qed.

Lemma matchFingerprint_member (keyID : string) (fingerprints : list string) :
  truthy (matchFingerprint keyID fingerprints) = true ->
  In (matchFingerprint keyID fingerprints) fingerprints
  /\ exists p, matchFingerprint keyID fingerprints = p +:+ keyID.
Proof.
  induction fingerprints as [|fpr l IH]; simpl; [discriminate|].
  destruct (JS.endsWith keyID fpr && truthy fpr) eqn:Hm.
  - intros _. apply andb_true_iff in Hm as [He _].
    split; [now left | now apply endsWith_append].
  - intros H. destruct (IH H). split; [now right | assumption].
Qed.

Lemma get_In_entries {V} (k : string) (v : V) (o : JS.obj V) :
  JS.get k o = Some v -> In (k, v) o.
Proof.
  induction o as [|[k' v'] o IH]; simpl; [discriminate|].
  destruct (String.eqb_spec k k') as [->|Hne];
    [intros H; injection H as ->; now left | auto].
Qed.

Lemma fold_left_invariant {A S} (f : S -> A -> S) (I : S -> Prop) (l : list A) :
  (forall x s, In x l -> I s -> I (f s x)) ->
  forall s, I s -> I (fold_left f l s).
Proof.
  induction l as [|x l IH]; intros Hf s Hs; simpl; [exact Hs|].
  apply IH; [intros y s' Hy; apply Hf; now right|]. apply Hf; [now left | exact Hs].
Qed.

Lemma foldSeries_invariant_In {A S} (f : S -> A -> result S) (I : S -> Prop) (l : list A) :
  (forall x s s', In x l -> I s -> f s x = Ok s' -> I s') ->
  forall s s', I s -> foldSeries f s l = Ok s' -> I s'.
Proof.
  induction l as [|x l IH]; intros Hf s s' Hs H; simpl in H.
  - now injection H as <-.
  - apply bind_Ok in H as (s1 & H1 & H2).
    apply (IH (fun y t t' Hy => Hf y t t' (or_intror Hy)) s1 s'); [|exact H2].
    apply (Hf x s s1); [now left | exact Hs | exact H1].
Qed.

(** X16: [computeNewLinks] fails only on a newcomer that [joinData] does
    not hold.  Every link it yields either goes to a newcomer from a
    fingerprint of [members] that ends with the issuer key id of a
    certification of the newcomer's key, or goes to a key of [updates]
    from a newcomer whose key id issued one of the certifications of that
    entry. *)
Theorem computeNewLinks_sources (theNewcomers : list string) (joinData : JS.obj Join)
    (updates : JS.obj (list Packet)) (members : list string) :
  ((exists newLinks, computeNewLinks theNewcomers joinData updates members = Ok newLinks)
   <-> forall newcomer, In newcomer theNewcomers -> JS.get newcomer joinData <> None)
  /\ forall newLinks, computeNewLinks theNewcomers joinData updates members = Ok newLinks ->
       forall target sources source,
         In (target, sources) newLinks -> In source sources ->
         (In target theNewcomers /\ In source members
          /\ exists join certif,
               JS.get target joinData = Some join /\ In certif (join_certifs join)
               /\ exists p, source = p +:+ pkt_issuerKeyId certif)
         \/ (In source theNewcomers
             /\ exists certifs certif,
                  JS.get target updates = Some certifs /\ In certif certifs
                  /\ pkt_issuerKeyId certif = JS.substringFrom 24 source).
Proof.
  unfold computeNewLinks. split.
  - generalize (@nil (string * list string)) as acc.
    induction theNewcomers as [|n l IH]; intros acc; simpl.
    + split; [intros _ x [] | intros _; eauto].
    + unfold linksOfNewcomer at 1. destruct (JS.get n joinData) as [join|] eqn:Hj; simpl.
      * rewrite IH. split.
        -- intros H x [<-|Hx]; [congruence | auto].
        -- intros H x Hx. apply H. now right.
      * split; [intros (nl & H); discriminate|].
        intros H. exfalso. apply (H n); [now left | exact Hj].
  - intros newLinks H target sources source Hin Hsrc.
    set (good := fun (target source : string) =>
      (In target theNewcomers /\ In source members
       /\ exists join certif,
            JS.get target joinData = Some join /\ In certif (join_certifs join)
            /\ exists p, source = p +:+ pkt_issuerKeyId certif)
      \/ (In source theNewcomers
          /\ exists certifs certif,
               JS.get target updates = Some certifs /\ In certif certifs
               /\ pkt_issuerKeyId certif = JS.substringFrom 24 source)).
    set (I := fun links : JS.obj (list string) =>
      forall t ss s, In (t, ss) links -> In s ss -> good t s).
    assert (HI : I newLinks); [|exact (HI target sources source Hin Hsrc)].
    apply (foldSeries_invariant_In (linksOfNewcomer joinData updates members) I
             theNewcomers) with (s := []); [|intros t ss s []|exact H].
    clear. intros n links links' Hn Hlinks Hstep.
    unfold linksOfNewcomer in Hstep.
    destruct (JS.get n joinData) as [join|] eqn:Hj; [|discriminate].
    injection Hstep as <-.
    apply fold_left_invariant.
    + intros signedFPR links1 Hkey H1.
      destruct (JS.get signedFPR updates) as [certifs|] eqn:Hu; simpl; [|exact H1].
      apply fold_left_invariant; [|exact H1].
      intros certif links2 Hc H2.
      destruct (String.eqb_spec (pkt_issuerKeyId certif) (JS.substringFrom 24 n))
        as [Heq|Hne]; [|exact H2].
      unfold pushLink. intros t ss s Ht Hs.
      apply set_entries in Ht as [[-> ->] | Ht]; [|exact (H2 t ss s Ht Hs)].
      apply in_app_or in Hs as [Hs | [<-|[]]].
      * destruct (JS.get signedFPR links2) as [old|] eqn:Hold; simpl in Hs; [|destruct Hs].
        apply get_In_entries in Hold. exact (H2 _ _ _ Hold Hs).
      * right. split; [exact Hn|]. exists certifs, certif. auto.
    + intros t ss s Ht Hs.
      apply set_entries in Ht as [[-> ->] | Ht]; [|exact (Hlinks t ss s Ht Hs)].
      apply List.filter_In in Hs as [Hs Htruthy].
      apply in_map_iff in Hs as (certif & <- & Hc).
      destruct (matchFingerprint_member _ _ Htruthy) as [Hm Hp].
      left. split; [exact Hn|]. split; [exact Hm|]. exists join, certif. auto.
Qed.

(** X17: [iteratedChecking] reports no error of its own.  The newcomers
    it keeps are a selection of the given ones in their order; every
    beginning of the kept list passed the check when its last newcomer
    was tried, so a kept list that is not empty passed the check as a
    whole; and when the check itself always answers, so does the
    function. *)
Theorem iteratedChecking_keeps_what_passes (newcomers : list string)
    (checkWoTForNewcomers : list string -> result unit) :
  (forall e, iteratedChecking newcomers checkWoTForNewcomers <> Err e)
  /\ (forall passing, iteratedChecking newcomers checkWoTForNewcomers = Ok passing ->
        sublist passing newcomers
        /\ (forall kept newcomer rest, passing = (kept ++ newcomer :: rest)%list ->
              checkWoTForNewcomers (kept ++ [newcomer])%list = Ok tt)
        /\ (passing <> [] -> checkWoTForNewcomers passing = Ok tt))
  /\ ((forall l, checkWoTForNewcomers l <> Crash /\ checkWoTForNewcomers l <> Hang) ->
      exists passing, iteratedChecking newcomers checkWoTForNewcomers = Ok passing).
Proof.
  unfold iteratedChecking.
  assert (Hgen : forall l acc,
    (forall e, iteratedCheckingFrom checkWoTForNewcomers acc l <> Err e)
    /\ (forall res, iteratedCheckingFrom checkWoTForNewcomers acc l = Ok res ->
          exists added, res = (acc ++ added)%list /\ sublist added l
            /\ forall kept newcomer rest, added = (kept ++ newcomer :: rest)%list ->
                 checkWoTForNewcomers (acc ++ kept ++ [newcomer])%list = Ok tt)
    /\ ((forall l, checkWoTForNewcomers l <> Crash /\ checkWoTForNewcomers l <> Hang) ->
        exists res, iteratedCheckingFrom checkWoTForNewcomers acc l = Ok res)).
  { induction l as [|n l IH]; intros acc; simpl.
    - split; [discriminate|]. split; [|eauto].
      intros res H. injection H as <-. exists []. rewrite app_nil_r.
      split; [reflexivity|]. split; [constructor|]. intros [|] ? ? ?; discriminate.
    - destruct (checkWoTForNewcomers (acc ++ [n])%list) as [[]|e| |] eqn:Hc.
      + destruct (IH (acc ++ [n])%list) as (He & Hok & Htot).
        split; [exact He|]. split; [|exact Htot].
        intros res H. destruct (Hok res H) as (added & -> & Hsub & Hpre).
        exists (n :: added). rewrite <- app_assoc. split; [reflexivity|].
        split; [now constructor|].
        intros [|k kept] newcomer rest Heq; injection Heq as <- ->.
        * exact Hc.
        * rewrite <- (Hpre kept newcomer rest eq_refl).
          now rewrite <- app_assoc.
      + destruct (IH acc) as (He & Hok & Htot).
        split; [exact He|]. split; [|exact Htot].
        intros res H. destruct (Hok res H) as (added & -> & Hsub & Hpre).
        exists added. split; [reflexivity|]. split; [now constructor | exact Hpre].
      + split; [discriminate|]. split; [discriminate|].
        intros H. now destruct (H (acc ++ [n])%list).
      + split; [discriminate|]. split; [discriminate|].
        intros H. now destruct (H (acc ++ [n])%list). }
  destruct (Hgen newcomers []) as (He & Hok & Htot).
  split; [exact He|]. split; [|exact Htot].
  intros passing H. destruct (Hok passing H) as (added & -> & Hsub & Hpre).
  simpl. split; [exact Hsub|]. split; [exact Hpre|].
  intros Hne. destruct (exists_last Hne) as (kept & newcomer & ->).
  rewrite <- (Hpre kept newcomer [] eq_refl). reflexivity.
Qed.

(** *** What an applied block leaves in the stores *)

Lemma sbind_Ok {A B} (m : Step A) (k : A -> Step B) (st st' : State) (b : B) :
  sbind m k st = (Ok b, st') ->
  exists a st1, m st = (Ok a, st1) /\ k a st1 = (Ok b, st').
Proof.
  unfold sbind. destruct (m st) as [[a|e| |] st1]; try discriminate. eauto.
Qed.

Section Preserving.

Variable R : State -> State -> Prop.
Hypothesis R_refl : forall st, R st st.
Hypothesis R_trans : forall st1 st2 st3, R st1 st2 -> R st2 st3 -> R st1 st3.

Lemma preserves_sret {A} (a : A) : preserves R (sret a).
Proof. intros st r st' H. injection H as _ <-. apply R_refl. Qed.

Lemma preserves_lift {A} (r : result A) : preserves R (lift r).
Proof. intros st r' st' H. injection H as _ <-. apply R_refl. Qed.

Lemma preserves_reads {A} (q : State -> result A) : preserves R (reads q).
Proof. intros st r st' H. injection H as _ <-. apply R_refl. Qed.

Lemma preserves_writes (w : State -> State) :
  (forall st, R st (w st)) -> preserves R (writes w).
Proof. intros Hw st r st' H. injection H as _ <-. apply Hw. Qed.

Lemma preserves_sbind {A B} (m : Step A) (k : A -> Step B) :
  preserves R m -> (forall a, preserves R (k a)) -> preserves R (sbind m k).
Proof.
  intros Hm Hk st r st' H. unfold sbind in H.
  destruct (m st) as [[a|e| |] st1] eqn:Hst.
  - apply (R_trans st st1 st'); [exact (Hm _ _ _ Hst) | exact (Hk a _ _ _ H)].
  - injection H as _ <-. exact (Hm _ _ _ Hst).
  - injection H as _ <-. exact (Hm _ _ _ Hst).
  - injection H as _ <-. exact (Hm _ _ _ Hst).
Qed.

Lemma preserves_sforEach {A} (f : A -> Step unit) (l : list A) :
  (forall x, preserves R (f x)) -> preserves R (sforEach f l).
Proof.
  intros Hf. induction l as [|x l IH]; simpl.
  - apply preserves_sret.
  - apply preserves_sbind; [apply Hf | intros _; exact IH].
Qed.

End Preserving.

Ltac preserving Hrefl Htrans Hwrite :=
  repeat first
    [ apply (preserves_sbind _ Htrans); [|intros]
    | apply (preserves_sforEach _ Hrefl Htrans); intros
    | apply preserves_writes; intros; Hwrite
    | apply (preserves_sret _ Hrefl)
    | apply (preserves_lift _ Hrefl)
    | apply (preserves_reads _ Hrefl)
    | match goal with
      | |- preserves _ (match ?x with _ => _ end) => destruct x
      | |- preserves _ (if ?c then _ else _) => destruct c
      end ].

Lemma sameMembers_refl (st : State) : sameMembers st st.
Proof. intros fpr. reflexivity. Qed.

Lemma sameMembers_trans (st1 st2 st3 : State) :
  sameMembers st1 st2 -> sameMembers st2 st3 -> sameMembers st1 st3.
Proof. intros H1 H2 fpr. now rewrite H2, H1. Qed.

Lemma samePool_refl (st : State) : samePool st st.
Proof. reflexivity. Qed.

Lemma samePool_trans (st1 st2 st3 : State) :
  samePool st1 st2 -> samePool st2 st3 -> samePool st1 st3.
Proof. unfold samePool. congruence. Qed.

Lemma linksKept_refl (st : State) : linksKept st st.
Proof. intros l Hl. exists l. unfold sameLink. auto. Qed.

Lemma linksKept_trans (st1 st2 st3 : State) :
  linksKept st1 st2 -> linksKept st2 st3 -> linksKept st1 st3.
Proof.
  intros H1 H2 l Hl. destruct (H1 l Hl) as (l2 & Hl2 & (Ha & Hb & Hc) & Ho2).
  destruct (H2 l2 Hl2) as (l3 & Hl3 & (Ha' & Hb' & Hc') & Ho3).
  exists l3. split; [exact Hl3|]. split; [unfold sameLink; repeat split; congruence|].
  auto.
Qed.

Lemma TrustedKey_save_keys (st : State) (tk : TrustedKey) :
  st_keys (TrustedKey_save st tk) = st_keys st
  /\ st_links (TrustedKey_save st tk) = st_links st
  /\ st_memberships (TrustedKey_save st tk) = st_memberships st.
Proof. unfold TrustedKey_save. destruct (existsb _ (st_trusted st)); auto. Qed.

Lemma isMember_keys (st st' : State) :
  st_keys st' = st_keys st -> sameMembers st st'.
Proof. intros H fpr. unfold Key_isMember. now rewrite H. Qed.

Lemma isMember_setKicked (st : State) (fpr : string) (distanced : list string)
    (notEnoughLinks : bool) :
  sameMembers st (Key_setKicked st fpr distanced notEnoughLinks).
Proof.
  intros x. unfold Key_isMember, Key_setKicked, rowOf. simpl.
  rewrite lookup_insert. destruct (decide (fpr = x)) as [->|Hne]; [|reflexivity].
  simpl. destruct (st_keys st !! x); reflexivity.
Qed.

Lemma isMember_applyChange (st : State) (mc x : string) :
  Key_isMember (applyChange st mc) x
  = if String.eqb (JS.substringFrom 1 mc) x then JS.startsWithPlus mc
    else Key_isMember st x.
Proof.
  unfold applyChange, Key_isMember, Key_unsetKicked, rowOf.
  destruct (String.eqb_spec (JS.substringFrom 1 mc) x) as [<-|Hne].
  - destruct (JS.startsWithPlus mc); simpl; rewrite !lookup_insert_eq; reflexivity.
  - destruct (JS.startsWithPlus mc); simpl; rewrite !lookup_insert_ne by exact Hne;
      reflexivity.
Qed.

Lemma updateMembers_run (block : KeyBlock) (st : State) :
  updateMembers block st = (Ok tt, fold_left applyChange (kb_membersChanges block) st).
Proof.
  unfold updateMembers. generalize (kb_membersChanges block) as mcs. intros mcs.
  revert st. induction mcs as [|mc mcs IH]; intros st; [reflexivity|].
  simpl. unfold sbind at 1. unfold sbind at 1. unfold writes at 1 2.
  rewrite IH. reflexivity.
Qed.

Lemma isMember_fold (mcs : list string) (st : State) (x : string) :
  Key_isMember (fold_left applyChange mcs st) x = memberAfter mcs x (Key_isMember st x).
Proof.
  unfold memberAfter. revert st. induction mcs as [|mc mcs IH]; intros st; simpl;
    [reflexivity|].
  rewrite IH, isMember_applyChange. reflexivity.
Qed.

Lemma memberAfter_unnamed (mcs : list string) (x : string) (before : bool) :
  ~ In x (map (JS.substringFrom 1) mcs) -> memberAfter mcs x before = before.
Proof.
  unfold memberAfter. revert before. induction mcs as [|mc mcs IH]; intros before Hn;
    simpl; [reflexivity|].
  simpl in Hn. destruct (String.eqb_spec (JS.substringFrom 1 mc) x) as [He|Hne].
  - exfalso. apply Hn. now left.
  - apply IH. intros H. apply Hn. now right.
Qed.

Lemma memberAfter_named (mcs : list string) (mc : string) (before : bool) :
  List.NoDup (map (JS.substringFrom 1) mcs) -> In mc mcs ->
  memberAfter mcs (JS.substringFrom 1 mc) before = JS.startsWithPlus mc.
Proof.
  revert before. induction mcs as [|mc0 mcs IH]; intros before Hnd Hin; [destruct Hin|].
  simpl in Hnd. destruct Hin as [<-|Hin].
  - apply List.NoDup_cons_iff in Hnd as [Hn _].
    unfold memberAfter. simpl. rewrite String.eqb_refl.
    now apply (memberAfter_unnamed mcs).
  - apply List.NoDup_cons_iff in Hnd as [Hn Hnd].
    unfold memberAfter. simpl.
    destruct (String.eqb_spec (JS.substringFrom 1 mc0) (JS.substringFrom 1 mc)) as [He|Hne].
    + exfalso. apply Hn. rewrite He. now apply in_map.
    + now apply IH.
Qed.

Lemma saveBlockData_after_members (block : KeyBlock) (newLinks : NewLinks)
    (st st' : State) (r : result KeyBlock) :
  saveBlockData conf block newLinks st = (r, st') ->
  sameMembers (fold_left applyChange (kb_membersChanges block) (KeyBlock_save st block)) st'.
Proof.
  unfold saveBlockData. intros H.
  unfold sbind at 1 in H. unfold writes at 1 in H.
  unfold sbind at 1 in H. rewrite updateMembers_run in H.
  match type of H with
  | ?rest ?s = _ => assert (Hk : preserves sameMembers rest)
  end.
  { unfold saveLinks, computeObsoleteLinks, updateAvailableKeyMaterial.
    preserving sameMembers_refl sameMembers_trans
      ltac:(first [ apply isMember_setKicked
                  | apply isMember_keys; first [reflexivity | apply TrustedKey_save_keys] ]). }
  exact (Hk _ _ _ H).
Qed.

(** X18: once a block is applied whose members' changes name no key
    twice, the keys it names with [+] are members and the keys it names
    otherwise are not, whatever they were before; every other key is a
    member exactly when it was one.  Nothing else in the apply touches
    the member flag. *)
Theorem members_after_an_applied_block (now : Z) (kb : Submission) (st st' : State)
    (b : KeyBlock) :
  submit now kb st = (Ok b, st') ->
  List.NoDup (map (JS.substringFrom 1) (kb_membersChanges (sub_doc kb))) ->
  (forall mc, In mc (kb_membersChanges (sub_doc kb)) ->
     Key_isMember st' (JS.substringFrom 1 mc) = JS.startsWithPlus mc)
  /\ (forall fpr, ~ In fpr (map (JS.substringFrom 1) (kb_membersChanges (sub_doc kb))) ->
        Key_isMember st' fpr = Key_isMember st fpr).
Proof.
  intros H Hnd. apply submit_Ok_inv in H as (nl & _ & Hsave).
  apply saveBlockData_after_members in Hsave.
  assert (Hall : forall x, Key_isMember st' x
            = memberAfter (kb_membersChanges (sub_doc kb)) x (Key_isMember st x)).
  { intros x. rewrite (Hsave x). exact (isMember_fold _ (KeyBlock_save st _) x). }
  split.
  - intros mc Hin. rewrite Hall. now apply memberAfter_named.
  - intros fpr Hn. rewrite Hall. now apply memberAfter_unnamed.
Qed.

Lemma linksKept_links (st st' : State) : st_links st' = st_links st -> linksKept st st'.
Proof. intros H l Hl. exists l. rewrite H. unfold sameLink. auto. Qed.

Lemma linksKept_save (st : State) (l : Link) : linksKept st (Link_save st l).
Proof.
  intros l0 Hl. exists l0. unfold Link_save, sameLink. simpl.
  split; [apply in_or_app; now left | auto].
Qed.

Lemma linksKept_obsoletes (st : State) (cutoff : Z) : linksKept st (Link_obsoletes st cutoff).
Proof.
  intros l Hl. unfold Link_obsoletes. simpl.
  eexists. split; [apply in_map_iff; exists l; split; [reflexivity | exact Hl]|].
  unfold sameLink. destruct (Link_expired cutoff l); simpl; auto.
Qed.

Lemma submit_keeps_links (c : Computation) (now : Z) (kb : Submission) :
  preserves linksKept (submitKeyBlock conf checkWithLocalTimestamp c now kb).
Proof.
  unfold submitKeyBlock, saveBlockData, updateMembers, saveLinks, computeObsoleteLinks,
    updateAvailableKeyMaterial.
  preserving linksKept_refl linksKept_trans
    ltac:(first [ apply linksKept_save
                | apply linksKept_obsoletes
                | apply linksKept_links;
                  first [ reflexivity
                        | apply TrustedKey_save_keys
                        | match goal with
                          | |- context [if ?c then _ else _] => destruct c; reflexivity
                          end ] ]).
Qed.

(** X19: no call of [submitKeyBlock] deletes a certification link or
    makes an obsolete link valid again: whatever blocks are submitted and
    whatever each call returns, every link the node held is still held,
    with its source, target and timestamp, and is still obsolete if it
    was. *)
Theorem links_are_never_deleted (subs : list (Computation * Z * Submission))
    (st : State) :
  linksKept st (submitAll conf checkWithLocalTimestamp subs st).
Proof.
  revert st. induction subs as [|[[c now] kb] subs IH]; intros st; simpl.
  - apply linksKept_refl.
  - apply (linksKept_trans st
             (snd (submitKeyBlock conf checkWithLocalTimestamp c now kb st))); [|apply IH].
    apply (submit_keeps_links c now kb st
             (fst (submitKeyBlock conf checkWithLocalTimestamp c now kb st))).
    now destruct (submitKeyBlock conf checkWithLocalTimestamp c now kb st).
Qed.

(** *** The membership pool after a block *)

Lemma values_set {V} (k : string) (v : V) (o : JS.obj V) (v' : V) :
  In v' (JS.values (JS.set k v o)) -> v' = v \/ In v' (JS.values o).
Proof.
  unfold JS.values. induction o as [|[k1 v1] o IH]; simpl.
  - intros [H|[]]. now left.
  - destruct (String.eqb k k1); simpl.
    + intros [H|H]; [now left | right; now right].
    + intros [H|H]; [right; now left|]. destruct (IH H); [now left | right; now right].
Qed.

Lemma getMemberships_values (kcs : list Keychange) :
  forall (acc mss : JS.obj BlockMembership),
    getMemberships kcs acc = Ok mss ->
    forall bm, In bm (JS.values mss) ->
      In bm (JS.values acc)
      \/ exists kc, In kc kcs /\ kc_type kc = "N" /\ bm_fingerprint bm = kc_fingerprint kc.
Proof.
  induction kcs as [|kc kcs IH]; intros acc mss H bm Hbm; simpl in H.
  - injection H as <-. now left.
  - assert (Hrest : forall acc', getMemberships kcs acc' = Ok mss ->
              (In bm (JS.values acc') -> In bm (JS.values acc)
                 \/ exists kc0, In kc0 (kc :: kcs) /\ kc_type kc0 = "N"
                                /\ bm_fingerprint bm = kc_fingerprint kc0) ->
              In bm (JS.values acc)
              \/ exists kc0, In kc0 (kc :: kcs) /\ kc_type kc0 = "N"
                             /\ bm_fingerprint bm = kc_fingerprint kc0).
    { intros acc' H' Hacc. destruct (IH acc' mss H' bm Hbm) as [Hin | (kc0 & Hin & Ht & Hf)].
      - auto.
      - right. exists kc0. split; [now right | auto]. }
    destruct (kc_membership kc) as [im|]; [|apply (Hrest acc H); auto].
    destruct (String.eqb_spec (kc_type kc) "N") as [Hty|Hty]; [|apply (Hrest acc H); auto].
    apply bind_Ok in H as (p & Hp & H). apply (Hrest _ H).
    intros Hin. apply values_set in Hin as [-> | Hin]; [|now left].
    right. exists kc. split; [now left|]. split; [exact Hty | reflexivity].
Qed.

Lemma removeFor_run (l : list BlockMembership) (st : State) :
  exists st',
    sforEach (fun ms => writes (fun st => Membership_removeFor st (bm_fingerprint ms))) l st
    = (Ok tt, st')
    /\ st_keys st' = st_keys st /\ st_links st' = st_links st
    /\ forall m, In m (st_memberships st')
         <-> In m (st_memberships st)
             /\ forall bm, In bm l -> ms_issuer m <> bm_fingerprint bm.
Proof.
  revert st. induction l as [|bm l IH]; intros st.
  - exists st. split; [reflexivity|]. split; [reflexivity|]. split; [reflexivity|].
    intros m. split; [intros H; split; [exact H | intros bm []] | now intros [H _]].
  - destruct (IH (Membership_removeFor st (bm_fingerprint bm)))
      as (st' & Hrun & Hk & Hl & Hpool).
    exists st'. split; [|split; [exact Hk | split; [exact Hl|]]].
    + simpl. unfold sbind at 1. unfold writes at 1. exact Hrun.
    + intros m. rewrite Hpool. unfold Membership_removeFor. simpl.
      rewrite List.filter_In. split.
      * intros ((Hin & Hne) & Hall). split; [exact Hin|].
        intros bm' [<-|Hbm']; [|auto].
        destruct (String.eqb_spec (ms_issuer m) (bm_fingerprint bm)); [discriminate|assumption].
      * intros (Hin & Hall). split; [split; [exact Hin|]|].
        -- destruct (String.eqb_spec (ms_issuer m) (bm_fingerprint bm)) as [He|Hne];
             [|reflexivity]. exfalso. apply (Hall bm); [now left | exact He].
        -- intros bm' Hbm'. apply Hall. now right.
Qed.

Lemma saveBlockData_stages (block : KeyBlock) (newLinks : NewLinks) (st st' : State)
    (b : KeyBlock) :
  saveBlockData conf block newLinks st = (Ok b, st') ->
  exists st5 mss st6 st7,
    samePool st st5
    /\ getMemberships (kb_keysChanges block) [] = Ok mss
    /\ sforEach (fun ms => writes (fun st => Membership_removeFor st (bm_fingerprint ms)))
                (JS.values mss) st5 = (Ok tt, st6)
    /\ computeObsoleteLinks conf block st6 = (Ok tt, st7)
    /\ updateAvailableKeyMaterial block st7 = (Ok tt, st')
    /\ b = block.
Proof.
  unfold saveBlockData. intros H.
  apply sbind_Ok in H as ([] & st1 & H1 & H).
  apply sbind_Ok in H as ([] & st2 & H2 & H).
  apply sbind_Ok in H as (pubkeys & st2' & H3 & H).
  apply sbind_Ok in H as ([] & st3 & H4 & H).
  apply sbind_Ok in H as ([] & st4 & H5 & H).
  apply sbind_Ok in H as ([] & st5 & H6 & H).
  apply sbind_Ok in H as (mss & st5' & H7 & H).
  apply sbind_Ok in H as ([] & st6 & H8 & H).
  apply sbind_Ok in H as ([] & st7 & H9 & H).
  apply sbind_Ok in H as ([] & st8 & H10 & H).
  injection H as <- <-. injection H7 as H7 <-. injection H3 as _ <-.
  exists st5, mss, st6, st7.
  split; [|auto].
  assert (P1 : samePool st st1) by (injection H1 as <-; reflexivity).
  assert (P2 : samePool st1 st2).
  { revert H2. apply (preserves_sforEach _ samePool_refl samePool_trans).
    intros mc. preserving samePool_refl samePool_trans
      ltac:(first [reflexivity
                  | match goal with
                    | |- context [if ?c then _ else _] => destruct c; reflexivity
                    end]). }
  assert (P4 : samePool st2 st3).
  { revert H4. apply (preserves_sforEach _ samePool_refl samePool_trans).
    intros key. preserving samePool_refl samePool_trans
      ltac:(first [reflexivity | apply TrustedKey_save_keys]). }
  assert (P5 : samePool st3 st4).
  { revert H5. apply (preserves_sforEach _ samePool_refl samePool_trans).
    intros key. preserving samePool_refl samePool_trans
      ltac:(first [reflexivity | apply TrustedKey_save_keys]). }
  assert (P6 : samePool st4 st5).
  { revert H6. unfold saveLinks.
    preserving samePool_refl samePool_trans ltac:(reflexivity). }
  unfold samePool in *. congruence.
Qed.

Lemma tail_keeps_pool (block : KeyBlock) (st6 st7 st' : State) (r r' : result unit) :
  computeObsoleteLinks conf block st6 = (r, st7) ->
  updateAvailableKeyMaterial block st7 = (r', st') ->
  samePool st6 st'.
Proof.
  intros H9 H10. apply (samePool_trans st6 st7 st').
  - revert H9. unfold computeObsoleteLinks.
    preserving samePool_refl samePool_trans ltac:(reflexivity).
  - revert H10. unfold updateAvailableKeyMaterial.
    preserving samePool_refl samePool_trans ltac:(reflexivity).
Qed.

Lemma certifiedKeychange_same (st : State) (block : KeyBlock)
    (newKeys : JS.obj WrappedKey) (kc : Keychange) :
  let kc' := certifiedKeychange conf st block newKeys kc in
  kc_type kc' = kc_type kc /\ kc_fingerprint kc' = kc_fingerprint kc
  /\ kc_keypackets kc' = kc_keypackets kc /\ kc_certpackets kc' = kc_certpackets kc
  /\ kc_membership kc' = kc_membership kc.
Proof.
  unfold certifiedKeychange.
  destruct (checkKeychange conf st block kc newKeys); repeat split; reflexivity.
Qed.

Lemma getMemberships_map (f : Keychange -> Keychange) (kcs : list Keychange) :
  (forall kc, kc_type (f kc) = kc_type kc /\ kc_fingerprint (f kc) = kc_fingerprint kc
              /\ kc_membership (f kc) = kc_membership kc) ->
  forall acc, getMemberships (map f kcs) acc = getMemberships kcs acc.
Proof.
  intros Hf. induction kcs as [|kc kcs IH]; intros acc; [reflexivity|].
  cbn [map getMemberships]. destruct (Hf kc) as (-> & -> & ->).
  destruct (kc_membership kc) as [im|]; [|apply IH].
  destruct (String.eqb (kc_type kc) "N"); [|apply IH].
  destruct (uncaught (fromInline (im_membership im) (im_signature im))); simpl;
    [apply IH | reflexivity..].
Qed.

(** The memberships of a block are those it arrived with, whatever
    certifiers the checks left on its keychanges. *)
Lemma certified_memberships (st : State) (block : KeyBlock) (acc : JS.obj BlockMembership) :
  getMemberships (kb_keysChanges (certified conf st block)) acc
  = getMemberships (kb_keysChanges block) acc.
Proof.
  unfold certified. cbn [kb_keysChanges].
  destruct (memorizeNewKeys (kb_keysChanges block) []) as [newKeys|e| |]; try reflexivity.
  apply getMemberships_map. intros kc.
  destruct (certifiedKeychange_same st block newKeys kc) as (H1 & H2 & _ & _ & H5). auto.
Qed.

(** X20: an applied block takes out of the membership pool the
    memberships issued by the fingerprints of its NEWCOMER keychanges,
    and nothing else: a membership is in the pool afterwards exactly when
    it was in the pool and its issuer is none of these fingerprints. *)
Theorem applied_block_clears_the_pool (now : Z) (kb : Submission) (st st' : State)
    (b : KeyBlock) :
  submit now kb st = (Ok b, st') ->
  forall m, In m (st_memberships st')
    <-> In m (st_memberships st)
        /\ forall kc, In kc (kb_keysChanges (sub_doc kb)) -> kc_type kc = "N" ->
             ms_issuer m <> kc_fingerprint kc.
Proof.
  intros H m. apply submit_Ok_inv in H as (nl & Hc & Hsave).
  apply saveBlockData_stages in Hsave
    as (st5 & mss & st6 & st7 & P5 & Hmss & H8 & H9 & H10 & _).
  rewrite certified_memberships in Hmss.
  destruct (removeFor_run (JS.values mss) st5) as (st6' & Hrun & _ & _ & Hpool).
  rewrite Hrun in H8. injection H8 as <-.
  rewrite (tail_keeps_pool _ _ _ _ _ _ H9 H10), Hpool, P5.
  apply checks_Ok_inv in Hc as (_ & _ & _ & _ & Hkc & _).
  apply checkKeychanges_each in Hkc as (newKeys & _ & Hall).
  change (kb_keysChanges (receivedBlock kb)) with (kb_keysChanges (sub_doc kb)) in *.
  split; intros [Hin Hno]; (split; [exact Hin|]).
  - intros kc Hkc Hty.
    destruct (Hall kc Hkc) as (_ & c & Hck).
    destruct (checkKeychange_N_inv st _ kc newKeys c Hty Hck)
      as (_ & im & _ & _ & _ & _ & Hms & _).
    destruct (getMemberships_entries (kb_keysChanges (sub_doc kb))
                (kb_keysChanges (sub_doc kb)) [] mss Hmss (fun _ H => H)
                (kc_fingerprint kc)) as (bm & Hget & Hfp & _).
    { right. exists kc, im. auto. }
    rewrite <- Hfp. apply Hno. now apply (get_In_values (kc_fingerprint kc)).
  - intros bm Hbm.
    destruct (getMemberships_values _ _ _ Hmss bm Hbm) as [[] | (kc & Hkc & Hty & ->)].
    now apply Hno.
Qed.

(** *** The kick flags after a block *)

Lemma linksCount_links (st st' : State) (target : string) (newLinks : NewLinks) :
  st_links st' = st_links st ->
  linksCount st' target newLinks = linksCount st target newLinks.
Proof. intros H. unfold linksCount, Link_currentValidLinks. now rewrite H. Qed.

Lemma notEnoughLinks_count (st : State) (fpr : string) :
  match checkHaveEnoughLinks conf st fpr [] with
  | Err _ => true
  | _ => false
  end = (linksCount st fpr [] <? sigQty conf).
Proof.
  unfold checkHaveEnoughLinks, failWhen.
  destruct (linksCount st fpr [] <? sigQty conf); reflexivity.
Qed.

Lemma computeObsoleteLinks_run (block : KeyBlock) (st : State) :
  let st0 := Link_obsoletes st (kb_timestamp block - sigValidity conf) in
  let fprs := map fst (Key_getMembers st0) in
  computeObsoleteLinks conf block st = (Ok tt, fold_left (flagMember conf fprs) fprs st0).
Proof.
  intros st0 fprs. unfold computeObsoleteLinks.
  unfold sbind at 1. unfold writes at 1. fold st0.
  unfold sbind at 1. unfold reads at 1. fold fprs.
  assert (Hloop : forall l s,
            sforEach (fun fpr => writes (fun st => flagMember conf fprs st fpr)) l s
            = (Ok tt, fold_left (flagMember conf fprs) l s)).
  { induction l as [|x l IH]; intros s; [reflexivity|].
    simpl. unfold sbind at 1. unfold writes at 1. rewrite IH. reflexivity. }
  exact (Hloop fprs st0).
Qed.

Lemma flagMember_fold (fprs l : list string) (s : State) :
  List.NoDup l ->
  let final := fold_left (flagMember conf fprs) l s in
  st_links final = st_links s
  /\ sameMembers s final
  /\ forall x, In x l ->
       key_distanced (rowOf final x) = Link_isOver3StepsOfAMember (st_links s) x fprs
       /\ key_kick (rowOf final x)
          = negb (Nat.eqb (List.length (Link_isOver3StepsOfAMember (st_links s) x fprs)) 0)
            || (linksCount s x [] <? sigQty conf).
Proof.
  revert s. induction l as [|a l IH]; intros s Hnd final.
  - split; [reflexivity|]. split; [apply sameMembers_refl | intros x []].
  - apply List.NoDup_cons_iff in Hnd as [Ha Hnd].
    subst final. simpl.
    assert (Hout : forall l' s', ~ In a l' ->
              st_keys (fold_left (flagMember conf fprs) l' s') !! a = st_keys s' !! a).
    { induction l' as [|y l' IH']; intros s' Hn; simpl; [reflexivity|].
      rewrite IH' by (intros H; apply Hn; now right).
      unfold flagMember, Key_setKicked. simpl. apply lookup_insert_ne.
      intros ->. apply Hn. now left. }
    destruct (IH (flagMember conf fprs s a) Hnd) as (Hl & Hm & Hrows).
    assert (Hl1 : st_links (flagMember conf fprs s a) = st_links s) by reflexivity.
    split; [now rewrite Hl|]. split.
    { apply (sameMembers_trans s (flagMember conf fprs s a)); [|exact Hm].
      apply isMember_setKicked. }
    intros x [<-|Hx].
    + unfold rowOf. rewrite (Hout l _ Ha).
      unfold flagMember, Key_setKicked. simpl. rewrite lookup_insert_eq. simpl.
      rewrite notEnoughLinks_count. auto.
    + destruct (Hrows x Hx) as [Hd Hk]. rewrite Hd, Hk, Hl1.
      rewrite (linksCount_links s (flagMember conf fprs s a)) by exact Hl1. auto.
Qed.

Lemma getMembers_fingerprints (st : State) :
  List.NoDup (map fst (Key_getMembers st))
  /\ forall fpr, In fpr (map fst (Key_getMembers st)) <-> Key_isMember st fpr = true.
Proof.
  unfold Key_getMembers, Key_isMember. split.
  - pose proof (NoDup_fst_map_to_list (st_keys st)) as Hnd.
    apply NoDup_ListNoDup in Hnd.
    change ((map_to_list (st_keys st)).*1) with (map fst (map_to_list (st_keys st))) in Hnd.
    induction (map_to_list (st_keys st)) as [|[k row] l IH]; simpl; [constructor|].
    simpl in Hnd. apply List.NoDup_cons_iff in Hnd as [Hk Hnd].
    destruct (key_member row); simpl; [|now apply IH].
    apply List.NoDup_cons; [|now apply IH].
    intros Hin. apply Hk. apply in_map_iff in Hin as (p & <- & Hp).
    apply List.filter_In in Hp as [Hp _]. now apply in_map.
  - intros fpr. rewrite in_map_iff. split.
    + intros ([k row] & <- & Hin). apply List.filter_In in Hin as [Hin Hm].
      apply list_elem_of_In, elem_of_map_to_list in Hin. simpl. now rewrite Hin.
    + destruct (st_keys st !! fpr) as [row|] eqn:Hrow; [|discriminate].
      intros Hm. exists (fpr, row). split; [reflexivity|].
      apply List.filter_In. split; [|exact Hm].
      now apply list_elem_of_In, elem_of_map_to_list.
Qed.

Lemma updateAvailableKeyMaterial_keeps (block : KeyBlock) :
  preserves sameKeysAndLinks (updateAvailableKeyMaterial block).
Proof.
  assert (Hrefl : forall st, sameKeysAndLinks st st) by (split; reflexivity).
  assert (Htrans : forall st1 st2 st3, sameKeysAndLinks st1 st2 ->
            sameKeysAndLinks st2 st3 -> sameKeysAndLinks st1 st3).
  { unfold sameKeysAndLinks. intros st1 st2 st3 [-> ->] [-> ->]. auto. }
  unfold updateAvailableKeyMaterial.
  preserving Hrefl Htrans ltac:(split; reflexivity).
Qed.

(** X21: once a block is applied, [computeObsoleteLinks] has flagged the
    members with the links as the block leaves them: each member holds as
    [distanced] the members it is too far from, and its [kick] flag is
    set exactly when that list is not empty or its valid links are fewer
    than [sigQty].  As soon as one member is so flagged, [checkKicked]
    answers every later block with an exception. *)
Theorem kick_flags_after_an_applied_block (now : Z) (kb : Submission) (st st' : State)
    (b : KeyBlock) :
  submit now kb st = (Ok b, st') ->
  exists members,
    List.NoDup members
    /\ (forall fpr, In fpr members <-> Key_isMember st' fpr = true)
    /\ (forall fpr, In fpr members ->
          key_distanced (rowOf st' fpr)
          = Link_isOver3StepsOfAMember (st_links st') fpr members
          /\ key_kick (rowOf st' fpr)
             = negb (Nat.eqb (List.length (key_distanced (rowOf st' fpr))) 0)
               || (linksCount st' fpr [] <? sigQty conf))
    /\ ((exists fpr, In fpr members /\ key_kick (rowOf st' fpr) = true) ->
        forall block newLinks, checkKicked st' block newLinks = Crash).
Proof.
  intros H. apply submit_Ok_inv in H as (nl & _ & Hsave).
  apply saveBlockData_stages in Hsave
    as (st5 & mss & st6 & st7 & _ & _ & _ & H9 & H10 & _).
  apply updateAvailableKeyMaterial_keeps in H10 as [Hkeys Hlinks].
  assert (Hrun : exists st0 fprs,
            fprs = map fst (Key_getMembers st0)
            /\ st7 = fold_left (flagMember conf fprs) fprs st0).
  { rewrite computeObsoleteLinks_run in H9. injection H9 as <-. eauto. }
  clear H9. destruct Hrun as (st0 & fprs & Hfprs & H9).
  destruct (getMembers_fingerprints st0) as [Hnd Hmem]. rewrite <- Hfprs in Hnd, Hmem.
  destruct (flagMember_fold fprs fprs st0 Hnd) as (Hl & Hm & Hrows).
  rewrite <- H9 in Hl, Hm, Hrows.
  assert (Hrow : forall x, rowOf st' x = rowOf st7 x).
  { intros x. unfold rowOf. now rewrite Hkeys. }
  assert (Hmember : forall fpr, In fpr fprs <-> Key_isMember st' fpr = true).
  { intros fpr. rewrite Hmem. unfold Key_isMember at 2. rewrite Hkeys.
    fold (Key_isMember st7 fpr). now rewrite (Hm fpr). }
  assert (Hflags : forall fpr, In fpr fprs ->
            key_distanced (rowOf st' fpr)
            = Link_isOver3StepsOfAMember (st_links st') fpr fprs
            /\ key_kick (rowOf st' fpr)
               = negb (Nat.eqb (List.length (key_distanced (rowOf st' fpr))) 0)
                 || (linksCount st' fpr [] <? sigQty conf)).
  { intros fpr Hin. destruct (Hrows fpr Hin) as [Hd Hk].
    rewrite !Hrow, Hd, Hk, Hlinks, Hl.
    rewrite (linksCount_links st0 st') by congruence. auto. }
  exists fprs. split; [exact Hnd|]. split; [exact Hmember|]. split; [exact Hflags|].
  intros (fpr & Hin & Hkick) block newLinks. rewrite checkKicked_verdict.
  destruct (Key_getToBeKicked st') as [|k l] eqn:Hto; [|reflexivity].
  exfalso. apply Hmember in Hin.
  assert (Hk : In (fpr, rowOf st' fpr) (Key_getToBeKicked st')); [|now rewrite Hto in Hk].
  unfold Key_getToBeKicked, Key_getMembers, Key_isMember, rowOf in *.
  destruct (st_keys st' !! fpr) as [row|] eqn:Hr; [|discriminate]. simpl in *.
  apply List.filter_In. split; [|simpl; now rewrite Hkick].
  apply List.filter_In. split; [|exact Hin].
  now apply list_elem_of_In, elem_of_map_to_list.
Qed.

(** *** The links of the fingerprints a block adds *)

Lemma sameLinks_refl (st : State) : sameLinks st st.
Proof. reflexivity. Qed.

Lemma sameLinks_trans (st1 st2 st3 : State) :
  sameLinks st1 st2 -> sameLinks st2 st3 -> sameLinks st1 st3.
Proof. unfold sameLinks. congruence. Qed.

Lemma TrustedKey_save_links (st : State) (tk : TrustedKey) :
  st_links (TrustedKey_save st tk) = st_links st.
Proof. unfold TrustedKey_save. destruct (existsb _ (st_trusted st)); reflexivity. Qed.

Lemma saveSources_run (block : KeyBlock) (target : string) (sources : list string) :
  forall st,
    exists st',
      sforEach
        (fun source =>
           writes (fun st => Link_save st
                     {| lnk_source := source; lnk_target := target;
                        lnk_timestamp := kb_timestamp block; lnk_obsolete := false |}))
        sources st = (Ok tt, st')
      /\ st_links st'
         = (st_links st
            ++ map (fun source =>
                      {| lnk_source := source; lnk_target := target;
                         lnk_timestamp := kb_timestamp block; lnk_obsolete := false |})
                   sources)%list.
Proof.
  induction sources as [|source sources IH]; intros st.
  - exists st. split; [reflexivity | now rewrite app_nil_r].
  - cbn [sforEach]. unfold sbind at 1. unfold writes at 1.
    destruct (IH (Link_save st
                    {| lnk_source := source; lnk_target := target;
                       lnk_timestamp := kb_timestamp block; lnk_obsolete := false |}))
      as (st' & Hrun & Hlinks).
    exists st'. split; [exact Hrun|].
    rewrite Hlinks. cbn [Link_save set_links st_links map]. now rewrite <- app_assoc.
Qed.

Lemma saveLinks_run (block : KeyBlock) (newLinks : NewLinks) :
  forall st st',
    saveLinks block newLinks st = (Ok tt, st') ->
    st_links st' = (st_links st ++ broughtLinks block newLinks)%list.
Proof.
  unfold saveLinks, broughtLinks.
  induction newLinks as [|[target [sources|]] newLinks IH]; intros st st' H.
  - injection H as <-. now rewrite app_nil_r.
  - cbn [sforEach snd fst] in H. unfold sbind at 1 in H.
    destruct (saveSources_run block target sources st) as (st1 & Hrun & Hlinks).
    rewrite Hrun in H. apply IH in H. rewrite H, Hlinks.
    cbn [flat_map snd fst]. now rewrite <- app_assoc.
  - cbn [sforEach snd] in H. unfold sbind at 1, lift in H. discriminate.
Qed.

(** The links of the node once a block is applied: those it held and
    those the block brings, each marked obsolete if it is older than the
    validity of a certification allows at the date of the block. *)
Lemma saveBlockData_links (block : KeyBlock) (newLinks : NewLinks) (st st' : State)
    (b : KeyBlock) :
  saveBlockData conf block newLinks st = (Ok b, st') ->
  st_links st'
  = st_links (Link_obsoletes
                (set_links st (st_links st ++ broughtLinks block newLinks)%list)
                (kb_timestamp block - sigValidity conf)).
Proof.
  unfold saveBlockData. intros H.
  apply sbind_Ok in H as ([] & st1 & H1 & H).
  apply sbind_Ok in H as ([] & st2 & H2 & H).
  apply sbind_Ok in H as (pubkeys & st2' & H3 & H).
  apply sbind_Ok in H as ([] & st3 & H4 & H).
  apply sbind_Ok in H as ([] & st4 & H5 & H).
  apply sbind_Ok in H as ([] & st5 & H6 & H).
  apply sbind_Ok in H as (mss & st5' & H7 & H).
  apply sbind_Ok in H as ([] & st6 & H8 & H).
  apply sbind_Ok in H as ([] & st7 & H9 & H).
  apply sbind_Ok in H as ([] & st8 & H10 & H).
  injection H as <- <-. injection H7 as H7 <-. injection H3 as _ <-.
  assert (P1 : sameLinks st st1) by (injection H1 as <-; reflexivity).
  assert (P2 : sameLinks st1 st2).
  { revert H2. apply (preserves_sforEach _ sameLinks_refl sameLinks_trans).
    intros mc. preserving sameLinks_refl sameLinks_trans
      ltac:(first [reflexivity
                  | match goal with
                    | |- context [if ?c then _ else _] => destruct c; reflexivity
                    end]). }
  assert (P4 : sameLinks st2 st3).
  { revert H4. apply (preserves_sforEach _ sameLinks_refl sameLinks_trans).
    intros key. preserving sameLinks_refl sameLinks_trans
      ltac:(first [reflexivity | apply TrustedKey_save_links]). }
  assert (P5 : sameLinks st3 st4).
  { revert H5. apply (preserves_sforEach _ sameLinks_refl sameLinks_trans).
    intros key. preserving sameLinks_refl sameLinks_trans
      ltac:(first [reflexivity | apply TrustedKey_save_links]). }
  apply saveLinks_run in H6.
  assert (P8 : sameLinks st5 st6).
  { revert H8. apply (preserves_sforEach _ sameLinks_refl sameLinks_trans).
    intros ms. preserving sameLinks_refl sameLinks_trans ltac:(reflexivity). }
  apply updateAvailableKeyMaterial_keeps in H10 as [_ Hlinks].
  assert (Hrun : exists st0 fprs,
            st0 = Link_obsoletes st6 (kb_timestamp block - sigValidity conf)
            /\ fprs = map fst (Key_getMembers st0)
            /\ st7 = fold_left (flagMember conf fprs) fprs st0).
  { rewrite computeObsoleteLinks_run in H9. injection H9 as <-. eauto. }
  clear H9. destruct Hrun as (st0 & fprs & Hst0 & Hfprs & H9).
  destruct (getMembers_fingerprints st0) as [Hnd _]. rewrite <- Hfprs in Hnd.
  destruct (flagMember_fold fprs fprs st0 Hnd) as (Hl & _).
  rewrite <- H9 in Hl.
  rewrite Hlinks, Hl, Hst0. unfold Link_obsoletes. cbn [set_links st_links].
  unfold sameLinks in *. rewrite P8, H6, P5, P4, P2, P1. reflexivity.
Qed.

Lemma valid_after_obsoletes (cutoff : Z) (target : string) (links : list Link) :
  List.filter (fun l => String.eqb (lnk_target l) target && negb (lnk_obsolete l))
    (map (fun l => if Link_expired cutoff l
                   then {| lnk_source := lnk_source l; lnk_target := lnk_target l;
                           lnk_timestamp := lnk_timestamp l; lnk_obsolete := true |}
                   else l) links)
  = List.filter (fun l => negb (Link_expired cutoff l))
      (List.filter (fun l => String.eqb (lnk_target l) target && negb (lnk_obsolete l))
         links).
Proof.
  induction links as [|l links IH]; [reflexivity|].
  cbn [map List.filter].
  destruct (Link_expired cutoff l) eqn:He; cbn [lnk_target lnk_obsolete negb].
  - rewrite andb_false_r.
    destruct (String.eqb (lnk_target l) target && negb (lnk_obsolete l));
      [cbn [List.filter]; rewrite He|]; exact IH.
  - destruct (String.eqb (lnk_target l) target && negb (lnk_obsolete l));
      [cbn [List.filter]; rewrite He; cbn [negb]; now rewrite IH | exact IH].
Qed.

Lemma broughtLinks_valid (block : KeyBlock) (newLinks : NewLinks) (target : string) :
  List.filter (fun l => String.eqb (lnk_target l) target && negb (lnk_obsolete l))
    (broughtLinks block newLinks)
  = broughtTo block newLinks target.
Proof.
  unfold broughtTo. apply List.filter_ext_in. intros l Hin.
  unfold broughtLinks in Hin. apply in_flat_map in Hin as ([t [sources|]] & _ & Hl);
    [|destruct Hl].
  apply in_map_iff in Hl as (source & <- & _). cbn [lnk_obsolete negb].
  apply andb_true_r.
Qed.

Lemma keys_of_set {V} (k : string) (v : V) (o : JS.obj V) (x : string) :
  In x (JS.keys (JS.set k v o)) <-> x = k \/ In x (JS.keys o).
Proof.
  unfold JS.keys. induction o as [|[k' v'] o IH]; simpl.
  - intuition.
  - destruct (String.eqb_spec k k') as [->|Hne]; simpl; [intuition|].
    rewrite IH. intuition.
Qed.

Lemma keys_of_set_NoDup {V} (k : string) (v : V) (o : JS.obj V) :
  List.NoDup (JS.keys o) -> List.NoDup (JS.keys (JS.set k v o)).
Proof.
  unfold JS.keys. induction o as [|[k' v'] o IH]; simpl; intros Hnd.
  - apply List.NoDup_cons; [intros [] | apply List.NoDup_nil].
  - apply List.NoDup_cons_iff in Hnd as [Hk Hnd].
    destruct (String.eqb_spec k k') as [->|Hne]; simpl.
    + apply List.NoDup_cons; assumption.
    + apply List.NoDup_cons; [|now apply IH].
      intros Hin. apply (keys_of_set k v o k') in Hin as [->|Hin]; [now apply Hne | auto].
Qed.

(** [newLinks] is an object: no two of its entries are for one target. *)
Lemma checkKeychanges_keys (st : State) (block : KeyBlock) (newLinks : NewLinks) :
  checkKeychanges conf st block = Ok newLinks -> List.NoDup (JS.keys newLinks).
Proof.
  unfold checkKeychanges. intros H.
  apply bind_Ok in H as (newKeys & _ & H).
  refine (foldSeries_invariant_In _ (fun nl : NewLinks => List.NoDup (JS.keys nl))
            _ _ [] newLinks _ H); [|apply List.NoDup_nil].
  intros ty links links' _ Hnd Hty. unfold checkKeychangesOfType in Hty.
  refine (foldSeries_invariant_In _ (fun nl : NewLinks => List.NoDup (JS.keys nl))
            _ _ links links' Hnd Hty).
  intros kc l l' _ Hl Hkc.
  destruct (negb (String.eqb (kc_type kc) "U") && negb (String.eqb (kc_type kc) "N"));
    [discriminate|].
  destruct (negb (String.eqb (kc_type kc) ty)); [now injection Hkc as <-|].
  apply bind_Ok in Hkc as (certifiers & _ & Hkc). injection Hkc as <-.
  now apply keys_of_set_NoDup.
Qed.

Lemma brought_other (block : KeyBlock) (t target : string) (sources : list string) :
  t <> target ->
  List.filter (fun l => String.eqb (lnk_target l) target)
    (map (fun source =>
            {| lnk_source := source; lnk_target := t;
               lnk_timestamp := kb_timestamp block; lnk_obsolete := false |})
         sources) = [].
Proof.
  intros Hne. induction sources as [|x sources IH]; [reflexivity|].
  cbn [map List.filter lnk_target].
  destruct (String.eqb_spec t target) as [Heq|_]; [contradiction | exact IH].
Qed.

Lemma brought_same (block : KeyBlock) (t : string) (sources : list string) :
  List.filter (fun l => String.eqb (lnk_target l) t)
    (map (fun source =>
            {| lnk_source := source; lnk_target := t;
               lnk_timestamp := kb_timestamp block; lnk_obsolete := false |})
         sources)
  = map (fun source =>
           {| lnk_source := source; lnk_target := t;
              lnk_timestamp := kb_timestamp block; lnk_obsolete := false |})
        sources.
Proof.
  induction sources as [|x sources IH]; [reflexivity|].
  cbn [map List.filter lnk_target]. rewrite String.eqb_refl. now rewrite IH.
Qed.

Lemma broughtTo_cons (block : KeyBlock) (t : string) (v : option (list string))
    (newLinks : NewLinks) (target : string) :
  broughtTo block ((t, v) :: newLinks) target
  = (List.filter (fun l => String.eqb (lnk_target l) target)
       (match v with
        | Some sources =>
            map (fun source =>
                   {| lnk_source := source; lnk_target := t;
                      lnk_timestamp := kb_timestamp block; lnk_obsolete := false |})
                sources
        | None => []
        end)
     ++ broughtTo block newLinks target)%list.
Proof.
  unfold broughtTo, broughtLinks. cbn [flat_map snd fst]. apply List.filter_app.
Qed.

Lemma broughtTo_absent (block : KeyBlock) (newLinks : NewLinks) (target : string) :
  ~ In target (JS.keys newLinks) -> broughtTo block newLinks target = [].
Proof.
  unfold JS.keys.
  induction newLinks as [|[t v] newLinks IH]; intros Hno; [reflexivity|].
  rewrite broughtTo_cons, IH by (intros Hin; apply Hno; now right).
  rewrite app_nil_r. destruct v as [sources|]; [|reflexivity].
  apply brought_other. intros ->. apply Hno. now left.
Qed.

(** The links a block brings to a target are those of the entry of
    [newLinks] for it. *)
Lemma broughtTo_get (block : KeyBlock) (newLinks : NewLinks) (target : string) :
  List.NoDup (JS.keys newLinks) ->
  broughtTo block newLinks target
  = match JS.get target newLinks with
    | Some (Some sources) =>
        map (fun source =>
               {| lnk_source := source; lnk_target := target;
                  lnk_timestamp := kb_timestamp block; lnk_obsolete := false |})
            sources
    | _ => []
    end.
Proof.
  induction newLinks as [|[t v] newLinks IH]; intros Hnd; [reflexivity|].
  unfold JS.keys in Hnd. cbn [map fst] in Hnd.
  apply List.NoDup_cons_iff in Hnd as [Ht Hnd].
  rewrite broughtTo_cons. cbn [JS.get].
  destruct (String.eqb_spec target t) as [->|Hne].
  - rewrite (broughtTo_absent block newLinks t Ht), app_nil_r.
    destruct v as [sources|]; [apply brought_same | reflexivity].
  - rewrite (IH Hnd).
    destruct v as [sources|]; [|reflexivity].
    rewrite brought_other by congruence. reflexivity.
Qed.

(** [count] in [checkHaveEnoughLinks]: the valid links the node holds to
    the target and the links the block brings to it. *)
Lemma linksCount_brought (st : State) (block : KeyBlock) (newLinks : NewLinks)
    (target : string) :
  List.NoDup (JS.keys newLinks) ->
  linksCount st target newLinks
  = Z.of_nat (List.length (Link_currentValidLinks st target))
    + Z.of_nat (List.length (broughtTo block newLinks target)).
Proof.
  intros Hnd. unfold linksCount. rewrite (broughtTo_get block newLinks target Hnd).
  destruct (JS.get target newLinks) as [[sources|]|]; [|reflexivity..].
  now rewrite length_map.
Qed.

(** C4, as the code has it.  The count of links is tested for the blocks
    after the root block only, and it is taken when the block is
    validated.  For every applied block with a number above 0, each
    fingerprint added by a [+FPR] entry has at least [sigQty] links,
    counting the valid links the node holds to it and the links the
    block brings to it.  Applying the block makes obsolete the links
    older than the validity of a certification allows at the date of the
    block: the valid links to a fingerprint after the block are those of
    the counted links that are not so expired, and they number at least
    [sigQty] when none of the counted links is.  A fingerprint with
    exactly [sigQty] counted links passes the test; a block that adds a
    fingerprint with [sigQty - 1] counted links and passes the checks
    that run before this one is rejected, the stores as they were. *)
Theorem newcomers_have_enough_links (now : Z) (kb : Submission) (st : State) :
  let B := receivedBlock kb in
  let cutoff := kb_timestamp B - sigValidity conf in
  let counted newLinks fpr := (Link_currentValidLinks st fpr ++ broughtTo B newLinks fpr)%list in
  0 < kb_number B ->
  (forall b st', submit now kb st = (Ok b, st') ->
     exists newLinks,
       checkKeychanges conf st B = Ok newLinks
       /\ (forall fpr, In ("+" +:+ fpr) (kb_membersChanges B) ->
             sigQty conf <= Z.of_nat (List.length (counted newLinks fpr)))
       /\ (forall fpr,
             Link_currentValidLinks st' fpr
             = List.filter (fun l => negb (Link_expired cutoff l)) (counted newLinks fpr))
       /\ (forall fpr, In ("+" +:+ fpr) (kb_membersChanges B) ->
             (forall l, In l (counted newLinks fpr) -> Link_expired cutoff l = false) ->
             sigQty conf <= Z.of_nat (List.length (Link_currentValidLinks st' fpr))))
  /\ (forall newLinks fpr,
        checkKeychanges conf st B = Ok newLinks ->
        Z.of_nat (List.length (counted newLinks fpr)) = sigQty conf ->
        checkHaveEnoughLinks conf st fpr newLinks = Ok tt)
  /\ (forall newLinks fpr,
        testChaining (KeyBlock_current st) B = Ok tt ->
        testTimestamp conf checkWithLocalTimestamp now B = Ok tt ->
        checkProofOfWork conf st (KeyBlock_current st) B = Ok tt ->
        checkIssuer st B = Ok tt ->
        checkKeychanges conf st B = Ok newLinks ->
        logNewLinks newLinks = Ok tt ->
        In ("+" +:+ fpr) (kb_membersChanges B) ->
        Z.of_nat (List.length (counted newLinks fpr)) = sigQty conf - 1 ->
        exists e, submit now kb st = (Err e, st)).
Proof.
  intros B cutoff counted Hnum.
  assert (Hcount : forall newLinks fpr,
            checkKeychanges conf st B = Ok newLinks ->
            Z.of_nat (List.length (counted newLinks fpr)) = linksCount st fpr newLinks).
  { intros nl fpr Hkc. unfold counted. rewrite length_app, Nat2Z.inj_add.
    symmetry. apply linksCount_brought. exact (checkKeychanges_keys st B nl Hkc). }
  split; [|split].
  - intros b st' Hok. apply submit_Ok_inv in Hok as (nl & Hc & Hsave).
    apply checks_Ok_inv in Hc as (_ & _ & _ & _ & Hkc & Hwot & _).
    fold B in Hkc, Hwot.
    assert (Henough : forall fpr, In ("+" +:+ fpr) (kb_membersChanges B) ->
              sigQty conf <= Z.of_nat (List.length (counted nl fpr))).
    { intros fpr Hin. rewrite (Hcount nl fpr Hkc).
      unfold checkWoTStability in Hwot.
      destruct (Z.leb_spec 0 (kb_number B)); [|discriminate].
      apply forEachSeries_Ok in Hwot. rewrite List.Forall_forall in Hwot.
      specialize (Hwot fpr (newcomersOf_In fpr _ Hin)).
      unfold checkNewcomer in Hwot. apply bind_Ok in Hwot as ([] & Hlinks & _).
      destruct (Z.ltb_spec 0 (kb_number B)); [|lia].
      now apply checkHaveEnoughLinks_Ok in Hlinks. }
    assert (Hafter : forall fpr,
              Link_currentValidLinks st' fpr
              = List.filter (fun l => negb (Link_expired cutoff l)) (counted nl fpr)).
    { intros fpr. apply saveBlockData_links in Hsave.
      unfold Link_currentValidLinks at 1. rewrite Hsave.
      unfold Link_obsoletes. cbn [set_links st_links].
      change (kb_timestamp (certified conf st (receivedBlock kb)) - sigValidity conf)
        with cutoff.
      change (broughtLinks (certified conf st (receivedBlock kb)) nl)
        with (broughtLinks B nl).
      rewrite valid_after_obsoletes, List.filter_app, broughtLinks_valid. reflexivity. }
    exists nl. split; [exact Hkc|]. split; [exact Henough|]. split; [exact Hafter|].
    intros fpr Hin Hfresh. rewrite Hafter.
    assert (Hall : List.filter (fun l => negb (Link_expired cutoff l)) (counted nl fpr)
                   = counted nl fpr).
    { induction (counted nl fpr) as [|l ls IHl]; [reflexivity|].
      cbn [List.filter]. rewrite (Hfresh l (or_introl eq_refl)). cbn [negb].
      rewrite IHl; [reflexivity|]. intros l' Hl'. apply Hfresh. now right. }
    rewrite Hall. now apply Henough.
  - intros nl fpr Hkc Heq. apply checkHaveEnoughLinks_Ok.
    rewrite <- (Hcount nl fpr Hkc). lia.
  - intros nl fpr H1 H2 H3 H4 H5 Hlog Hin Heq.
    assert (Hwot : exists e, checkWoTStability conf st B nl = Err e).
    { unfold checkWoTStability.
      destruct (Z.leb_spec 0 (kb_number B)); [|lia].
      apply forEachSeries_fails with (x := fpr).
      - intros y. apply checkNewcomer_verdict.
      - now apply newcomersOf_In.
      - unfold checkNewcomer. destruct (Z.ltb_spec 0 (kb_number B)); [|lia].
        destruct (checkHaveEnoughLinks_Err conf st fpr nl) as (e & ->).
        + rewrite <- (Hcount nl fpr H5). lia.
        + simpl. eauto. }
    destruct Hwot as (e & Hwot). exists e.
    rewrite submitKeyBlock_unfold. fold B. unfold checkKeyBlock, checkCoherence.
    rewrite H1. cbn [bind]. rewrite H2. cbn [bind]. rewrite H3. cbn [bind].
    rewrite H4. cbn [bind]. rewrite H5. cbn [bind]. rewrite Hlog. cbn [bind].
    now rewrite Hwot.
Qed.

(** *** The issuer and the clock *)

(** X22: the issuer [submitKeyBlock] checks and stores is the
    fingerprint of the public key that comes with the submission
    ([kb.pubkey.fingerprint]), whatever the document names as its issuer;
    the service itself verifies no signature of the block.  For an
    applied block that key was a member before the block, or the block is
    a block 0 whose members' changes add that key. *)
Theorem applied_block_issuer_is_the_attached_key (now : Z) (kb : Submission)
    (st st' : State) (b : KeyBlock) :
  submit now kb st = (Ok b, st') ->
  kb_issuer b = sub_pubkey_fingerprint kb
  /\ (Key_isMember st (sub_pubkey_fingerprint kb) = true
      \/ (kb_number (sub_doc kb) = 0
          /\ In ("+" +:+ sub_pubkey_fingerprint kb) (kb_membersChanges (sub_doc kb)))).
Proof.
  intros H. apply submit_Ok_inv in H as (nl & Hc & Hsave).
  apply saveBlockData_stages in Hsave as (_ & _ & _ & _ & _ & _ & _ & _ & _ & ->).
  split; [reflexivity|].
  apply checks_Ok_inv in Hc as (_ & _ & _ & Hi & _).
  unfold checkIssuer in Hi. cbn [receivedBlock kb_issuer kb_number kb_membersChanges] in Hi.
  destruct (Key_isMember st (sub_pubkey_fingerprint kb)); [now left|].
  destruct (Z.eqb_spec (kb_number (sub_doc kb)) 0) as [H0|H0]; [|discriminate].
  destruct (JS.includes ("+" +:+ sub_pubkey_fingerprint kb)
              (kb_membersChanges (sub_doc kb))) eqn:Hinc; [|discriminate].
  right. split; [exact H0 | now apply includes_In].
Qed.

(** X23: the clock of the node reaches one test only.  A node that does
    not check local time treats a submission the same at any time; a node
    that does treats it as the other node does while the timestamp of the
    block is within [tsInterval] of its clock, and outside of it rejects
    any block that passes the chaining tests, on the timestamp, leaving
    the stores as they were. *)
Theorem clock_reaches_the_timestamp_test_only (now now' : Z) (kb : Submission)
    (st : State) :
  submitKeyBlock conf false computation now kb st = submitKeyBlock conf false computation now' kb st
  /\ (Z.abs (kb_timestamp (sub_doc kb) - now) <= tsInterval conf ->
      submitKeyBlock conf true computation now kb st = submitKeyBlock conf false computation now kb st)
  /\ (tsInterval conf < Z.abs (kb_timestamp (sub_doc kb) - now) ->
      testChaining (KeyBlock_current st) (receivedBlock kb) = Ok tt ->
      submitKeyBlock conf true computation now kb st
      = (Err "Timestamp does not match this node's time", st)).
Proof.
  rewrite !submitKeyBlock_unfold. unfold checkKeyBlock, testTimestamp.
  cbn [receivedBlock kb_timestamp andb failWhen].
  split; [reflexivity|]. split.
  - intros Hin.
    replace (tsInterval conf <? Z.abs (kb_timestamp (sub_doc kb) - now)) with false by lia.
    reflexivity.
  - intros Hout Hchain. rewrite Hchain.
    replace (tsInterval conf <? Z.abs (kb_timestamp (sub_doc kb) - now)) with true by lia.
    reflexivity.
Qed.
End MoreProperties.

(** ** The further properties on the small network *)

(** The keychanges of the root block are NEWCOMER keychanges. *)
Lemma applied_keychanges_are_N_or_U_witness :
  @submitKeyBlock libs WoT.graph pks conf1 true NotComputing 1400000000 genesis fresh
  = (Ok genesisChecked, applied1)
  /\ forall kc, In kc (kb_keysChanges (receivedBlock genesis)) ->
       kc_type kc = "N" \/ kc_type kc = "U".
Proof.
  assert (H : @submitKeyBlock libs WoT.graph pks conf1 true NotComputing 1400000000 genesis fresh
              = (Ok genesisChecked, applied1)) by (vm_compute; reflexivity).
  split; [exact H|].
  exact (@applied_keychanges_are_N_or_U libs WoT.graph pks conf1 true NotComputing 1400000000
           genesis fresh applied1 genesisChecked H).
Defined.

(** The keychange of A in the root block decodes, and carries an IN
    membership. *)
Lemma applied_keychanges_are_well_formed_witness :
  @submitKeyBlock libs WoT.graph pks conf1 true NotComputing 1400000000 genesis fresh
  = (Ok genesisChecked, applied1)
  /\ exists key im ms,
       @fromEncodedPackets libs (kc_keypackets (newcomer fprA kidB)) = Ok key
       /\ kc_membership (newcomer fprA kidB) = Some im
       /\ @fromInline libs (im_membership im) (im_signature im) = Ok ms
       /\ ip_membership ms = "IN".
Proof.
  assert (H : @submitKeyBlock libs WoT.graph pks conf1 true NotComputing 1400000000 genesis fresh
              = (Ok genesisChecked, applied1)) by (vm_compute; reflexivity).
  split; [exact H|].
  destruct (@applied_keychanges_are_well_formed libs WoT.graph pks conf1 true NotComputing 1400000000
              genesis fresh applied1 genesisChecked H (newcomer fprA kidB))
    as [HN _]; [left; reflexivity|].
  destruct (HN eq_refl) as (key & im & ms & H1 & _ & _ & _ & H5 & H6 & H7 & _).
  exists key, im, ms. auto.
Defined.

(** In the root block, A is certified by B and B by A, both newcomers of
    the block. *)
Lemma new_links_come_from_members_or_newcomers_witness :
  @checkKeychanges libs conf1 fresh (receivedBlock genesis)
  = Ok [(fprA, Some [fprB]); (fprB, Some [fprA])]
  /\ exists kc, In kc (kb_keysChanges (receivedBlock genesis)) /\ kc_type kc = "N"
                /\ kc_fingerprint kc = fprB.
Proof.
  assert (H : @checkKeychanges libs conf1 fresh (receivedBlock genesis)
              = Ok [(fprA, Some [fprB]); (fprB, Some [fprA])]) by (vm_compute; reflexivity).
  split; [exact H|].
  assert (Hnone : forall kc, In kc (kb_keysChanges (receivedBlock genesis)) ->
                             kc_certifiers kc = None).
  { intros kc [<-|[<-|[]]]; reflexivity. }
  destruct (@new_links_come_from_members_or_newcomers libs conf1 fresh
              (receivedBlock genesis) _ Hnone H fprA [fprB]) as [_ Hsrc];
    [left; reflexivity|].
  destruct (Hsrc fprB) as [Hm | Hkc]; [left; reflexivity | | exact Hkc].
  vm_compute in Hm. discriminate.
Defined.

(** On the chain of 28 blocks, A, whose last block is the root block,
    owes one zero for block 28 with a period of one block. *)
Lemma trial_level_decays_by_period_witness :
  KeyBlock_lastOfIssuer longChain fprA = Some (chainBlock 0)
  /\ exists level, getTrialLevel conf1 longChain fprA 28 100 = Ok (JS.Int level)
                   /\ level = powZeroMin conf1.
Proof.
  assert (H : KeyBlock_lastOfIssuer longChain fprA = Some (chainBlock 0))
    by (vm_compute; reflexivity).
  split; [exact H|].
  destruct (trial_level_decays_by_period conf1 longChain fprA 28 100 (chainBlock 0) 1 H)
    as (level & Hl & _ & _ & _ & Hmin).
  - vm_compute. discriminate.
  - reflexivity.
  - lia.
  - vm_compute. split; discriminate.
  - vm_compute. discriminate.
  - reflexivity.
  - reflexivity.
  - reflexivity.
  - reflexivity.
  - exists level. split; [exact Hl|]. apply Hmin. vm_compute. discriminate.
Defined.


(** Block 28 by A, with one leading zero, is a proof of work at the
    level of one zero. *)
Lemma proof_of_work_verdict_witness :
  getTrialLevel conf1 longChain (kb_issuer block28) (kb_number block28) 100
  = Ok (JS.Int 1)
  /\ checkProofOfWork conf1 longChain (Some (chainBlock 27)) block28 = Ok tt.
Proof.
  assert (H : getTrialLevel conf1 longChain (kb_issuer block28) (kb_number block28) 100
              = Ok (JS.Int 1)) by (vm_compute; reflexivity).
  split; [exact H|].
  assert (Hz : 0 <= powZeroMin conf1 <= 1) by (simpl; lia).
  apply (proj1 (proof_of_work_verdict conf1 longChain (Some (chainBlock 27)) block28 1 H Hz)).
  vm_compute. discriminate.
Defined.

(** The request of A is the one entry of the pool once it is accepted. *)
Lemma pool_keeps_one_eligible_entry_per_issuer_witness :
  @submitMembership libs joinA fresh = (Ok joinA, Cases.requested)
  /\ In joinA (st_memberships Cases.requested).
Proof.
  assert (H : @submitMembership libs joinA fresh = (Ok joinA, Cases.requested))
    by (vm_compute; reflexivity).
  split; [exact H|].
  exact (proj2 (proj2 (@pool_keeps_one_eligible_entry_per_issuer libs joinA joinA fresh
                         Cases.requested H))).
Defined.

(** On the node that asks for two certifications per member, the members
    of the root block are to be kicked, and the empty block the node
    builds is answered with an exception by its own checks. *)
Lemma empty_next_block_against_the_checks_witness :
  KeyBlock_current applied2 = Some genesisChecked
  /\ exists b, @generateEmptyNext Cases.enc applied2 = Ok b
               /\ @checkCoherence libs WoT.graph conf2 applied2 b = Crash.
Proof.
  assert (H : KeyBlock_current applied2 = Some genesisChecked)
    by (vm_compute; reflexivity).
  split; [exact H|].
  destruct (@empty_next_block_against_the_checks libs WoT.graph conf2 Cases.enc applied2
              genesisChecked H) as (b & Hb & _ & _ & _ & _ & Hc).
  - vm_compute. discriminate.
  - exists b. split; [exact Hb|]. rewrite Hc. vm_compute. reflexivity.
Defined.

(** A and B are members once the root block is applied. *)
Lemma members_after_an_applied_block_witness :
  @submitKeyBlock libs WoT.graph pks conf1 true NotComputing 1400000000 genesis fresh
  = (Ok genesisChecked, applied1)
  /\ forall mc, In mc (kb_membersChanges (sub_doc genesis)) ->
       Key_isMember applied1 (JS.substringFrom 1 mc) = JS.startsWithPlus mc.
Proof.
  assert (H : @submitKeyBlock libs WoT.graph pks conf1 true NotComputing 1400000000 genesis fresh
              = (Ok genesisChecked, applied1)) by (vm_compute; reflexivity).
  split; [exact H|].
  assert (Hnd : List.NoDup (map (JS.substringFrom 1) (kb_membersChanges (sub_doc genesis)))).
  { vm_compute. repeat (apply List.NoDup_cons || apply List.NoDup_nil);
      simpl; intuition discriminate. }
  destruct (@members_after_an_applied_block libs WoT.graph pks conf1 true NotComputing 1400000000
              genesis fresh applied1 genesisChecked H Hnd) as [Hin _].
  exact Hin.
Defined.

(** The request of A leaves the pool when the root block brings A in. *)
Lemma applied_block_clears_the_pool_witness :
  exists st',
    @submitKeyBlock libs WoT.graph pks conf1 true NotComputing 1400000000 genesis Cases.requested
    = (Ok genesisChecked, st')
    /\ (In joinA (st_memberships st')
        <-> In joinA (st_memberships Cases.requested)
            /\ forall kc, In kc (kb_keysChanges (sub_doc genesis)) -> kc_type kc = "N" ->
                          ms_issuer joinA <> kc_fingerprint kc).
Proof.
  exists (snd (@submitKeyBlock libs WoT.graph pks conf1 true NotComputing 1400000000 genesis
                 Cases.requested)).
  assert (H : @submitKeyBlock libs WoT.graph pks conf1 true NotComputing 1400000000 genesis
                Cases.requested
              = (Ok genesisChecked,
                 snd (@submitKeyBlock libs WoT.graph pks conf1 true NotComputing 1400000000 genesis
                        Cases.requested))) by (vm_compute; reflexivity).
  split; [exact H|].
  exact (@applied_block_clears_the_pool libs WoT.graph pks conf1 true NotComputing 1400000000 genesis
           Cases.requested _ genesisChecked H joinA).
Defined.

(** On the node that asks for two certifications per member, A has one
    link after the root block and is flagged; every later block meets the
    exception of [checkKicked]. *)
Lemma kick_flags_after_an_applied_block_witness :
  @submitKeyBlock libs WoT.graph pks conf2 true NotComputing 1400000000 genesis fresh
  = (Ok genesisChecked, applied2)
  /\ forall block newLinks, @checkKicked WoT.graph applied2 block newLinks = Crash.
Proof.
  assert (H : @submitKeyBlock libs WoT.graph pks conf2 true NotComputing 1400000000 genesis fresh
              = (Ok genesisChecked, applied2)) by (vm_compute; reflexivity).
  split; [exact H|].
  destruct (@kick_flags_after_an_applied_block libs WoT.graph pks conf2 true NotComputing 1400000000
              genesis fresh applied2 genesisChecked H)
    as (members & _ & Hmem & _ & Hkick).
  apply Hkick. exists fprA. split.
  - apply Hmem. vm_compute. reflexivity.
  - vm_compute. reflexivity.
Defined.

(** The root block comes with the key of A, whom it adds. *)
Lemma applied_block_issuer_is_the_attached_key_witness :
  @submitKeyBlock libs WoT.graph pks conf1 true NotComputing 1400000000 genesis fresh
  = (Ok genesisChecked, applied1)
  /\ kb_issuer genesisChecked = fprA
  /\ In ("+" +:+ fprA) (kb_membersChanges (sub_doc genesis)).
Proof.
  assert (H : @submitKeyBlock libs WoT.graph pks conf1 true NotComputing 1400000000 genesis fresh
              = (Ok genesisChecked, applied1)) by (vm_compute; reflexivity).
  split; [exact H|].
  destruct (@applied_block_issuer_is_the_attached_key libs WoT.graph pks conf1 true
              NotComputing 1400000000 genesis fresh applied1 genesisChecked H)
    as [Hi [Hm | [_ Hin]]].
  - vm_compute in Hm. discriminate.
  - split; [exact Hi | exact Hin].
Defined.

(** Of the fingerprints of B and of A, the one that ends with the key id
    of A is the fingerprint of A. *)
Lemma matchFingerprint_first_match_witness :
  JS.isHex kidA = true
  /\ (matchFingerprint kidA [fprB; fprA] = ""
      \/ exists before after,
           [fprB; fprA] = (before ++ matchFingerprint kidA [fprB; fprA] :: after)%list)
  /\ matchFingerprint kidA [fprB; fprA] = fprA.
Proof.
  assert (H : JS.isHex kidA = true) by reflexivity.
  split; [exact H|]. split; [|vm_compute; reflexivity].
  destruct (matchFingerprint_first_match kidA [fprB; fprA] H)
    as [[Hnone _] | (before & after & Heq & _)].
  - now left.
  - right. exists before, after. exact Heq.
Defined.

(** ** Where the specification and the service part *)

(** C4 fails on the root block and on a block dated past the validity of
    the links it counts on.  With [sigQty] = 2, the root block in which A
    and B certify each other is applied, and A, added by [+A], has a
    single link.  With [sigQty] = 1, block 1 dated one second after the
    certifications of the root block lost their validity is applied on
    the count of the one valid link the node holds to A, added by [+A];
    applying it makes that link obsolete, and A has no valid link after
    the block. *)
Lemma applied_newcomer_below_sigQty :
  (@submitKeyBlock libs WoT.graph pks conf2 true NotComputing 1400000000 genesis fresh
   = (Ok genesisChecked, applied2)
   /\ kb_number (receivedBlock genesis) = 0
   /\ In ("+" +:+ fprA) (kb_membersChanges (receivedBlock genesis))
   /\ Z.of_nat (List.length (Link_currentValidLinks applied2 fprA)) = 1
   /\ sigQty conf2 = 2)
  /\ (exists b,
        @submitKeyBlock libs WoT.graph pks conf1 true NotComputing 1402629801
          Cases.pastValidity applied1 = (Ok b, Cases.afterValidity)
        /\ kb_number (receivedBlock Cases.pastValidity) = 1
        /\ In ("+" +:+ fprA) (kb_membersChanges (receivedBlock Cases.pastValidity))
        /\ Z.of_nat (List.length (Link_currentValidLinks applied1 fprA)) = 1
        /\ Z.of_nat (List.length (Link_currentValidLinks Cases.afterValidity fprA)) = 0
        /\ sigQty conf1 = 1).
Proof.
  split.
  - split; [exact applied2_run|].
    split; [vm_compute; reflexivity|].
    split; [left; reflexivity|].
    split; vm_compute; reflexivity.
  - exists (@certified libs conf1 applied1 (receivedBlock Cases.pastValidity)).
    split; [vm_compute; reflexivity|].
    split; [vm_compute; reflexivity|].
    split; [left; reflexivity|].
    split; [vm_compute; reflexivity|].
    split; vm_compute; reflexivity.
Qed.

(** On the small network, block 1 brings in C with the certification by
    A that it carries: C has one valid link once the block is applied. *)
Lemma newcomers_have_enough_links_witness :
  0 < kb_number (receivedBlock Cases.joinsC)
  /\ (exists b,
        @submitKeyBlock libs WoT.graph pks conf1 true NotComputing 1400000060
          Cases.joinsC Cases.knowsC = (Ok b, Cases.joinedC))
  /\ In ("+" +:+ Cases.fprC) (kb_membersChanges (receivedBlock Cases.joinsC))
  /\ sigQty conf1 <= Z.of_nat (List.length (Link_currentValidLinks Cases.joinedC Cases.fprC)).
Proof.
  assert (H0 : 0 < kb_number (receivedBlock Cases.joinsC)) by (vm_compute; reflexivity).
  assert (Hrun : @submitKeyBlock libs WoT.graph pks conf1 true NotComputing 1400000060
                   Cases.joinsC Cases.knowsC
                 = (Ok (@certified libs conf1 Cases.knowsC (receivedBlock Cases.joinsC)),
                    Cases.joinedC)) by (vm_compute; reflexivity).
  assert (Hin : In ("+" +:+ Cases.fprC) (kb_membersChanges (receivedBlock Cases.joinsC)))
    by (left; reflexivity).
  split; [exact H0|]. split; [eexists; exact Hrun|]. split; [exact Hin|].
  destruct (proj1 (@newcomers_have_enough_links libs WoT.graph pks conf1 true NotComputing
                     1400000060 Cases.joinsC Cases.knowsC H0) _ _ Hrun)
    as (newLinks & Hkc & _ & _ & Hfresh).
  assert (Hnl : newLinks = [(Cases.fprC, Some [fprA]); (fprA, Some [Cases.fprC])]).
  { vm_compute in Hkc. now injection Hkc. }
  subst newLinks.
  exact (Hfresh Cases.fprC Hin
           ltac:(intros l Hl; vm_compute in Hl; destruct Hl as [<-|[]]; reflexivity)).
Defined.

(** C9 fails on a clock that is set back.  The block was dated
    1400000000 and its nonce was 7; the clock then reads 1399999990,
    four times.  The timestamp of the block does not advance, and the
    nonce is not incremented from 7: it is set to 0 by the first reading
    and counts the three that follow, and the block is handed over with
    the earlier date and the nonce 3. *)
Lemma prove_resets_the_nonce_on_a_clock_set_back :
  kb_timestamp Cases.searched = 1400000000
  /\ kb_nonce Cases.searched = 7
  /\ (forall t, In t Cases.setBackClock -> tick_now t < kb_timestamp Cases.searched)
  /\ exists b,
       @prove libs Cases.searched (fun raw => "SIG") (JS.Int 2) Cases.setBackClock
       = [Proved b]
       /\ kb_timestamp b = 1399999990
       /\ kb_nonce b = 3.
Proof.
  split; [reflexivity|]. split; [reflexivity|]. split.
  - intros t Hin. vm_compute in Hin.
    destruct Hin as [<-|[<-|[<-|[<-|[]]]]]; reflexivity.
  - eexists. split; [vm_compute; reflexivity|]. split; reflexivity.
Qed.

